(** * Call-session orchestrator of the acquisitions chatbot

    A shallow embedding of [backend/data/store.py], [backend/llm/vanessa.py],
    [backend/llm/realtime_openai.py] and the media-stream handler of
    [backend/transport/twilio_quart.py], and the properties of the lead
    store, the decision step, the turn-based orchestrator and the streaming
    bridge that the specification states about them.  The keyword backend
    of [backend/llm/openai_client.py], the simulated call of
    [backend/transport/twilio_placeholder.py] and the intent handler of
    [backend/asgi.py] are embedded as well, with further properties of all
    of these at the end.

    What lies outside the program is an explicit input of the model:
    - [json.loads] is a parameter of the turn-based orchestrator; a websocket
      frame is given as [json.loads] reads it;
    - the reasoning backend of a turn is a function handed to that turn;
    - the realtime socket is the list of its arrivals with their delays, and
      the outcome of each [send];
    - the telephony side is the list of what [websocket.receive()] gives;
    - the wall clock is the sequence of its readings.
    The database does not fail and [close()] of a websocket does not raise.
    Exceptions are values; what was written before one is raised stays
    written. *)

From Stdlib Require Import String Ascii List ZArith Bool Lia.
Import ListNotations.
Open Scope string_scope.
Open Scope Z_scope.
Open Scope list_scope.

(* ===================================================================== *)
(** * Python values and text *)
(* ===================================================================== *)

(** Python [str] is modelled by [string]; a character stands for the code
    point of its number, so the model covers text over code points below
    256.  [lower] and [strip] are [str.lower()] and [str.strip()] on that
    range.  Message literals of the source that contain other punctuation
    are kept as their UTF-8 bytes; the program never case-maps or strips
    them. *)
Module PyStr.

(** [str.isspace] on one character: TAB..CR, FS..US, SPACE, NEL, NBSP. *)
Definition is_space (c : ascii) : bool :=
  let n := N.to_nat (N_of_ascii c) in
  ((9 <=? n) && (n <=? 13) || (28 <=? n) && (n <=? 32)
   || (n =? 133) || (n =? 160))%nat.

(** [str.lower] on one character: A..Z, and the Latin-1 capitals
    U+00C0..U+00DE apart from the multiplication sign U+00D7. *)
Definition lower_char (c : ascii) : ascii :=
  let n := N.to_nat (N_of_ascii c) in
  if ((65 <=? n) && (n <=? 90)
      || (192 <=? n) && (n <=? 222) && negb (n =? 215))%nat
  then ascii_of_nat (n + 32) else c.

Fixpoint lower (s : string) : string :=
  match s with
  | EmptyString => EmptyString
  | String c r => String (lower_char c) (lower r)
  end.

Fixpoint lstrip (s : string) : string :=
  match s with
  | EmptyString => EmptyString
  | String c r => if is_space c then lstrip r else s
  end.

(** Drops the trailing white space: a character is kept when it is not
    white space or when something is kept after it. *)
Fixpoint rstrip (s : string) : string :=
  match s with
  | EmptyString => EmptyString
  | String c r =>
      match rstrip r with
      | EmptyString => if is_space c then EmptyString else String c EmptyString
      | r' => String c r'
      end
  end.

Definition strip (s : string) : string := rstrip (lstrip s).

(** [bool(s)] for a [str]. *)
Definition nonempty (s : string) : bool :=
  match s with EmptyString => false | _ => true end.

End PyStr.

(** The values [json.loads] produces, which is what the orchestrators read
    out of a backend reply.  A JSON number is represented by its integer
    case: every operation the program applies to a value (truth test,
    comparison with a string or [None], [.lower()], [.strip()]) treats a
    float as it treats an integer. *)
#[warnings="-register-all"]
Inductive pyval : Type :=
| PNone
| PBool (b : bool)
| PInt (z : Z)
| PStr (s : string)
| PList (l : list pyval)
| PDict (d : list (string * pyval)).

(** A Python [dict] with string keys, in insertion order. *)
Definition dict : Type := list (string * pyval).

(** Python's truth value of an object. *)
Definition truthy (v : pyval) : bool :=
  match v with
  | PNone => false
  | PBool b => b
  | PInt z => negb (z =? 0)
  | PStr s => PyStr.nonempty s
  | PList l => match l with [] => false | _ => true end
  | PDict d => match d with [] => false | _ => true end
  end.

(** [a or b]. *)
Definition py_or (a b : pyval) : pyval := if truthy a then a else b.

(** [v == s] for a string literal [s]: only a [str] equals a [str]. *)
Definition eq_str (v : pyval) (s : string) : bool :=
  match v with PStr t => String.eqb t s | _ => false end.

(** [v in (None, "")]. *)
Definition is_none_or_empty (v : pyval) : bool :=
  match v with
  | PNone => true
  | PStr s => negb (PyStr.nonempty s)
  | _ => false
  end.

Fixpoint lookup (k : string) (d : dict) : option pyval :=
  match d with
  | [] => None
  | (k', v) :: r => if String.eqb k k' then Some v else lookup k r
  end.

(** [d.get(k, dflt)] and [d.get(k)]. *)
Definition get_or (d : dict) (k : string) (dflt : pyval) : pyval :=
  match lookup k d with Some v => v | None => dflt end.

Definition get (d : dict) (k : string) : pyval := get_or d k PNone.

(* ===================================================================== *)
(** * Exceptions and the effect monad *)
(* ===================================================================== *)

Inductive exn : Type :=
| AttributeError      (* a method of [str] or [dict] asked of another value *)
| KeyError
| TypeError
| JSONDecodeError
| ConnectionClosed    (* the websocket peer is gone *)
| BackendError        (* the reasoning backend or the telephony API failed *)
| CancelledError.     (* the handler task is cancelled; not an [Exception] *)

(** [isinstance(e, Exception)]: what [except Exception] catches. *)
Definition is_Exception (e : exn) : bool :=
  match e with CancelledError => false | _ => true end.

Inductive result (A : Type) : Type :=
| Ok (a : A)
| Raise (e : exn).
Arguments Ok {A} a.
Arguments Raise {A} e.

(** A computation over a state [S] that returns or raises; what was written
    to the state before an exception stays written. *)
Definition M (S A : Type) : Type := S -> result A * S.

Definition ret {S A} (a : A) : M S A := fun s => (Ok a, s).

Definition bind {S A B} (m : M S A) (k : A -> M S B) : M S B :=
  fun s =>
    match m s with
    | (Ok a, s') => k a s'
    | (Raise e, s') => (Raise e, s')
    end.

Definition raise {S A} (e : exn) : M S A := fun s => (Raise e, s).

(** A pure step that may raise. *)
Definition lift_result {S A} (r : result A) : M S A := fun s => (r, s).

Declare Scope py_scope.
Delimit Scope py_scope with py.
Notation "x <- m ;; k" := (bind m (fun x => k))
  (at level 61, m at next level, right associativity) : py_scope.
Notation "m ;;; k" := (bind m (fun _ => k))
  (at level 61, right associativity) : py_scope.

(** [v.lower()] and [v.strip()]: methods of [str] only. *)
Definition py_lower (v : pyval) : result string :=
  match v with PStr s => Ok (PyStr.lower s) | _ => Raise AttributeError end.

Definition py_strip (v : pyval) : result string :=
  match v with PStr s => Ok (PyStr.strip s) | _ => Raise AttributeError end.

(* ===================================================================== *)
(** * The lead store ([data/models.py], [data/store.py]) *)
(* ===================================================================== *)

(** Rows of the three tables.  The store is modelled on the values a text
    column holds as they are, text and [None]: for these the operations
    below do what [store.py] does, commit and re-reading included.  Any
    other value reaches the database unchecked, where a number or a boolean
    is converted to text and a list or an object is refused with an
    exception; that conversion and that refusal are outside the model, in
    which such a value would stay as passed.  Every property of a stored
    value, and every property that a store operation returns, is therefore
    stated for text and [None] only ([text_or_none]).  Timestamps are
    readings of [datetime.utcnow()]. *)

(** A value a text column holds as it is. *)
Definition text_or_none (v : pyval) : bool :=
  match v with
  | PNone | PStr _ => true
  | _ => false
  end.

(** What INSERT stores for an attribute of a new row whose column has the
    default [""]: an attribute that is [None] takes the default. *)
Definition column_default (v : pyval) : pyval :=
  match v with
  | PNone => PStr ""
  | _ => v
  end.
Module Lead.
Record t : Type := mk {
  id : Z;
  phone : string;
  owner_name : pyval;
  property_address : pyval;
  interest : pyval;
  price_range : pyval;
  timing : pyval;
  condition : pyval;
  owner_status : pyval;
  qualified : bool;
  created_at : Z;
  updated_at : Z
}.

(** The columns a caller may pass to [upsert_lead] as keyword fields. *)
Inductive column : Type :=
| Owner_name | Property_address | Interest | Price_range | Timing
| Condition | Owner_status.

Definition getattr (c : column) (l : t) : pyval :=
  match c with
  | Owner_name => owner_name l
  | Property_address => property_address l
  | Interest => interest l
  | Price_range => price_range l
  | Timing => timing l
  | Condition => condition l
  | Owner_status => owner_status l
  end.

Definition setattr (c : column) (v : pyval) (l : t) : t :=
  match c with
  | Owner_name =>
      mk (id l) (phone l) v (property_address l) (interest l) (price_range l)
         (timing l) (condition l) (owner_status l) (qualified l)
         (created_at l) (updated_at l)
  | Property_address =>
      mk (id l) (phone l) (owner_name l) v (interest l) (price_range l)
         (timing l) (condition l) (owner_status l) (qualified l)
         (created_at l) (updated_at l)
  | Interest =>
      mk (id l) (phone l) (owner_name l) (property_address l) v (price_range l)
         (timing l) (condition l) (owner_status l) (qualified l)
         (created_at l) (updated_at l)
  | Price_range =>
      mk (id l) (phone l) (owner_name l) (property_address l) (interest l) v
         (timing l) (condition l) (owner_status l) (qualified l)
         (created_at l) (updated_at l)
  | Timing =>
      mk (id l) (phone l) (owner_name l) (property_address l) (interest l)
         (price_range l) v (condition l) (owner_status l) (qualified l)
         (created_at l) (updated_at l)
  | Condition =>
      mk (id l) (phone l) (owner_name l) (property_address l) (interest l)
         (price_range l) (timing l) v (owner_status l) (qualified l)
         (created_at l) (updated_at l)
  | Owner_status =>
      mk (id l) (phone l) (owner_name l) (property_address l) (interest l)
         (price_range l) (timing l) (condition l) v (qualified l)
         (created_at l) (updated_at l)
  end.

Definition set_id (i : Z) (l : t) : t :=
  mk i (phone l) (owner_name l) (property_address l) (interest l)
     (price_range l) (timing l) (condition l) (owner_status l) (qualified l)
     (created_at l) (updated_at l).

Definition set_qualified (q : bool) (l : t) : t :=
  mk (id l) (phone l) (owner_name l) (property_address l) (interest l)
     (price_range l) (timing l) (condition l) (owner_status l) q
     (created_at l) (updated_at l).

Definition set_updated_at (ts : Z) (l : t) : t :=
  mk (id l) (phone l) (owner_name l) (property_address l) (interest l)
     (price_range l) (timing l) (condition l) (owner_status l) (qualified l)
     (created_at l) ts.

End Lead.

Module Callback.
Record t : Type := mk {
  id : Z;
  lead_id : Z;
  window : pyval;
  notes : pyval;
  created_at : Z
}.
End Callback.

Module CallEvent.
(** [payload] is the value handed to [json.dumps]. *)
Record t : Type := mk {
  id : Z;
  call_sid : string;
  event_type : string;
  payload : pyval;
  ts : Z
}.
End CallEvent.

(** The database: the three tables in row order, and the wall clock as the
    sequence of readings [datetime.utcnow()] gives, with the number of
    readings taken so far. *)
Record db : Type := mk_db {
  leads : list Lead.t;
  callbacks : list Callback.t;
  events : list CallEvent.t;
  wall : nat -> Z;
  reads : nat
}.

Definition with_leads (ls : list Lead.t) (d : db) : db :=
  mk_db ls (callbacks d) (events d) (wall d) (reads d).
Definition with_callbacks (cs : list Callback.t) (d : db) : db :=
  mk_db (leads d) cs (events d) (wall d) (reads d).
Definition with_events (es : list CallEvent.t) (d : db) : db :=
  mk_db (leads d) (callbacks d) es (wall d) (reads d).

Definition utcnow (d : db) : Z * db :=
  (wall d (reads d),
   mk_db (leads d) (callbacks d) (events d) (wall d) (S (reads d))).

(** The key the database gives a new row: one more than the largest key in
    the table, 1 in an empty table. *)
Definition next_id (ids : list Z) : Z :=
  match ids with
  | [] => 1
  | i :: r => 1 + fold_left Z.max r i
  end.

(** [save_event(event_type, payload, call_sid)]. *)
Definition save_event (event_type : string) (payload : pyval)
    (call_sid : string) (d : db) : db :=
  let (now, d1) := utcnow d in
  let ev := CallEvent.mk (next_id (map CallEvent.id (events d1)))
              call_sid event_type payload now in
  with_events (events d1 ++ [ev]) d1.

(** [select(Lead).where(Lead.phone == phone)] then [.first()]. *)
Definition first_by_phone (p : string) (ls : list Lead.t) : option Lead.t :=
  find (fun l => String.eqb (Lead.phone l) p) ls.

Definition find_lead_by_phone (p : string) (d : db) : option Lead.t :=
  first_by_phone p (leads d).

(** [s.get(Lead, lead_id)]. *)
Definition get_lead (i : Z) (d : db) : option Lead.t :=
  find (fun l => Lead.id l =? i) (leads d).

(** Writes [new] over the first row that satisfies [sel]: the commit of the
    row object the session loaded. *)
Fixpoint write_first (sel : Lead.t -> bool) (new : Lead.t) (ls : list Lead.t)
    : list Lead.t :=
  match ls with
  | [] => []
  | l :: r => if sel l then new :: r else l :: write_first sel new r
  end.

(** The keyword fields of a call, in the order written. *)
Definition fields : Type := list (Lead.column * pyval).

(** [Lead(phone=phone, **fields)] as the INSERT stores it: every column at
    its default, then the fields given, a field given as [None] being
    stored as the default of its column. *)
Definition new_lead (p : string) (fs : fields) (created updated : Z) : Lead.t :=
  fold_left (fun l kv => Lead.setattr (fst kv) (column_default (snd kv)) l) fs
    (Lead.mk 0 p (PStr "") (PStr "") (PStr "") (PStr "") (PStr "") (PStr "")
       (PStr "") false created updated).

(** The loop of [upsert_lead] over an existing row:
    [if v not in (None, ""): setattr(lead, k, v)]. *)
Definition merge_fields (fs : fields) (l : Lead.t) : Lead.t :=
  fold_left
    (fun l kv => if is_none_or_empty (snd kv) then l
                 else Lead.setattr (fst kv) (snd kv) l)
    fs l.

Definition upsert_lead (p : string) (fs : fields) (d : db) : Lead.t * db :=
  match first_by_phone p (leads d) with
  | None =>
      let (created, d1) := utcnow d in
      let (updated, d2) := utcnow d1 in
      let lead := Lead.set_id (next_id (map Lead.id (leads d2)))
                    (new_lead p fs created updated) in
      (lead, with_leads (leads d2 ++ [lead]) d2)
  | Some old =>
      let merged := merge_fields fs old in
      let (now, d1) := utcnow d in
      let lead := Lead.set_updated_at now merged in
      (lead,
       with_leads
         (write_first (fun l => String.eqb (Lead.phone l) p) lead (leads d1)) d1)
  end.

Definition mark_qualified (lead_id : Z) (is_qualified : bool) (d : db) : db :=
  match get_lead lead_id d with
  | Some lead =>
      let (now, d1) := utcnow d in
      let lead' := Lead.set_updated_at now (Lead.set_qualified is_qualified lead) in
      with_leads (write_first (fun l => Lead.id l =? lead_id) lead' (leads d1)) d1
  | None => d
  end.

(** [create_callback(lead_id, window, notes)], returning the row as re-read:
    the stored window is [window or "next business day"], and notes given
    as [None] are stored as the column default. *)
Definition create_callback (lead_id : Z) (window notes : pyval) (d : db)
    : Callback.t * db :=
  let (now, d1) := utcnow d in
  let cb := Callback.mk (next_id (map Callback.id (callbacks d1))) lead_id
              (py_or window (PStr "next business day"))
              (column_default notes) now in
  (cb, with_callbacks (callbacks d1 ++ [cb]) d1).

(* ===================================================================== *)
(** * The turn-based orchestrator ([llm/vanessa.py]) *)
(* ===================================================================== *)

(** One entry of the history: [{"role": ..., "content": ...}]. *)
Record message : Type := mk_message { role : string; content : string }.

Module ConversationState.
Record t : Type := mk {
  phone : string;
  call_sid : string;
  history : list message;
  elapsed_sec : Z;
  closed : bool;
  outcome : option string;
  last_response_id : option string
}.

Definition init (phone call_sid : string) : t :=
  mk phone call_sid [] 0 false None None.
End ConversationState.

(** What a [VanessaBrain] works on: its own state and the database. *)
Record world : Type := mk_world {
  state : ConversationState.t;
  store : db
}.

Definition on_store {A} (f : db -> A * db) : M world A :=
  fun w => let (a, d) := f (store w) in (Ok a, mk_world (state w) d).

Definition log_event (event_type : string) (payload : pyval) : M world unit :=
  fun w =>
    (Ok tt,
     mk_world (state w)
       (save_event event_type payload (ConversationState.call_sid (state w))
          (store w))).

Definition get_state : M world ConversationState.t := fun w => (Ok (state w), w).

Definition set_state (f : ConversationState.t -> ConversationState.t)
    : M world unit :=
  fun w => (Ok tt, mk_world (f (state w)) (store w)).

(** [VanessaBrain.__init__]. *)
Definition VanessaBrain (phone call_sid : string) (d : db) : world :=
  mk_world (ConversationState.init phone call_sid) (snd (upsert_lead phone [] d)).

(** The dictionary [_decide_and_apply] returns for an outcome. *)
Inductive outcome : Type :=
| Dnc (message : string)
| CallbackOutcome (callback_id : Z) (window : pyval) (message : string)
| Transfer (message : string).

(** [outcome["type"]]. *)
Definition outcome_type (o : outcome) : string :=
  match o with
  | Dnc _ => "dnc"
  | CallbackOutcome _ _ _ => "callback"
  | Transfer _ => "transfer"
  end.

Definition dnc_message : string :=
  "Understood—removing you from our list. Have a great day.".
Definition callback_message : string :=
  "We’ll call you back then. Thank you!".
Definition transfer_message : string :=
  "Let me connect you with my acquisitions lead now for numbers.".
Definition timeout_message : string :=
  "Thanks for your time—no worries, we’ll remove you from our list.".
Definition timeout_reason : string := "no_clear_interest_within_timebox".

(** [(analysis.get("interest") or "").lower().strip()]. *)
Definition norm_interest (analysis : dict) : result string :=
  match py_lower (py_or (get analysis "interest") (PStr "")) with
  | Ok s => Ok (PyStr.strip s)
  | Raise e => Raise e
  end.

(** [bool((analysis.get(k) or "").strip())]. *)
Definition nonblank (analysis : dict) (k : string) : result bool :=
  match py_strip (py_or (get analysis k) (PStr "")) with
  | Ok s => Ok (PyStr.nonempty s)
  | Raise e => Raise e
  end.

Definition str_in (s : string) (l : list string) : bool :=
  existsb (String.eqb s) l.

Definition _lead_snapshot : M world dict :=
  fun w =>
    (Ok match find_lead_by_phone (ConversationState.phone (state w)) (store w) with
        | None => []
        | Some lead =>
            [("id", PInt (Lead.id lead)); ("phone", PStr (Lead.phone lead));
             ("interest", Lead.interest lead);
             ("price_range", Lead.price_range lead);
             ("timing", Lead.timing lead);
             ("condition", Lead.condition lead);
             ("owner_status", Lead.owner_status lead);
             ("qualified", PBool (Lead.qualified lead))]
        end, w).

Definition _update_lead (analysis : dict) : M world unit :=
  fun w =>
    (Ok tt,
     mk_world (state w)
       (snd (upsert_lead (ConversationState.phone (state w))
               [(Lead.Interest, get_or analysis "interest" (PStr ""));
                (Lead.Price_range, get_or analysis "price_range" (PStr ""));
                (Lead.Timing, get_or analysis "timing" (PStr ""));
                (Lead.Condition, get_or analysis "condition" (PStr ""));
                (Lead.Owner_status, get_or analysis "owner_status" (PStr ""))]
               (store w)))).

Definition _append_user (text : string) : M world unit :=
  (set_state (fun st =>
     ConversationState.mk (ConversationState.phone st)
       (ConversationState.call_sid st)
       (ConversationState.history st ++ [mk_message "user" text])
       (ConversationState.elapsed_sec st) (ConversationState.closed st)
       (ConversationState.outcome st) (ConversationState.last_response_id st)) ;;;
   st <- get_state ;;
   log_event "TURN"
     (PDict [("from", PStr "user"); ("text", PStr text);
             ("elapsed", PInt (ConversationState.elapsed_sec st))]))%py.

Definition _decide_and_apply (analysis : dict) (lead_id : Z)
    : M world (option outcome) :=
  (interest <- lift_result (norm_interest analysis) ;;
   price_ok <- lift_result (nonblank analysis "price_range") ;;
   time_ok <- lift_result (nonblank analysis "timing") ;;
   st <- get_state ;;
   if str_in interest ["dnc"; "no"] then
     log_event "OUTCOME_DNC"
       (PDict [("lead_id", PInt lead_id);
               ("reason", get_or analysis "notes" (PStr ""))]) ;;;
     ret (Some (Dnc dnc_message))
   else if String.eqb interest "later" then
     cb <- on_store (create_callback lead_id
                       (get_or analysis "callback_window" (PStr "next business day"))
                       (get_or analysis "notes" (PStr ""))) ;;
     log_event "OUTCOME_CALLBACK"
       (PDict [("lead_id", PInt lead_id); ("callback_id", PInt (Callback.id cb));
               ("window", Callback.window cb)]) ;;;
     ret (Some (CallbackOutcome (Callback.id cb) (Callback.window cb)
                  callback_message))
   else if str_in interest ["yes"; "maybe"]
           && (price_ok || time_ok || (90 <=? ConversationState.elapsed_sec st))
   then
     on_store (fun d => (tt, mark_qualified lead_id true d)) ;;;
     log_event "OUTCOME_TRANSFER" (PDict [("lead_id", PInt lead_id)]) ;;;
     ret (Some (Transfer transfer_message))
   else if 90 <=? ConversationState.elapsed_sec st then
     log_event "OUTCOME_DNC"
       (PDict [("lead_id", PInt lead_id); ("reason", PStr timeout_reason)]) ;;;
     ret (Some (Dnc timeout_message))
   else ret None)%py.

(** The record substituted when the reply is not a JSON object. *)
Definition unknown_analysis : dict :=
  [("interest", PStr "unknown"); ("price_range", PStr ""); ("timing", PStr "");
   ("condition", PStr ""); ("owner_status", PStr "unknown");
   ("callback_window", PStr ""); ("notes", PStr "")].

(** The [try] block of [ingest_user_text], given what [json.loads] made of
    the stripped reply: the object itself, or [unknown_analysis] when
    [json.loads] raised or gave a value that is not a [dict]. *)
Definition extract_analysis (loaded : result pyval) : dict :=
  match loaded with
  | Ok (PDict d) => d
  | _ => unknown_analysis
  end.

(** [history[-6:]]. *)
Definition last6 (h : list message) : list message :=
  skipn (length h - 6)%nat h.

(** What [ingest_user_text] returns: [{"status": "closed", "outcome": ...}],
    or the dictionary of the turn. *)
Inductive shown_outcome : Type :=
| Continue                    (* [{"type": "continue"}] *)
| Decided (o : outcome).

Inductive reply : Type :=
| ReplyClosed (outcome : option string)
| ReplyTurn (lead : dict) (analysis : dict) (outcome : shown_outcome)
    (elapsed_sec : Z).

(** The reasoning backend as one call sees it: [call_llm_text] given the
    trailing history and the previous response id (the instructions are the
    constant prompt), returning the text and the new response id. *)
Definition backend : Type :=
  list message -> option string -> result (string * option string).

Section TurnBased.

(** [json.loads], Python's own. *)
Variable json_loads : string -> result pyval.

Definition ingest_user_text (call_llm_text : backend) (text : string)
    (approx_seconds : Z) : M world reply :=
  (st0 <- get_state ;;
   if ConversationState.closed st0 then
     ret (ReplyClosed (ConversationState.outcome st0))
   else
     _append_user text ;;;
     set_state (fun st =>
       ConversationState.mk (ConversationState.phone st)
         (ConversationState.call_sid st) (ConversationState.history st)
         (ConversationState.elapsed_sec st + approx_seconds)
         (ConversationState.closed st) (ConversationState.outcome st)
         (ConversationState.last_response_id st)) ;;;
     st1 <- get_state ;;
     r <- lift_result
            (call_llm_text (last6 (ConversationState.history st1))
               (ConversationState.last_response_id st1)) ;;
     let output_text := fst r in
     let resp_id := snd r in
     set_state (fun st =>
       ConversationState.mk (ConversationState.phone st)
         (ConversationState.call_sid st) (ConversationState.history st)
         (ConversationState.elapsed_sec st) (ConversationState.closed st)
         (ConversationState.outcome st) resp_id) ;;;
     log_event "RAW_LLM"
       (PDict [("text", PStr output_text);
               ("response_id",
                match resp_id with Some i => PStr i | None => PNone end)]) ;;;
     let analysis := extract_analysis (json_loads (PyStr.strip output_text)) in
     _update_lead analysis ;;;
     lead_info <- _lead_snapshot ;;
     let lead_id := get lead_info "id" in
     outcome <- match lead_id with
                | PInt i => if truthy lead_id then _decide_and_apply analysis i
                            else ret None
                | _ => ret None
                end ;;
     match outcome with
     | Some o =>
         set_state (fun st =>
           ConversationState.mk (ConversationState.phone st)
             (ConversationState.call_sid st) (ConversationState.history st)
             (ConversationState.elapsed_sec st) true
             (Some (outcome_type o))
             (ConversationState.last_response_id st)) ;;;
         lead_info' <- _lead_snapshot ;;
         st2 <- get_state ;;
         ret (ReplyTurn lead_info' analysis (Decided o)
                (ConversationState.elapsed_sec st2))
     | None =>
         st2 <- get_state ;;
         ret (ReplyTurn lead_info analysis Continue
                (ConversationState.elapsed_sec st2))
     end)%py.

(** One turn of a call as the caller drives it. *)
Record turn : Type := mk_turn {
  turn_backend : backend;
  turn_text : string;
  turn_seconds : Z
}.

(** Successive invocations of [ingest_user_text] on one brain, whatever
    each returns or raises. *)
Fixpoint ingest_all (ts : list turn) (w : world) : list (result reply) * world :=
  match ts with
  | [] => ([], w)
  | t :: r =>
      let (x, w1) := ingest_user_text (turn_backend t) (turn_text t)
                       (turn_seconds t) w in
      let (xs, w2) := ingest_all r w1 in
      (x :: xs, w2)
  end.

End TurnBased.

(* ===================================================================== *)
(** * The streaming bridge ([llm/realtime_openai.py]) *)
(* ===================================================================== *)

(** The frames the bridge sends to the realtime session, by their type:
    session.update (the fixed configuration), input_audio_buffer.create,
    input_audio_buffer.append with the audio, response.create,
    input_audio_buffer.commit. *)
Inductive ai_frame : Type :=
| SessionUpdate
| InputAudioBufferCreate
| InputAudioBufferAppend (audio : pyval)
| ResponseCreate
| InputAudioBufferCommit.

(** What the realtime session has in store for [recv()]: a text frame, given
    as [json.loads] reads it (a value, or the exception it raises), or the
    loss of the connection; each after a silence of [delay_ms]. *)
Inductive arrival : Type :=
| Arrives (delay_ms : Z) (frame : result pyval)
| Breaks (delay_ms : Z).

(** The websocket to the realtime session: what is still to arrive (then
    silence), whether each coming [send] fails (then none does), what was
    sent, and whether [close()] was called. *)
Record socket : Type := mk_socket {
  inbox : list arrival;
  send_faults : list bool;
  sent : list ai_frame;
  is_closed : bool
}.

Module OpenAIRealtimeBridge.
(** [on_transfer] is [do_transfer] of the handler; [on_callback] is never
    called. *)
Record t : Type := mk {
  call_sid : string;
  phone : string;
  ai_ws : option socket;
  qualified : bool
}.

(** [OpenAIRealtimeBridge.__init__]. *)
Definition init (call_sid phone : string) : t := mk call_sid phone None false.
End OpenAIRealtimeBridge.

Module Bridge := OpenAIRealtimeBridge.

(** What a call touches besides its bridge: the database, the connections
    [websockets.connect] will give ([None]: it raises), the calls redirected
    through the telephony API so far and whether each coming redirect
    fails.  [final_drains] is auxiliary: it counts the entries into
    [_drain_ai_events(final=True)] and is read by no code. *)
Record env : Type := mk_env {
  database : db;
  dial : list (option socket);
  redirected : list string;
  redirect_faults : list bool;
  final_drains : nat
}.

Record bridge_world : Type := mk_bw {
  self : Bridge.t;
  outside : env
}.

Definition with_socket (f : socket -> socket) (b : Bridge.t) : Bridge.t :=
  Bridge.mk (Bridge.call_sid b) (Bridge.phone b)
    (option_map f (Bridge.ai_ws b)) (Bridge.qualified b).

Definition set_inbox (q : list arrival) : M bridge_world unit :=
  fun s =>
    (Ok tt,
     mk_bw (with_socket (fun k => mk_socket q (send_faults k) (sent k) (is_closed k))
              (self s)) (outside s)).

Definition set_qualified (q : bool) : M bridge_world unit :=
  fun s =>
    (Ok tt,
     mk_bw (Bridge.mk (Bridge.call_sid (self s)) (Bridge.phone (self s))
              (Bridge.ai_ws (self s)) q) (outside s)).

Definition get_self : M bridge_world Bridge.t := fun s => (Ok (self s), s).

Definition on_db {A} (f : db -> A * db) : M bridge_world A :=
  fun s =>
    let ad := f (database (outside s)) in
    (Ok (fst ad),
     mk_bw (self s)
       (mk_env (snd ad) (dial (outside s)) (redirected (outside s))
          (redirect_faults (outside s)) (final_drains (outside s)))).

(** [save_event(event_type, payload, self.call_sid)]. *)
Definition bridge_event (event_type : string) (payload : pyval)
    : M bridge_world unit :=
  fun s =>
    on_db (fun d => (tt, save_event event_type payload
                           (Bridge.call_sid (self s)) d)) s.

(** [await self.ai_ws.send(...)]. *)
Definition ai_send (f : ai_frame) : M bridge_world unit :=
  fun s =>
    match Bridge.ai_ws (self s) with
    | None => (Raise AttributeError, s)
    | Some k =>
        match send_faults k with
        | true :: rest =>
            (Raise ConnectionClosed,
             mk_bw (with_socket
                      (fun k => mk_socket (inbox k) rest (sent k) (is_closed k))
                      (self s)) (outside s))
        | false :: rest =>
            (Ok tt,
             mk_bw (with_socket
                      (fun k => mk_socket (inbox k) rest (sent k ++ [f])
                                  (is_closed k))
                      (self s)) (outside s))
        | [] =>
            (Ok tt,
             mk_bw (with_socket
                      (fun k => mk_socket (inbox k) [] (sent k ++ [f])
                                  (is_closed k))
                      (self s)) (outside s))
        end
    end.

(** [await self.on_transfer(self.call_sid)]: [do_transfer] of the handler,
    which asks the telephony API to redirect the live call. *)
Definition do_transfer (call_sid_value : string) : M bridge_world unit :=
  fun s =>
    let e := outside s in
    match redirect_faults e with
    | true :: rest =>
        (Raise BackendError,
         mk_bw (self s)
           (mk_env (database e) (dial e) (redirected e) rest (final_drains e)))
    | false :: rest =>
        (Ok tt,
         mk_bw (self s)
           (mk_env (database e) (dial e) (redirected e ++ [call_sid_value]) rest
              (final_drains e)))
    | [] =>
        (Ok tt,
         mk_bw (self s)
           (mk_env (database e) (dial e) (redirected e ++ [call_sid_value]) []
              (final_drains e)))
    end.

(** The receiver of a [.get]: a [dict], or AttributeError. *)
Definition as_dict (v : pyval) : result dict :=
  match v with PDict d => Ok d | _ => Raise AttributeError end.

(** [ev["name"]] on the event object. *)
Definition item (d : dict) (k : string) : result pyval :=
  match lookup k d with Some v => Ok v | None => Raise KeyError end.

(** The branch of [_drain_ai_events] for a response.function_call event. *)
Definition on_function_call (ev : dict) : M bridge_world unit :=
  (fn <- lift_result (item ev "name") ;;
   let args := get_or ev "arguments" (PDict []) in
   bridge_event "AI_TOOL_CALL" (PDict [("name", fn); ("args", args)]) ;;;
   if eq_str fn "lead_detect" then
     a <- lift_result (as_dict args) ;;
     b <- get_self ;;
     on_db (upsert_lead (Bridge.phone b)
              [(Lead.Interest, get_or a "interest" (PStr ""));
               (Lead.Price_range, get_or a "price_range" (PStr ""));
               (Lead.Timing, get_or a "timing" (PStr ""));
               (Lead.Condition, get_or a "condition" (PStr ""));
               (Lead.Owner_status, get_or a "owner_status" (PStr ""))]) ;;;
     (if eq_str (get a "interest") "yes" || eq_str (get a "interest") "maybe"
      then
        set_qualified true ;;;
        lead <- on_db (upsert_lead (Bridge.phone b) []) ;;
        on_db (fun d => (tt, mark_qualified (Lead.id lead) true d))
      else ret tt) ;;;
     if eq_str (get a "interest") "later" && truthy (get a "callback_window")
     then
       lead <- on_db (upsert_lead (Bridge.phone b) []) ;;
       window <- lift_result (item a "callback_window") ;;
       on_db (create_callback (Lead.id lead) window (get_or a "notes" (PStr ""))) ;;;
       bridge_event "OUTCOME_CALLBACK" (PDict [("window", window)])
     else ret tt
   else if eq_str fn "request_transfer" then
     a <- lift_result (as_dict args) ;;
     b <- get_self ;;
     if truthy (get a "consent") && Bridge.qualified b then
       bridge_event "OUTCOME_TRANSFER" (PDict [("consent", PBool true)]) ;;;
       do_transfer (Bridge.call_sid b)
     else ret tt
   else ret tt)%py.

(** The body of the loop of [_drain_ai_events] for one event received;
    [true] when the loop goes on, [false] on [break]. *)
Definition on_ai_event (ev : pyval) : M bridge_world bool :=
  (d <- lift_result (as_dict ev) ;;
   let t := get d "type" in
   if eq_str t "response.output_text.delta" then ret true
   else if eq_str t "response.function_call" then
     on_function_call d ;;; ret true
   else if eq_str t "response.completed" then ret false
   else if eq_str t "response.error" then
     bridge_event "AI_ERROR" (PDict [("error", ev)]) ;;; ret false
   else ret true)%py.

(** The loop of [_drain_ai_events] over what the socket holds: each
    [asyncio.wait_for(self.ai_ws.recv(), timeout)] gives the next frame when
    it arrives within the timeout, and otherwise raises
    [asyncio.TimeoutError], on which the function returns. *)
Fixpoint drain_loop (timeout_ms : Z) (q : list arrival) : M bridge_world unit :=
  match q with
  | [] => ret tt
  | Breaks delay :: r =>
      if delay <? timeout_ms then
        (set_inbox (Breaks 0 :: r) ;;; raise ConnectionClosed)%py
      else set_inbox (Breaks (delay - timeout_ms) :: r)
  | Arrives delay frame :: r =>
      if delay <? timeout_ms then
        (set_inbox r ;;;
         ev <- lift_result frame ;;
         go_on <- on_ai_event ev ;;
         if go_on then drain_loop timeout_ms r else ret tt)%py
      else set_inbox (Arrives (delay - timeout_ms) frame :: r)
  end.

Definition count_final_drain (final : bool) : M bridge_world unit :=
  fun s =>
    let e := outside s in
    (Ok tt,
     mk_bw (self s)
       (mk_env (database e) (dial e) (redirected e) (redirect_faults e)
          (if final then S (final_drains e) else final_drains e))).

(** [_drain_ai_events(final)]: the timeout is 0.5 s when [final], 0.02 s
    otherwise. *)
Definition _drain_ai_events (final : bool) : M bridge_world unit :=
  (count_final_drain final ;;;
   b <- get_self ;;
   match Bridge.ai_ws b with
   | None => raise AttributeError
   | Some k => drain_loop (if final then 500 else 20) (inbox k)
   end)%py.

(** A message of the telephony media stream, as the handler and the bridge
    decode it: the start message with its [start] object (text fields), a
    media message with [media.payload] when it has one, the stop message
    with its [stop] object, any other well-formed message, and a message on
    which [json.loads] or the reading of [event] raises. *)
Inductive twilio_msg : Type :=
| TwStart (start : list (string * string))
| TwMedia (payload : option pyval)
| TwStop (stop : pyval)
| TwOther
| TwBad (e : exn).

Definition text_dict (d : list (string * string)) : pyval :=
  PDict (map (fun kv => (fst kv, PStr (snd kv))) d).

Definition handle_twilio_event (msg : twilio_msg) : M bridge_world unit :=
  match msg with
  | TwBad e => raise e
  | TwStart start =>
      (bridge_event "CALL_START" (PDict [("info", text_dict start)]) ;;;
       ai_send InputAudioBufferCreate)%py
  | TwMedia payload =>
      match payload with
      | None => raise KeyError
      | Some audio =>
          (ai_send (InputAudioBufferAppend audio) ;;;
           ai_send ResponseCreate ;;;
           _drain_ai_events false)%py
      end
  | TwStop stop =>
      (ai_send InputAudioBufferCommit ;;;
       _drain_ai_events true ;;;
       bridge_event "CALL_STOP" (PDict [("info", stop)]))%py
  | TwOther => ret tt
  end.

(** [OpenAIRealtimeBridge.start]: connect, then send the configuration. *)
Definition start : M bridge_world unit :=
  ((fun s =>
      let e := outside s in
      match dial e with
      | Some k :: rest =>
          (Ok tt,
           mk_bw (Bridge.mk (Bridge.call_sid (self s)) (Bridge.phone (self s))
                    (Some k) (Bridge.qualified (self s)))
             (mk_env (database e) rest (redirected e) (redirect_faults e)
                (final_drains e)))
      | None :: rest =>
          (Raise ConnectionClosed,
           mk_bw (self s)
             (mk_env (database e) rest (redirected e) (redirect_faults e)
                (final_drains e)))
      | [] => (Raise ConnectionClosed, s)
      end) ;;;
   ai_send SessionUpdate)%py.

(** [OpenAIRealtimeBridge.close]. *)
Definition close (b : Bridge.t) : Bridge.t :=
  with_socket (fun k => mk_socket (inbox k) (send_faults k) (sent k) true) b.

(* ===================================================================== *)
(** * The media-stream handler ([transport/twilio_quart.py]) *)
(* ===================================================================== *)

(** What [websocket.receive()] gives: a message, [None], or an exception.
    When nothing is left the telephony side has gone and the handler task
    is cancelled. *)
Inductive ws_in : Type :=
| Receives (msg : twilio_msg)
| ReceivesNone
| ReceiveFails (e : exn).

(** The local variables of [media_stream] and what they touch. *)
Record handler : Type := mk_handler {
  call_sid : option string;
  bridge : option Bridge.t;
  world_of : env
}.

(** [d.get(k)] on the text fields of the start object. *)
Fixpoint text_get (k : string) (d : list (string * string)) : option string :=
  match d with
  | [] => None
  | (k', v) :: r => if String.eqb k k' then Some v else text_get k r
  end.

(** [a or b] on optional text. *)
Definition text_or (a b : option string) : option string :=
  match a with
  | Some s => if PyStr.nonempty s then a else b
  | None => b
  end.

(** [x or ""]. *)
Definition or_empty (a : option string) : string :=
  match a with Some s => s | None => "" end.

Definition handler_event (event_type : string) (payload : pyval)
    : M handler unit :=
  fun h =>
    let e := world_of h in
    (Ok tt,
     mk_handler (call_sid h) (bridge h)
       (mk_env (save_event event_type payload (or_empty (call_sid h)) (database e))
          (dial e) (redirected e) (redirect_faults e) (final_drains e))).

(** A method of the bridge, run on the handler's bridge [b]. *)
Definition on_bridge {A} (b : Bridge.t) (m : M bridge_world A) : M handler A :=
  fun h =>
    let (r, s) := m (mk_bw b (world_of h)) in
    (r, mk_handler (call_sid h) (Some (self s)) (outside s)).

(** What stands for [str(e)] in the log.  An exception of the model is its
    class, without the message it was raised with, so the text [str(e)]
    gives is not known to the model: the name of the class stands in its
    place, and no property is stated about the payload of STREAM_ERROR. *)
Definition str_of_exn (e : exn) : string :=
  match e with
  | AttributeError => "AttributeError"
  | KeyError => "KeyError"
  | TypeError => "TypeError"
  | JSONDecodeError => "JSONDecodeError"
  | ConnectionClosed => "ConnectionClosed"
  | BackendError => "BackendError"
  | CancelledError => "CancelledError"
  end.

(** The body of the [try] of [media_stream]. *)
Fixpoint media_loop (incoming : list ws_in) : M handler unit :=
  match incoming with
  | [] => raise CancelledError
  | ReceiveFails e :: _ => raise e
  | ReceivesNone :: _ => ret tt
  | Receives msg :: rest =>
      ((match msg with
        | TwBad e => raise e
        | TwStart start_info =>
            let sid :=
              text_or (text_get "callSid" start_info)
                (text_or (text_get "Callsid" start_info)
                   (text_or (text_get "CALLSID" start_info)
                      (text_get "callSid" start_info))) in
            let phone := match text_get "from" start_info with
                         | Some p => p
                         | None => ""
                         end in
            (fun h => (Ok tt, mk_handler sid (bridge h) (world_of h))) ;;;
            handler_event "STREAM_START" (PDict [("from", PStr phone)]) ;;;
            on_bridge (Bridge.init (or_empty sid) phone) start
        | _ => ret tt
        end) ;;;
       (fun h =>
          match bridge h with
          | Some b => on_bridge b (handle_twilio_event msg) h
          | None => (Ok tt, h)
          end) ;;;
       media_loop rest)%py
  end.

(** [media_stream]: the loop, [except Exception] with its STREAM_ERROR
    event, and [finally] with [bridge.close()] and the STREAM_CLOSED
    event. *)
Definition media_stream (incoming : list ws_in) : M handler unit :=
  fun h =>
    let (r, h1) := media_loop incoming h in
    let (r', h2) :=
      match r with
      | Raise e =>
          if is_Exception e
          then handler_event "STREAM_ERROR"
                 (PDict [("error", PStr (str_of_exn e))]) h1
          else (Raise e, h1)
      | Ok _ => (Ok tt, h1)
      end in
    let h3 := mk_handler (call_sid h2) (option_map close (bridge h2))
                (world_of h2) in
    (r', snd (handler_event "STREAM_CLOSED" (PDict []) h3)).

(** A handler before the first message. *)
Definition new_handler (e : env) : handler := mk_handler None None e.
(* ===================================================================== *)
(** * The reasoning backend of the turn-based path ([llm/openai_client.py]) *)
(* ===================================================================== *)

(** [x in s] on two strings: [x] occurs in [s]. *)
Fixpoint contains (s x : string) : bool :=
  String.prefix x s
  || match s with
     | EmptyString => false
     | String _ r => contains r x
     end.

(** [any(x in s for x in keys)]. *)
Definition any_in (s : string) (keys : list string) : bool :=
  existsb (contains s) keys.

(** The text of a JSON object of text fields written without white space,
    as the literals of [_fallback] are: a brace, the fields as
    quote key quote colon quote value quote, separated by commas, a brace.
    The double quote is the character of code 34. *)
Definition quoted (s : string) : string :=
  (String "034"%char s ++ String "034"%char "")%string.

Definition json_text (fs : list (string * string)) : string :=
  ("{"
   ++ String.concat ","
        (map (fun kv => quoted (fst kv) ++ ":" ++ quoted (snd kv)) fs)
   ++ "}")%string.

(** The four records [_fallback] answers with, field by field in the order
    of the literals. *)
Definition fallback_dnc : list (string * string) :=
  [("interest", "dnc"); ("price_range", ""); ("timing", ""); ("condition", "");
   ("owner_status", "unknown"); ("callback_window", ""); ("notes", "")].

Definition fallback_later : list (string * string) :=
  [("interest", "later"); ("callback_window", "today 4-6pm");
   ("price_range", ""); ("timing", ""); ("condition", "");
   ("owner_status", "unknown"); ("notes", "")].

Definition fallback_maybe : list (string * string) :=
  [("interest", "maybe"); ("price_range", "350-380k");
   ("timing", "30-60 days"); ("condition", "needs paint");
   ("owner_status", "owner"); ("callback_window", ""); ("notes", "")].

Definition fallback_unknown : list (string * string) :=
  [("interest", "unknown"); ("price_range", ""); ("timing", "");
   ("condition", ""); ("owner_status", "unknown"); ("callback_window", "");
   ("notes", "")].

(** [messages[-1]["content"] if messages else ""]. *)
Definition latest_content (messages : list message) : string :=
  match messages with
  | [] => ""
  | m :: r => content (last r m)
  end.

(** [_fallback(messages)]: the keyword rules used when no API key is set. *)
Definition _fallback (messages : list message) : string :=
  let latest := PyStr.lower (latest_content messages) in
  if any_in latest ["remove"; "do not call"; "not selling"; "stop calling"]
  then json_text fallback_dnc
  else if any_in latest ["later"; "busy"; "another time"; "tomorrow"]
  then json_text fallback_later
  else if any_in latest ["yes"; "maybe"; "might sell"; "consider"]
  then json_text fallback_maybe
  else json_text fallback_unknown.

(** [_client.responses.create] of a configured client, as one call sees it:
    given the input messages and the previous response id when one is
    passed, it raises or gives a response with its [output_text] ([None]
    when there is none) and its [id]. *)
Definition responses_create : Type :=
  list message -> option string -> result (option string * string).

(** [call_llm_text] with the module's [_client] ([None] without an API
    key).  A falsy previous response id is not passed on;
    [resp.output_text or ""] is returned with [resp.id]. *)
Definition call_llm_text (_client : option responses_create) : backend :=
  fun messages previous_response_id =>
    match _client with
    | None => Ok (_fallback messages, None)
    | Some create =>
        let passed :=
          match previous_response_id with
          | Some i => if PyStr.nonempty i then Some i else None
          | None => None
          end in
        match create messages passed with
        | Ok (output_text, id) =>
            Ok (or_empty output_text, Some id)
        | Raise e => Raise e
        end
    end.

(* ===================================================================== *)
(** * The simulated call ([transport/twilio_placeholder.py]) *)
(* ===================================================================== *)

(** [s[-n:]] for [n > 0]: the last [n] characters, all of [s] when it is
    shorter. *)
Definition last_chars (n : nat) (s : string) : string :=
  String.substring (String.length s - n) n s.

Section Simulation.

Variable json_loads : string -> result pyval.

(** The loop of [simulate_conversation] over the utterances, each with the
    backend as it answers during that turn.  The test
    [res.get("outcome", {}).get("type") in ("dnc", "callback", "transfer")]
    holds for a decided outcome, fails for continue, and raises
    AttributeError on the closed reply, whose outcome is a string or
    [None]. *)
Fixpoint simulate_loop (utterances : list (backend * string))
    (seconds_per_turn : Z) (results : list reply) : M world (list reply) :=
  match utterances with
  | [] => ret results
  | (call_llm, text) :: rest =>
      (res <- ingest_user_text json_loads call_llm text seconds_per_turn ;;
       let results' := results ++ [res] in
       match res with
       | ReplyClosed _ => raise AttributeError
       | ReplyTurn _ _ (Decided o) _ =>
           if str_in (outcome_type o) ["dnc"; "callback"; "transfer"]
           then ret results'
           else simulate_loop rest seconds_per_turn results'
       | ReplyTurn _ _ Continue _ =>
           simulate_loop rest seconds_per_turn results'
       end)%py
  end.

Definition simulate_conversation (phone : string)
    (utterances : list (backend * string)) (seconds_per_turn : Z) (d : db)
    : result (list reply) * world :=
  simulate_loop utterances seconds_per_turn []
    (VanessaBrain phone ("SIM-" ++ last_chars 4 phone)%string d).

End Simulation.

(* ===================================================================== *)
(** * The keypad and speech handlers of the IVR ([asgi.py]) *)
(* ===================================================================== *)

(** The documents [twilio_qualify] answers with, by what they make the
    telephony service do: say goodbye and hang up, promise the call back
    and hang up, ask for the price range (posting to the first follow-up),
    or ask the question once more. *)
Inductive qualify_reply : Type :=
| SayRemoved
| SayCallBack
| AskPrice
| AskAgain.

(** [twilio_qualify(CallSid, From, SpeechResult, Digits)]; the form fields
    are text, empty when absent. *)
Definition twilio_qualify (CallSid From SpeechResult Digits : string) (d : db)
    : qualify_reply * db :=
  let text := PyStr.strip (PyStr.lower SpeechResult) in
  let dg := PyStr.strip Digits in
  let text := if String.eqb dg "1" then "yes"
              else if String.eqb dg "2" then "later"
              else if String.eqb dg "3" then "no"
              else text in
  if any_in text ["no"; "not interested"; "remove"; "do not call"; "stop";
                  "wrong number"]
  then (SayRemoved,
        save_event "INTENT_DNC"
          (PDict [("from", PStr From); ("speech", PStr text)]) CallSid d)
  else if any_in text ["later"; "busy"; "another time"; "call back"; "tomorrow"]
  then (SayCallBack,
        save_event "INTENT_LATER"
          (PDict [("from", PStr From); ("speech", PStr text);
                  ("window", PStr "today 4 to 6 PM")]) CallSid d)
  else if any_in text ["yes"; "maybe"; "thinking"; "depends"; "sure"]
  then (AskPrice,
        save_event "INTENT_QUALIFIED"
          (PDict [("from", PStr From); ("speech", PStr text)]) CallSid d)
  else (AskAgain, d).

(* ===================================================================== *)
(** * Notions used by the statements *)
(* ===================================================================== *)

(** What no keyword field touches: key, phone, flag and creation time. *)
Definition same_identity (a b : Lead.t) : Prop :=
  Lead.id a = Lead.id b /\ Lead.phone a = Lead.phone b
  /\ Lead.qualified a = Lead.qualified b
  /\ Lead.created_at a = Lead.created_at b.

(** [v or ""] is text: [v] is a string, or is falsy ([None], a missing
    field, an empty or zero value). *)
Definition text_or_falsy (v : pyval) : Prop :=
  exists s, py_or v (PStr "") = PStr s.

(** A field record the decision step can read: the three fields it reads as
    text are text or falsy. *)
Definition well_formed (analysis : dict) : Prop :=
  text_or_falsy (get analysis "interest")
  /\ text_or_falsy (get analysis "price_range")
  /\ text_or_falsy (get analysis "timing").

(** The fields of a record that reach a text column of the leads table, or
    of the callbacks table, are text or [None] (a field that is missing
    reads as [None]). *)
Definition lead_fields_text (a : dict) : Prop :=
  Forall (fun k => text_or_none (get a k) = true)
    ["interest"; "price_range"; "timing"; "condition"; "owner_status"].

Definition callback_fields_text (a : dict) : Prop :=
  text_or_none (get a "callback_window") = true
  /\ text_or_none (get a "notes") = true.

(** A record of text fields: the seven named fields are text or [None].
    This is the record the backend is asked for; the decision step can
    read it and the store holds its fields as they are. *)
Definition text_record (a : dict) : Prop :=
  lead_fields_text a /\ callback_fields_text a.

(** The audit events that record an outcome. *)
Definition is_outcome_event (e : CallEvent.t) : bool :=
  str_in (CallEvent.event_type e)
    ["OUTCOME_DNC"; "OUTCOME_CALLBACK"; "OUTCOME_TRANSFER"].

Definition outcome_events (es : list CallEvent.t) : list CallEvent.t :=
  filter is_outcome_event es.

(** The event of the timeout exit. *)
Definition is_timeout_event (lead_id : Z) (e : CallEvent.t) : Prop :=
  CallEvent.event_type e = "OUTCOME_DNC"
  /\ CallEvent.payload e
     = PDict [("lead_id", PInt lead_id); ("reason", PStr timeout_reason)].

(** No branch of the decision step on stated interest applies: the
    normalised interest is none of dnc, no, later, and it is not yes or
    maybe together with a price, a timing or an expired timebox. *)
Definition no_branch (analysis : dict) (elapsed : Z) : Prop :=
  exists i pr tm,
    norm_interest analysis = Ok i
    /\ nonblank analysis "price_range" = Ok pr
    /\ nonblank analysis "timing" = Ok tm
    /\ str_in i ["dnc"; "no"] = false
    /\ String.eqb i "later" = false
    /\ (str_in i ["yes"; "maybe"] && (pr || tm || (90 <=? elapsed))) = false.

(** A reply of [ingest_user_text] that carries no decided outcome. *)
Definition no_decision (r : result reply) : Prop :=
  forall l a o e, r <> Ok (ReplyTurn l a (Decided o) e).

(** Sample data for the concrete instances. *)
Definition sample_lead : Lead.t :=
  Lead.mk 1 "+15550100" (PStr "") (PStr "") (PStr "maybe") (PStr "350-380k")
    (PStr "") (PStr "") (PStr "owner") false 0 0.

Definition sample_db : db := mk_db [sample_lead] [] [] (fun _ => 0) 0.

(** A brain in mid-call on [sample_db], [elapsed] seconds in. *)
Definition sample_world (elapsed : Z) : world :=
  mk_world
    (ConversationState.mk "+15550100" "SIM-0100" [] elapsed false None None)
    sample_db.

(** A brain whose call has ended with a transfer. *)
Definition closed_world : world :=
  mk_world
    (ConversationState.mk "+15550100" "SIM-0100"
       [mk_message "user" "maybe"] 8 true (Some "transfer") None)
    sample_db.

(** A backend that answers with text that is not JSON, and a [json.loads]
    for it. *)
Definition mumbling_backend : backend := fun _ _ => Ok ("hmm", None).
Definition loads_nothing : string -> result pyval := fun _ => Raise JSONDecodeError.

(** Events other than the teardown's. *)
Definition not_closed_event (e : CallEvent.t) : Prop :=
  CallEvent.event_type e <> "STREAM_CLOSED".

(** [d'] holds the events of [d] followed by events that satisfy [P]. *)
Definition appends (P : CallEvent.t -> Prop) (d d' : db) : Prop :=
  exists new, events d' = events d ++ new /\ Forall P new.

(** The arguments of a lead_detect tool call, when the event is one the
    bridge reads as such. *)
Definition lead_detect_args (ev : pyval) : option dict :=
  match ev with
  | PDict d =>
      if eq_str (get d "type") "response.function_call" then
        match lookup "name" d with
        | Some fn =>
            if eq_str fn "lead_detect" then
              match get_or d "arguments" (PDict []) with
              | PDict a => Some a
              | _ => None
              end
            else None
        | None => None
        end
      else None
  | _ => None
  end.

(** A lead_detect call that reports interest yes or maybe. *)
Definition qualifying_call (ev : pyval) : bool :=
  match lead_detect_args ev with
  | Some a => eq_str (get a "interest") "yes" || eq_str (get a "interest") "maybe"
  | None => false
  end.

(** A lead_detect call that reports interest later with a callback window. *)
Definition callback_call (ev : pyval) : bool :=
  match lead_detect_args ev with
  | Some a => eq_str (get a "interest") "later" && truthy (get a "callback_window")
  | None => false
  end.

(** The events a socket still holds. *)
Fixpoint frames_of (q : list arrival) : list pyval :=
  match q with
  | [] => []
  | Arrives _ (Ok ev) :: r => ev :: frames_of r
  | _ :: r => frames_of r
  end.

Definition socket_frames (k : option socket) : list pyval :=
  match k with Some k => frames_of (inbox k) | None => [] end.

(** Every event the realtime session can deliver in this call: those of
    the bridge's socket and of the connections still to be made. *)
Definition call_frames (b : option Bridge.t) (e : env) : list pyval :=
  match b with Some b => socket_frames (Bridge.ai_ws b) | None => [] end
  ++ flat_map socket_frames (dial e).

(** The bridge, if there is one, has not set its qualified flag. *)
Definition unqualified (b : option Bridge.t) : Prop :=
  match b with Some b => Bridge.qualified b = false | None => True end.

(** What running part of a call, from bridge [b] and surroundings [e] to
    [b'] and [e'], may do: the events still to be delivered only shrink;
    the audit log only grows, by events other than STREAM_CLOSED; when no
    deliverable event is a qualifying lead_detect call, an unqualified
    bridge stays unqualified and no call is redirected; when none is a
    lead_detect call for a callback, no Callback row is written. *)
Definition step_ok (b : option Bridge.t) (e : env) (b' : option Bridge.t)
    (e' : env) : Prop :=
  incl (call_frames b' e') (call_frames b e)
  /\ appends not_closed_event (database e) (database e')
  /\ (Forall (fun ev => qualifying_call ev = false) (call_frames b e) ->
      unqualified b ->
      unqualified b' /\ redirected e' = redirected e)
  /\ (Forall (fun ev => callback_call ev = false) (call_frames b e) ->
      callbacks (database e') = callbacks (database e)).

(** What handling one event [ev] does to the bridge and its surroundings. *)
Definition frame_rel (ev : pyval) (s s' : bridge_world) : Prop :=
  Bridge.ai_ws (self s') = Bridge.ai_ws (self s)
  /\ dial (outside s') = dial (outside s)
  /\ final_drains (outside s') = final_drains (outside s)
  /\ appends not_closed_event (database (outside s)) (database (outside s'))
  /\ (qualifying_call ev = false ->
      Bridge.qualified (self s') = Bridge.qualified (self s))
  /\ (qualifying_call ev = false -> Bridge.qualified (self s) = false ->
      redirected (outside s') = redirected (outside s))
  /\ (callback_call ev = false ->
      callbacks (database (outside s')) = callbacks (database (outside s))).

(** A method of the bridge, or a part of the handler, that respects
    [step_ok] from every state. *)
Definition bridge_ok {A} (m : M bridge_world A) : Prop :=
  forall s, step_ok (Some (self s)) (outside s)
              (Some (self (snd (m s)))) (outside (snd (m s))).

Definition handler_ok {A} (m : M handler A) : Prop :=
  forall h, step_ok (bridge h) (world_of h)
              (bridge (snd (m h))) (world_of (snd (m h))).

(** Sample events of the realtime session and a sample start message. *)
Definition lead_detect_frame (args : dict) : pyval :=
  PDict [("type", PStr "response.function_call"); ("name", PStr "lead_detect");
         ("arguments", PDict args)].

Definition request_transfer_frame (consent : bool) : pyval :=
  PDict [("type", PStr "response.function_call");
         ("name", PStr "request_transfer");
         ("arguments", PDict [("consent", PBool consent)])].

Definition start_msg : twilio_msg :=
  TwStart [("callSid", "CA100"); ("from", "+15550100")].

(** A session that holds a lead_detect call and whose third [send] (the
    commit of the stop message, after the configuration and the buffer
    creation) fails. *)
Definition failing_commit_env : env :=
  mk_env sample_db
    [Some (mk_socket [Arrives 0 (Ok (lead_detect_frame [("interest", PStr "yes")]))]
             [false; false; true] [] false)]
    [] [] 0.

(** A session that reports interest, then a wish to be called back, then
    asks for the transfer. *)
Definition both_env : env :=
  mk_env sample_db
    [Some (mk_socket
             [Arrives 0 (Ok (lead_detect_frame [("interest", PStr "yes")]));
              Arrives 0 (Ok (lead_detect_frame
                               [("interest", PStr "later");
                                ("callback_window", PStr "tomorrow 9am")]));
              Arrives 0 (Ok (request_transfer_frame true))]
             [] [] false)]
    [] [] 0.

(** A session that reports a wish to be called back and then asks for the
    transfer, without ever reporting interest. *)
Definition callback_only_env : env :=
  mk_env sample_db
    [Some (mk_socket
             [Arrives 0 (Ok (lead_detect_frame
                               [("interest", PStr "later");
                                ("callback_window", PStr "tomorrow 9am")]));
              Arrives 0 (Ok (request_transfer_frame true))]
             [] [] false)]
    [] [] 0.

(** A bridge in mid-call whose socket is silent and sound. *)
Definition sample_bridge_world : bridge_world :=
  mk_bw (Bridge.mk "CA100" "+15550100" (Some (mk_socket [] [] [] false)) false)
    (mk_env sample_db [] [] [] 0).
(* ===================================================================== *)
(** * Notions used by the further properties *)
(* ===================================================================== *)

(** Keys as the database hands them out: distinct and positive. *)
Definition keys_ok (ids : list Z) : Prop :=
  NoDup ids /\ Forall (fun i => 0 < i) ids.

(** A database whose tables are keyed as the schema says: distinct positive
    primary keys in the three tables, and at most one lead per phone. *)
Definition db_ok (d : db) : Prop :=
  keys_ok (map Lead.id (leads d))
  /\ NoDup (map Lead.phone (leads d))
  /\ keys_ok (map Callback.id (callbacks d))
  /\ keys_ok (map CallEvent.id (events d)).

(** A property of the database that the four writing operations of the
    store keep. *)
Definition store_closed (I : db -> Prop) : Prop :=
  (forall t p c d, I d -> I (save_event t p c d))
  /\ (forall p fs d, I d -> I (snd (upsert_lead p fs d)))
  /\ (forall i q d, I d -> I (mark_qualified i q d))
  /\ (forall i w n d, I d -> I (snd (create_callback i w n d))).

(** A computation that keeps a property of the database it sees through
    [view], whether it returns or raises. *)
Definition keeps {S A : Type} (view : S -> db) (I : db -> Prop) (m : M S A)
    : Prop :=
  forall s, I (view s) -> I (view (snd (m s))).

Definition bridge_db (s : bridge_world) : db := database (outside s).
Definition handler_db (h : handler) : db := database (world_of h).

(** The dictionary [_lead_snapshot] makes of a row, and the snapshot of a
    phone. *)
Definition lead_dict (lead : Lead.t) : dict :=
  [("id", PInt (Lead.id lead)); ("phone", PStr (Lead.phone lead));
   ("interest", Lead.interest lead);
   ("price_range", Lead.price_range lead);
   ("timing", Lead.timing lead);
   ("condition", Lead.condition lead);
   ("owner_status", Lead.owner_status lead);
   ("qualified", PBool (Lead.qualified lead))].

Definition snapshot (p : string) (d : db) : dict :=
  match find_lead_by_phone p d with
  | None => []
  | Some lead => lead_dict lead
  end.

(** The conversation state once an utterance of [secs] seconds is heard,
    once the backend has answered with response id [rid], and once an
    outcome has closed the call. *)
Definition heard (text : string) (secs : Z) (st : ConversationState.t)
    : ConversationState.t :=
  ConversationState.mk (ConversationState.phone st)
    (ConversationState.call_sid st)
    (ConversationState.history st ++ [mk_message "user" text])
    (ConversationState.elapsed_sec st + secs) (ConversationState.closed st)
    (ConversationState.outcome st) (ConversationState.last_response_id st).

Definition answered (rid : option string) (st : ConversationState.t)
    : ConversationState.t :=
  ConversationState.mk (ConversationState.phone st)
    (ConversationState.call_sid st) (ConversationState.history st)
    (ConversationState.elapsed_sec st) (ConversationState.closed st)
    (ConversationState.outcome st) rid.

Definition closed_with (o : outcome) (st : ConversationState.t)
    : ConversationState.t :=
  ConversationState.mk (ConversationState.phone st)
    (ConversationState.call_sid st) (ConversationState.history st)
    (ConversationState.elapsed_sec st) true (Some (outcome_type o))
    (ConversationState.last_response_id st).

(** The TURN and RAW_LLM events of a turn. *)
Definition turn_payload (text : string) (elapsed : Z) : pyval :=
  PDict [("from", PStr "user"); ("text", PStr text); ("elapsed", PInt elapsed)].

Definition raw_payload (output_text : string) (rid : option string) : pyval :=
  PDict [("text", PStr output_text);
         ("response_id", match rid with Some i => PStr i | None => PNone end)].

(** The keyword fields [_update_lead] passes to [upsert_lead]. *)
Definition analysis_fields (a : dict) : fields :=
  [(Lead.Interest, get_or a "interest" (PStr ""));
   (Lead.Price_range, get_or a "price_range" (PStr ""));
   (Lead.Timing, get_or a "timing" (PStr ""));
   (Lead.Condition, get_or a "condition" (PStr ""));
   (Lead.Owner_status, get_or a "owner_status" (PStr ""))].

(** The database once the turn's two events are logged and the lead is
    updated from the record [a]. *)
Definition turn_store (text output_text : string) (rid : option string)
    (a : dict) (w : world) : db :=
  let sid := ConversationState.call_sid (state w) in
  snd (upsert_lead (ConversationState.phone (state w)) (analysis_fields a)
         (save_event "RAW_LLM" (raw_payload output_text rid) sid
            (save_event "TURN"
               (turn_payload text (ConversationState.elapsed_sec (state w)))
               sid (store w)))).

(** The phone of the brain has a row whose key the orchestrator accepts
    (a key that is not zero). *)
Definition lead_known (w : world) : Prop :=
  exists lead,
    find_lead_by_phone (ConversationState.phone (state w)) (store w) = Some lead
    /\ Lead.id lead <> 0.

(** A reply that carries a decided outcome. *)
Definition is_decided (r : reply) : bool :=
  match r with
  | ReplyTurn _ _ (Decided _) _ => true
  | _ => false
  end.

(** A reply of a turn that goes on. *)
Definition is_continue (r : reply) : bool :=
  match r with
  | ReplyTurn _ _ Continue _ => true
  | _ => false
  end.

(** [json.loads] reads the four literals of [_fallback] as the objects
    they denote. *)
Definition reads_fallback (json_loads : string -> result pyval) : Prop :=
  forall fs,
    In fs [fallback_dnc; fallback_later; fallback_maybe; fallback_unknown] ->
    json_loads (json_text fs) = Ok (text_dict fs).

(** A [json.loads] that reads those four texts and nothing else. *)
Definition loads_fallback (s : string) : result pyval :=
  if String.eqb s (json_text fallback_dnc) then Ok (text_dict fallback_dnc)
  else if String.eqb s (json_text fallback_later) then Ok (text_dict fallback_later)
  else if String.eqb s (json_text fallback_maybe) then Ok (text_dict fallback_maybe)
  else if String.eqb s (json_text fallback_unknown)
  then Ok (text_dict fallback_unknown)
  else Raise JSONDecodeError.

(** The key of the row a phone finds. *)
Definition lead_key (p : string) (d : db) : option Z :=
  option_map Lead.id (find_lead_by_phone p d).

(** A backend that answers every request with a record of text fields (see
    [text_record] above): one the decision step can read and the store
    holds as it is. *)
Definition answers_readably (json_loads : string -> result pyval)
    (be : backend) : Prop :=
  forall ms prev,
    exists txt rid,
      be ms prev = Ok (txt, rid)
      /\ text_record (extract_analysis (json_loads (PyStr.strip txt))).

(** The arguments of a request_transfer tool call, when the event is one
    the bridge reads as such. *)
Definition request_transfer_args (ev : pyval) : option dict :=
  match ev with
  | PDict d =>
      if eq_str (get d "type") "response.function_call" then
        match lookup "name" d with
        | Some fn =>
            if eq_str fn "request_transfer" then
              match get_or d "arguments" (PDict []) with
              | PDict a => Some a
              | _ => None
              end
            else None
        | None => None
        end
      else None
  | _ => None
  end.

(** An event of the given type. *)
Definition has_type (ev : pyval) (t : string) : Prop :=
  exists d, ev = PDict d /\ get d "type" = PStr t.

(** The bridge [b] with the inbox of its socket replaced. *)
Definition with_inbox (q : list arrival) (b : Bridge.t) : Bridge.t :=
  with_socket (fun k => mk_socket q (send_faults k) (sent k) (is_closed k)) b.

(** The surroundings with one more entry into the final drain counted. *)
Definition counted (final : bool) (e : env) : env :=
  mk_env (database e) (dial e) (redirected e) (redirect_faults e)
    (if final then S (final_drains e) else final_drains e).

(** The timeout of a drain, in milliseconds. *)
Definition drain_timeout (final : bool) : Z := if final then 500 else 20.

(** A message of the media stream other than the start message. *)
Definition not_start (x : ws_in) : Prop :=
  match x with
  | Receives (TwStart _) => False
  | _ => True
  end.

(** The events the handler itself writes when it ends. *)
Definition is_teardown_event (ev : CallEvent.t) : Prop :=
  (CallEvent.event_type ev = "STREAM_ERROR"
   \/ CallEvent.event_type ev = "STREAM_CLOSED")
  /\ CallEvent.call_sid ev = "".

(** The database [d'] holds everything [d] held: the audit events and the
    callbacks of [d] in place, followed by new ones, at least as many
    leads, and for every phone that had a row a row with the same key. *)
Definition grows_from (d d' : db) : Prop :=
  (exists new, events d' = events d ++ new)
  /\ (exists new, callbacks d' = callbacks d ++ new)
  /\ (length (leads d) <= length (leads d'))%nat
  /\ (forall p i, lead_key p d = Some i -> lead_key p d' = Some i).

(* ===================================================================== *)
(** * Text: sample values *)
(* ===================================================================== *)

Example strip_lower_sample :
  PyStr.strip (PyStr.lower "  Not Now ") = "not now"
  /\ PyStr.strip "   " = ""
  /\ PyStr.strip (String (ascii_of_nat 9) (String (ascii_of_nat 160) "dnc")) = "dnc"
  /\ PyStr.lower (String (ascii_of_nat 201) "T") = String (ascii_of_nat 233) "t"
  /\ PyStr.lower (String (ascii_of_nat 215) "") = String (ascii_of_nat 215) "".
Proof. repeat split. Qed.

(* ===================================================================== *)
(** * Properties of the lead store *)
(* ===================================================================== *)

Section StoreFacts.

Lemma getattr_setattr_same (c : Lead.column) (v : pyval) (l : Lead.t) :
  Lead.getattr c (Lead.setattr c v l) = v.
Proof. destruct c; reflexivity. Qed.

Lemma getattr_setattr_other (c c' : Lead.column) (v : pyval) (l : Lead.t) :
  c <> c' -> Lead.getattr c (Lead.setattr c' v l) = Lead.getattr c l.
Proof. destruct c, c'; intro H; try reflexivity; contradiction H; reflexivity. Qed.

Lemma setattr_identity (c : Lead.column) (v : pyval) (l : Lead.t) :
  same_identity (Lead.setattr c v l) l.
Proof. destruct c; repeat split. Qed.

Lemma merge_fields_identity (fs : fields) :
  forall l, same_identity (merge_fields fs l) l.
Proof.
  unfold merge_fields.
  induction fs as [|[c v] r IH]; intro l; simpl.
  - repeat split.
  - destruct (is_none_or_empty v).
    + apply IH.
    + destruct (IH (Lead.setattr c v l)) as (H1 & H2 & H3 & H4).
      destruct (setattr_identity c v l) as (K1 & K2 & K3 & K4).
      repeat split; congruence.
Qed.

Lemma merge_fields_untouched (c : Lead.column) (fs : fields) :
  forall l, ~ In c (map fst fs) ->
            Lead.getattr c (merge_fields fs l) = Lead.getattr c l.
Proof.
  unfold merge_fields.
  induction fs as [|[c0 v0] r IH]; intros l Hnot; simpl.
  - reflexivity.
  - simpl in Hnot.
    assert (Hc : c <> c0) by (intro E; apply Hnot; left; symmetry; exact E).
    assert (Hr : ~ In c (map fst r)) by (intro E; apply Hnot; right; exact E).
    destruct (is_none_or_empty v0).
    + apply IH, Hr.
    + rewrite (IH _ Hr). apply getattr_setattr_other, Hc.
Qed.

Lemma merge_fields_given (c : Lead.column) (v : pyval) (fs : fields) :
  forall l, NoDup (map fst fs) -> In (c, v) fs ->
            Lead.getattr c (merge_fields fs l)
            = if is_none_or_empty v then Lead.getattr c l else v.
Proof.
  induction fs as [|[c0 v0] r IH]; intros l Hnd Hin.
  - destruct Hin.
  - simpl in Hnd. inversion Hnd as [|x xs Hfresh Hnd']; subst.
    destruct Hin as [E | Hin].
    + inversion E; subst c0 v0.
      change (merge_fields ((c, v) :: r) l)
        with (merge_fields r (if is_none_or_empty v then l
                              else Lead.setattr c v l)).
      rewrite (merge_fields_untouched c r _ Hfresh).
      destruct (is_none_or_empty v);
        [reflexivity | apply getattr_setattr_same].
    + change (merge_fields ((c0, v0) :: r) l)
        with (merge_fields r (if is_none_or_empty v0 then l
                              else Lead.setattr c0 v0 l)).
      rewrite (IH _ Hnd' Hin).
      assert (Hc : c <> c0).
      { intro E; subst c0. apply Hfresh.
        change c with (fst (c, v)). apply in_map, Hin. }
      destruct (is_none_or_empty v); [|reflexivity].
      destruct (is_none_or_empty v0);
        [reflexivity | apply getattr_setattr_other, Hc].
Qed.

Lemma find_write_first (sel : Lead.t -> bool) (new : Lead.t) (ls : list Lead.t) :
  sel new = true -> find sel ls <> None ->
  find sel (write_first sel new ls) = Some new.
Proof.
  intros Hnew. induction ls as [|l r IH]; simpl; intro Hfound.
  - contradiction Hfound; reflexivity.
  - destruct (sel l) eqn:E; simpl.
    + rewrite Hnew. reflexivity.
    + rewrite E. apply IH, Hfound.
Qed.

Lemma length_write_first (sel : Lead.t -> bool) (new : Lead.t) (ls : list Lead.t) :
  length (write_first sel new ls) = length ls.
Proof.
  induction ls as [|l r IH]; simpl; [reflexivity|].
  destruct (sel l); simpl; [reflexivity | f_equal; exact IH].
Qed.

(** [upsert_lead] on a phone the table already holds. *)
Lemma upsert_lead_existing (p : string) (fs : fields) (d : db) (old : Lead.t) :
  find_lead_by_phone p d = Some old ->
  upsert_lead p fs d
  = (Lead.set_updated_at (wall d (reads d)) (merge_fields fs old),
     mk_db
       (write_first (fun l => String.eqb (Lead.phone l) p)
          (Lead.set_updated_at (wall d (reads d)) (merge_fields fs old))
          (leads d))
       (callbacks d) (events d) (wall d) (S (reads d))).
Proof.
  unfold find_lead_by_phone, upsert_lead. intro H. rewrite H. reflexivity.
Qed.

Lemma getattr_set_updated_at (c : Lead.column) (ts : Z) (l : Lead.t) :
  Lead.getattr c (Lead.set_updated_at ts l) = Lead.getattr c l.
Proof. destruct c; reflexivity. Qed.

End StoreFacts.

(** C3 (merge-on-write).  When [upsert_lead] is called for a phone that
    already has a row, with keyword fields of distinct names whose values
    are text or [None], the values a field of a lead takes: the row it
    returns is the row stored for that phone afterwards; every field passed
    as [None] or as the empty string keeps the value stored before, every
    field passed with another text holds that text, and a field not
    passed keeps its value; no row is added.  In particular a stored
    price_range "350-380k" survives an upsert with price_range "" and
    becomes "400k" by an upsert with "400k". *)
Theorem upsert_lead_merge_on_write :
  forall (d : db) (p : string) (fs : fields) (old : Lead.t),
    find_lead_by_phone p d = Some old ->
    NoDup (map fst fs) ->
    Forall (fun kv => text_or_none (snd kv) = true) fs ->
    let lead := fst (upsert_lead p fs d) in
    let d' := snd (upsert_lead p fs d) in
    find_lead_by_phone p d' = Some lead
    /\ (forall c v, In (c, v) fs ->
          Lead.getattr c lead
          = if is_none_or_empty v then Lead.getattr c old else v)
    /\ (forall c, ~ In c (map fst fs) -> Lead.getattr c lead = Lead.getattr c old)
    /\ Lead.id lead = Lead.id old
    /\ length (leads d') = length (leads d)
    /\ (Lead.price_range old = PStr "350-380k" ->
        Lead.price_range (fst (upsert_lead p [(Lead.Price_range, PStr "")] d))
        = PStr "350-380k"
        /\ Lead.price_range
             (fst (upsert_lead p [(Lead.Price_range, PStr "400k")] d))
           = PStr "400k").
Proof.
  intros d p fs old Hold Hnd _ lead d'.
  assert (Hsel : String.eqb (Lead.phone old) p = true).
  { unfold find_lead_by_phone, first_by_phone in Hold.
    apply find_some in Hold. exact (proj2 Hold). }
  subst lead d'. rewrite (upsert_lead_existing p fs d old Hold). simpl.
  destruct (merge_fields_identity fs old) as (Hid & Hph & _ & _).
  repeat split.
  - unfold find_lead_by_phone, first_by_phone; simpl.
    apply find_write_first.
    + simpl. rewrite Hph. exact Hsel.
    + unfold find_lead_by_phone, first_by_phone in Hold. rewrite Hold. discriminate.
  - intros c v Hin. rewrite getattr_set_updated_at.
    apply merge_fields_given; assumption.
  - intros c Hnot. rewrite getattr_set_updated_at.
    apply merge_fields_untouched; assumption.
  - exact Hid.
  - apply length_write_first.
  - rewrite (upsert_lead_existing p _ d old Hold). simpl. exact H.
  - rewrite (upsert_lead_existing p _ d old Hold). reflexivity.
Qed.

Lemma upsert_lead_merge_on_write_witness :
  find_lead_by_phone "+15550100" sample_db = Some sample_lead
  /\ NoDup (map fst [(Lead.Price_range, PStr ""); (Lead.Timing, PStr "30 days")])
  /\ Forall (fun kv => text_or_none (snd kv) = true)
       [(Lead.Price_range, PStr ""); (Lead.Timing, PStr "30 days")]
  /\ Lead.price_range
       (fst (upsert_lead "+15550100"
               [(Lead.Price_range, PStr ""); (Lead.Timing, PStr "30 days")]
               sample_db))
     = PStr "350-380k".
Proof.
  assert (Hnd : NoDup (map fst [(Lead.Price_range, PStr "");
                                (Lead.Timing, PStr "30 days")])).
  { simpl. constructor.
    - simpl. intros [E | []]. discriminate E.
    - constructor; [intros [] | constructor]. }
  assert (Htx : Forall (fun kv => text_or_none (snd kv) = true)
                  [(Lead.Price_range, PStr ""); (Lead.Timing, PStr "30 days")]).
  { repeat constructor. }
  split; [reflexivity | split; [exact Hnd | split; [exact Htx |]]].
  exact (proj1 (proj2 (upsert_lead_merge_on_write sample_db "+15550100" _
                         sample_lead eq_refl Hnd Htx))
           Lead.Price_range (PStr "") (or_introl eq_refl)).
Defined.

(* ===================================================================== *)
(** * Properties of the decision step *)
(* ===================================================================== *)

Section DecideFacts.

Lemma events_save_event (t : string) (p : pyval) (c : string) (d : db) :
  events (save_event t p c d)
  = events d
    ++ [CallEvent.mk (next_id (map CallEvent.id (events d))) c t p
          (wall d (reads d))].
Proof. reflexivity. Qed.

Lemma callbacks_save_event t p c d : callbacks (save_event t p c d) = callbacks d.
Proof. reflexivity. Qed.

Lemma events_mark_qualified i q d : events (mark_qualified i q d) = events d.
Proof. unfold mark_qualified. destruct (get_lead i d); reflexivity. Qed.

Lemma callbacks_mark_qualified i q d :
  callbacks (mark_qualified i q d) = callbacks d.
Proof. unfold mark_qualified. destruct (get_lead i d); reflexivity. Qed.

Lemma events_upsert_lead p fs d : events (snd (upsert_lead p fs d)) = events d.
Proof.
  unfold upsert_lead. destruct (first_by_phone p (leads d)); reflexivity.
Qed.

Lemma callbacks_upsert_lead p fs d :
  callbacks (snd (upsert_lead p fs d)) = callbacks d.
Proof.
  unfold upsert_lead. destruct (first_by_phone p (leads d)); reflexivity.
Qed.

(** The decision step written out, for a record whose three fields read. *)
Lemma decide_readable (a : dict) (lead_id : Z) (w : world) (i : string)
    (pr tm : bool) :
  norm_interest a = Ok i ->
  nonblank a "price_range" = Ok pr ->
  nonblank a "timing" = Ok tm ->
  _decide_and_apply a lead_id w
  = let sid := ConversationState.call_sid (state w) in
    if str_in i ["dnc"; "no"] then
      (Ok (Some (Dnc dnc_message)),
       mk_world (state w)
         (save_event "OUTCOME_DNC"
            (PDict [("lead_id", PInt lead_id);
                    ("reason", get_or a "notes" (PStr ""))])
            sid (store w)))
    else if String.eqb i "later" then
      let cbd := create_callback lead_id
                   (get_or a "callback_window" (PStr "next business day"))
                   (get_or a "notes" (PStr "")) (store w) in
      (Ok (Some (CallbackOutcome (Callback.id (fst cbd))
                   (Callback.window (fst cbd)) callback_message)),
       mk_world (state w)
         (save_event "OUTCOME_CALLBACK"
            (PDict [("lead_id", PInt lead_id);
                    ("callback_id", PInt (Callback.id (fst cbd)));
                    ("window", Callback.window (fst cbd))])
            sid (snd cbd)))
    else if str_in i ["yes"; "maybe"]
            && (pr || tm || (90 <=? ConversationState.elapsed_sec (state w)))
    then
      (Ok (Some (Transfer transfer_message)),
       mk_world (state w)
         (save_event "OUTCOME_TRANSFER" (PDict [("lead_id", PInt lead_id)])
            sid (mark_qualified lead_id true (store w))))
    else if 90 <=? ConversationState.elapsed_sec (state w) then
      (Ok (Some (Dnc timeout_message)),
       mk_world (state w)
         (save_event "OUTCOME_DNC"
            (PDict [("lead_id", PInt lead_id); ("reason", PStr timeout_reason)])
            sid (store w)))
    else (Ok None, w).
Proof.
  intros Hi Hp Ht.
  unfold _decide_and_apply, bind, lift_result, get_state.
  rewrite Hi, Hp, Ht. cbv zeta.
  destruct (str_in i ["dnc"; "no"]); [reflexivity|].
  destruct (String.eqb i "later"); [reflexivity|].
  destruct (str_in i ["yes"; "maybe"]
            && (pr || tm || (90 <=? ConversationState.elapsed_sec (state w))));
    [reflexivity|].
  destruct (90 <=? ConversationState.elapsed_sec (state w)); reflexivity.
Qed.

(** When a field does not read, the step raises before it writes. *)
Lemma decide_unreadable (a : dict) (lead_id : Z) (w : world) :
  (exists e, norm_interest a = Raise e)
  \/ (exists e, nonblank a "price_range" = Raise e)
  \/ (exists e, nonblank a "timing" = Raise e) ->
  exists e, _decide_and_apply a lead_id w = (Raise e, w).
Proof.
  unfold _decide_and_apply, bind, lift_result.
  destruct (norm_interest a) as [i|e1]; [|intros _; exists e1; reflexivity].
  destruct (nonblank a "price_range") as [pr|e2];
    [|intros _; exists e2; reflexivity].
  destruct (nonblank a "timing") as [tm|e3];
    [|intros _; exists e3; reflexivity].
  intros [[e H] | [[e H] | [e H]]]; discriminate H.
Qed.

Lemma text_or_falsy_lower (v : pyval) :
  text_or_falsy v -> exists s, py_lower (py_or v (PStr "")) = Ok s.
Proof. intros [s H]. rewrite H. simpl. eexists; reflexivity. Qed.

Lemma text_or_falsy_strip (v : pyval) :
  text_or_falsy v -> exists s, py_strip (py_or v (PStr "")) = Ok s.
Proof. intros [s H]. rewrite H. simpl. eexists; reflexivity. Qed.

Lemma well_formed_reads (a : dict) :
  well_formed a ->
  exists i pr tm,
    norm_interest a = Ok i
    /\ nonblank a "price_range" = Ok pr
    /\ nonblank a "timing" = Ok tm.
Proof.
  intros (Hi & Hp & Ht).
  destruct (text_or_falsy_lower _ Hi) as [i Ei].
  destruct (text_or_falsy_strip _ Hp) as [p Ep].
  destruct (text_or_falsy_strip _ Ht) as [t Et].
  exists (PyStr.strip i), (PyStr.nonempty p), (PyStr.nonempty t).
  unfold norm_interest, nonblank. rewrite Ei, Ep, Et. repeat split.
Qed.

Lemma strip_reads_text (v : pyval) (s : string) :
  py_strip (py_or v (PStr "")) = Ok s -> text_or_falsy v.
Proof.
  unfold text_or_falsy. destruct (py_or v (PStr "")) as [| | |t| |];
    simpl; try discriminate.
  intros _. exists t. reflexivity.
Qed.

Lemma lower_reads_text (v : pyval) (s : string) :
  py_lower (py_or v (PStr "")) = Ok s -> text_or_falsy v.
Proof.
  unfold text_or_falsy. destruct (py_or v (PStr "")) as [| | |t| |];
    simpl; try discriminate.
  intros _. exists t. reflexivity.
Qed.

(** A record is well-formed exactly when its three fields read. *)
Lemma readable_well_formed (a : dict) (i : string) (pr tm : bool) :
  norm_interest a = Ok i ->
  nonblank a "price_range" = Ok pr ->
  nonblank a "timing" = Ok tm ->
  well_formed a.
Proof.
  unfold norm_interest, nonblank. intros Hi Hp Ht. repeat split.
  - destruct (py_lower (py_or (get a "interest") (PStr ""))) as [s|e] eqn:E;
      [|discriminate Hi].
    exact (lower_reads_text _ s E).
  - destruct (py_strip (py_or (get a "price_range") (PStr ""))) as [s|e] eqn:E;
      [|discriminate Hp].
    exact (strip_reads_text _ s E).
  - destruct (py_strip (py_or (get a "timing") (PStr ""))) as [s|e] eqn:E;
      [|discriminate Ht].
    exact (strip_reads_text _ s E).
Qed.

End DecideFacts.

(** C1, as the code has it (priority of a stated "not interested").  For
    every field record whose interest, lowercased and stripped, is "dnc" or
    "no": when the record is well-formed, [_decide_and_apply] returns the
    dnc outcome whatever price_range, timing, the elapsed seconds and the
    other fields are, and none of the later branches runs: no lead and no
    callback row changes, and the one event written is OUTCOME_DNC with the
    record's notes as reason.  The only other course is that of a record
    that is not well-formed (a price_range or timing that is neither text
    nor falsy): the step raises before any branch and writes nothing. *)
Theorem dnc_interest_wins :
  forall (w : world) (analysis : dict) (lead_id : Z),
    norm_interest analysis = Ok "dnc" \/ norm_interest analysis = Ok "no" ->
    let (r, w') := _decide_and_apply analysis lead_id w in
    (well_formed analysis ->
     r = Ok (Some (Dnc dnc_message))
     /\ state w' = state w
     /\ leads (store w') = leads (store w)
     /\ callbacks (store w') = callbacks (store w)
     /\ exists ev,
          events (store w') = events (store w) ++ [ev]
          /\ CallEvent.event_type ev = "OUTCOME_DNC"
          /\ CallEvent.payload ev
             = PDict [("lead_id", PInt lead_id);
                      ("reason", get_or analysis "notes" (PStr ""))])
    /\ (~ well_formed analysis -> (exists e, r = Raise e) /\ w' = w).
Proof.
  intros w a lead_id Hdnc.
  assert (Hi : exists i, norm_interest a = Ok i /\ str_in i ["dnc"; "no"] = true).
  { destruct Hdnc as [E | E]; rewrite E; eexists; split; reflexivity. }
  destruct Hi as (i & Hi & Hin).
  destruct (nonblank a "price_range") as [pr|e1] eqn:Hp.
  2:{ destruct (decide_unreadable a lead_id w) as [e He].
      - right; left; exists e1; exact Hp.
      - rewrite He. split.
        + intro Hwf. destruct (well_formed_reads a Hwf) as (_ & pr & _ & _ & E & _).
          rewrite E in Hp. discriminate Hp.
        + intros _. split; [exists e; reflexivity | reflexivity]. }
  destruct (nonblank a "timing") as [tm|e2] eqn:Ht.
  2:{ destruct (decide_unreadable a lead_id w) as [e He].
      - right; right; exists e2; exact Ht.
      - rewrite He. split.
        + intro Hwf. destruct (well_formed_reads a Hwf) as (_ & _ & tm & _ & _ & E).
          rewrite E in Ht. discriminate Ht.
        + intros _. split; [exists e; reflexivity | reflexivity]. }
  rewrite (decide_readable a lead_id w i pr tm Hi Hp Ht). cbv zeta.
  rewrite Hin. cbv beta iota. cbn [state store]. split.
  - intros _. repeat split. eexists; repeat split.
  - intro Hnot. exfalso. apply Hnot.
    apply (readable_well_formed a i pr tm Hi Hp Ht).
Qed.

Lemma dnc_interest_wins_witness :
  let a := [("interest", PStr " DNC "); ("price_range", PStr "350-380k");
            ("timing", PStr "30 days"); ("callback_window", PStr "today 5pm")] in
  norm_interest a = Ok "dnc"
  /\ well_formed a
  /\ fst (_decide_and_apply a 1 (sample_world 120)) = Ok (Some (Dnc dnc_message)).
Proof.
  cbv zeta.
  assert (Hwf : well_formed
                  [("interest", PStr " DNC "); ("price_range", PStr "350-380k");
                   ("timing", PStr "30 days");
                   ("callback_window", PStr "today 5pm")]).
  { repeat split; eexists; reflexivity. }
  split; [reflexivity | split; [exact Hwf |]].
  generalize (dnc_interest_wins (sample_world 120)
                [("interest", PStr " DNC "); ("price_range", PStr "350-380k");
                 ("timing", PStr "30 days");
                 ("callback_window", PStr "today 5pm")]
                1 (or_introl eq_refl)).
  destruct (_decide_and_apply _ 1 (sample_world 120)) as [r w'].
  intros [H _]. exact (proj1 (H Hwf)).
Defined.

(** C1 as stated fails: a record whose interest is "dnc" and whose
    price_range is the number 5, which the extractor passes on as parsed,
    makes the step raise AttributeError where price_range is read as text,
    before the test on the interest: no outcome is returned and nothing is
    written. *)
Lemma dnc_with_number_price_raises :
  let a := [("interest", PStr "dnc"); ("price_range", PInt 5)] in
  extract_analysis (Ok (PDict a)) = a
  /\ norm_interest a = Ok "dnc"
  /\ _decide_and_apply a 1 (sample_world 8)
     = (Raise AttributeError, sample_world 8)
  /\ fst (_decide_and_apply a 1 (sample_world 8))
     <> Ok (Some (Dnc dnc_message)).
Proof.
  cbv zeta. repeat split. intro H. discriminate H.
Qed.

Section DecideEffects.

Lemma get_lead_mark_qualified (i : Z) (d : db) (l : Lead.t) :
  get_lead i d = Some l ->
  get_lead i (mark_qualified i true d)
  = Some (Lead.set_updated_at (wall d (reads d)) (Lead.set_qualified true l)).
Proof.
  intro H. unfold mark_qualified. rewrite H.
  unfold get_lead in *. simpl.
  apply find_write_first.
  - simpl. apply find_some in H. exact (proj2 H).
  - rewrite H. discriminate.
Qed.

(** Everything [_decide_and_apply] does to the world, by what it returns. *)
Lemma decide_effects (a : dict) (lead_id : Z) (w : world) :
  let (r, w') := _decide_and_apply a lead_id w in
  state w' = state w
  /\ match r with
     | Raise _ | Ok None => w' = w
     | Ok (Some (Dnc m)) =>
         leads (store w') = leads (store w)
         /\ callbacks (store w') = callbacks (store w)
         /\ exists ev, events (store w') = events (store w) ++ [ev]
                       /\ CallEvent.event_type ev = "OUTCOME_DNC"
                       /\ (m = timeout_message -> is_timeout_event lead_id ev)
     | Ok (Some (CallbackOutcome cid win _)) =>
         leads (store w') = leads (store w)
         /\ exists cb ev,
              callbacks (store w') = callbacks (store w) ++ [cb]
              /\ Callback.id cb = cid /\ Callback.window cb = win
              /\ Callback.lead_id cb = lead_id
              /\ events (store w') = events (store w) ++ [ev]
              /\ CallEvent.event_type ev = "OUTCOME_CALLBACK"
     | Ok (Some (Transfer _)) =>
         leads (store w') = leads (mark_qualified lead_id true (store w))
         /\ callbacks (store w') = callbacks (store w)
         /\ exists ev, events (store w') = events (store w) ++ [ev]
                       /\ CallEvent.event_type ev = "OUTCOME_TRANSFER"
     end.
Proof.
  destruct (norm_interest a) as [i|e1] eqn:Hi.
  2:{ destruct (decide_unreadable a lead_id w) as [e He].
      - left; exists e1; exact Hi.
      - rewrite He. split; reflexivity. }
  destruct (nonblank a "price_range") as [pr|e2] eqn:Hp.
  2:{ destruct (decide_unreadable a lead_id w) as [e He].
      - right; left; exists e2; exact Hp.
      - rewrite He. split; reflexivity. }
  destruct (nonblank a "timing") as [tm|e3] eqn:Ht.
  2:{ destruct (decide_unreadable a lead_id w) as [e He].
      - right; right; exists e3; exact Ht.
      - rewrite He. split; reflexivity. }
  rewrite (decide_readable a lead_id w i pr tm Hi Hp Ht). cbv zeta.
  destruct (str_in i ["dnc"; "no"]).
  { cbv beta iota. cbn [state store]. repeat split.
    eexists; split; [reflexivity|]. split; [reflexivity|].
    intro E; discriminate E. }
  destruct (String.eqb i "later").
  { simpl. repeat split. do 2 eexists. repeat split. }
  destruct (str_in i ["yes"; "maybe"]
            && (pr || tm || (90 <=? ConversationState.elapsed_sec (state w)))).
  { cbv beta iota. cbn [state store].
    split; [reflexivity|]. split; [reflexivity|].
    split; [apply callbacks_mark_qualified|].
    eexists. split.
    - rewrite events_save_event, events_mark_qualified. reflexivity.
    - reflexivity. }
  destruct (90 <=? ConversationState.elapsed_sec (state w)).
  { cbv beta iota. cbn [state store]. repeat split.
    eexists; split; [reflexivity|]. split; [reflexivity|].
    intros _. split; reflexivity. }
  split; reflexivity.
Qed.

End DecideEffects.

(** C4, as the code has it.  For every well-formed field record whose
    interest, lowercased and stripped, is "yes" or "maybe", and whose
    price_range or timing is non-blank (non-empty once white space is
    stripped) or with at least 90 elapsed seconds, [_decide_and_apply]
    returns the transfer outcome and, as part of applying it, stores the
    qualified flag of the lead with the given id as true (its fields
    untouched) and writes the OUTCOME_TRANSFER event. *)
Theorem transfer_marks_qualified :
  forall (w : world) (analysis : dict) (lead_id : Z),
    well_formed analysis ->
    norm_interest analysis = Ok "yes" \/ norm_interest analysis = Ok "maybe" ->
    nonblank analysis "price_range" = Ok true
    \/ nonblank analysis "timing" = Ok true
    \/ 90 <= ConversationState.elapsed_sec (state w) ->
    let (r, w') := _decide_and_apply analysis lead_id w in
    r = Ok (Some (Transfer transfer_message))
    /\ state w' = state w
    /\ callbacks (store w') = callbacks (store w)
    /\ (forall l, get_lead lead_id (store w) = Some l ->
          exists l', get_lead lead_id (store w') = Some l'
                     /\ Lead.qualified l' = true
                     /\ forall c, Lead.getattr c l' = Lead.getattr c l)
    /\ exists ev,
         events (store w') = events (store w) ++ [ev]
         /\ CallEvent.event_type ev = "OUTCOME_TRANSFER"
         /\ CallEvent.payload ev = PDict [("lead_id", PInt lead_id)].
Proof.
  intros w a lead_id Hwf Hint Hmore.
  destruct (well_formed_reads a Hwf) as (i & pr & tm & Hi & Hp & Ht).
  rewrite (decide_readable a lead_id w i pr tm Hi Hp Ht). cbv zeta.
  assert (Hyes : str_in i ["dnc"; "no"] = false /\ String.eqb i "later" = false
                 /\ str_in i ["yes"; "maybe"] = true).
  { destruct Hint as [E | E]; rewrite E in Hi; inversion Hi; repeat split. }
  destruct Hyes as (H1 & H2 & H3). rewrite H1, H2, H3.
  assert (Hor : pr || tm || (90 <=? ConversationState.elapsed_sec (state w)) = true).
  { destruct Hmore as [E | [E | E]].
    - rewrite E in Hp; inversion Hp; reflexivity.
    - rewrite E in Ht; inversion Ht. apply orb_true_iff; left.
      apply orb_true_r.
    - apply orb_true_iff; right. apply Z.leb_le, E. }
  rewrite Hor. cbv beta iota. cbn [state store andb].
  split; [reflexivity|]. split; [reflexivity|].
  split; [apply callbacks_mark_qualified|]. split.
  - intros l Hl.
    change (get_lead lead_id (save_event ?t ?p ?c ?d))
      with (get_lead lead_id d).
    rewrite (get_lead_mark_qualified lead_id (store w) l Hl).
    eexists; split; [reflexivity|]. split; [reflexivity|].
    intro c; destruct c; reflexivity.
  - eexists. split; [|split].
    + rewrite events_save_event, events_mark_qualified. reflexivity.
    + reflexivity.
    + reflexivity.
Qed.

Lemma transfer_marks_qualified_witness :
  let a := [("interest", PStr "Maybe"); ("price_range", PStr "370k");
            ("timing", PStr "")] in
  well_formed a
  /\ norm_interest a = Ok "maybe"
  /\ nonblank a "price_range" = Ok true
  /\ fst (_decide_and_apply a 1 (sample_world 16))
     = Ok (Some (Transfer transfer_message)).
Proof.
  cbv zeta.
  assert (Hwf : well_formed [("interest", PStr "Maybe");
                             ("price_range", PStr "370k"); ("timing", PStr "")]).
  { repeat split; eexists; reflexivity. }
  split; [exact Hwf | split; [reflexivity | split; [reflexivity |]]].
  generalize (transfer_marks_qualified (sample_world 16) _ 1 Hwf
                (or_intror eq_refl) (or_introl eq_refl)).
  destruct (_decide_and_apply _ 1 (sample_world 16)) as [r w'].
  intros H. exact (proj1 H).
Defined.

(** C4 as stated fails: interest "yes" with a price_range that is not empty
    but is white space only, no timing, 8 seconds in; the step returns
    [None] (continue), no transfer, and the lead stays unqualified. *)
Lemma blank_price_range_does_not_transfer :
  let a := [("interest", PStr "yes"); ("price_range", PStr " ");
            ("timing", PStr "")] in
  get a "interest" = PStr "yes"
  /\ get a "price_range" = PStr " "
  /\ " " <> ""
  /\ _decide_and_apply a 1 (sample_world 8) = (Ok None, sample_world 8).
Proof.
  cbv zeta. repeat split. intro E; discriminate E.
Qed.

(** C7, as the code has it.  [_decide_and_apply] decides and applies: it
    never changes the conversation state, and it leaves the store as it was
    exactly when it returns [None] (continue) or raises; with a dnc outcome
    it has itself written one OUTCOME_DNC event (the timeout event when the
    message is the timeout one), with a callback outcome one
    Callback row and one OUTCOME_CALLBACK event, with a transfer outcome the
    lead marked qualified and one OUTCOME_TRANSFER event. *)
Theorem decide_and_apply_side_effects :
  forall (w : world) (analysis : dict) (lead_id : Z),
    let (r, w') := _decide_and_apply analysis lead_id w in
    state w' = state w
    /\ match r with
       | Raise _ | Ok None => w' = w
       | Ok (Some (Dnc m)) =>
           leads (store w') = leads (store w)
           /\ callbacks (store w') = callbacks (store w)
           /\ exists ev, events (store w') = events (store w) ++ [ev]
                         /\ CallEvent.event_type ev = "OUTCOME_DNC"
                         /\ (m = timeout_message -> is_timeout_event lead_id ev)
       | Ok (Some (CallbackOutcome cid win _)) =>
           leads (store w') = leads (store w)
           /\ exists cb ev,
                callbacks (store w') = callbacks (store w) ++ [cb]
                /\ Callback.id cb = cid /\ Callback.window cb = win
                /\ Callback.lead_id cb = lead_id
                /\ events (store w') = events (store w) ++ [ev]
                /\ CallEvent.event_type ev = "OUTCOME_CALLBACK"
       | Ok (Some (Transfer _)) =>
           leads (store w') = leads (mark_qualified lead_id true (store w))
           /\ callbacks (store w') = callbacks (store w)
           /\ exists ev, events (store w') = events (store w) ++ [ev]
                         /\ CallEvent.event_type ev = "OUTCOME_TRANSFER"
       end.
Proof. intros w a lead_id. apply decide_effects. Qed.

(** C7 as stated fails: on [sample_db] (no events, no callbacks, its lead
    unqualified) the decision step itself writes the OUTCOME_DNC event for
    interest "dnc", creates the Callback row for interest "later", and sets
    the lead's qualified flag for interest "yes" with a price. *)
Lemma decide_and_apply_writes :
  events sample_db = [] /\ callbacks sample_db = []
  /\ map Lead.qualified (leads sample_db) = [false]
  /\ map CallEvent.event_type
       (events (store (snd (_decide_and_apply [("interest", PStr "dnc")] 1
                              (sample_world 8)))))
     = ["OUTCOME_DNC"]
  /\ map Callback.window
       (callbacks (store (snd (_decide_and_apply [("interest", PStr "later")] 1
                                 (sample_world 8)))))
     = [PStr "next business day"]
  /\ map Lead.qualified
       (leads (store (snd (_decide_and_apply
                             [("interest", PStr "yes");
                              ("price_range", PStr "400k")] 1
                             (sample_world 8)))))
     = [true].
Proof. repeat split. Qed.

(** C6, as the code has it.  Whatever [json.loads] makes of the stripped
    reply, the extractor returns a record and does not raise.  When
    [json.loads] raises or gives a value that is not an object, the record
    is [unknown_analysis]: the seven named fields, interest and
    owner_status "unknown", the other five the empty string, which the
    decision step can read.  When it gives an object, the record is that
    object as it is, with no field filled in. *)
Theorem extractor_fail_soft :
  forall (json_loads : string -> result pyval) (output_text : string),
    let loaded := json_loads (PyStr.strip output_text) in
    (forall d, loaded = Ok (PDict d) -> extract_analysis loaded = d)
    /\ ((forall d, loaded <> Ok (PDict d)) ->
        extract_analysis loaded = unknown_analysis)
    /\ map fst unknown_analysis
       = ["interest"; "price_range"; "timing"; "condition"; "owner_status";
          "callback_window"; "notes"]
    /\ get unknown_analysis "interest" = PStr "unknown"
    /\ get unknown_analysis "owner_status" = PStr "unknown"
    /\ (forall k, In k ["price_range"; "timing"; "condition"; "callback_window";
                        "notes"] ->
                  get unknown_analysis k = PStr "")
    /\ well_formed unknown_analysis.
Proof.
  intros json_loads output_text loaded.
  split; [intros d E; rewrite E; reflexivity|].
  split.
  { intro Hnot. destruct loaded as [v|e]; [|reflexivity].
    destruct v; try reflexivity. contradiction (Hnot d); reflexivity. }
  split; [reflexivity|]. split; [reflexivity|]. split; [reflexivity|].
  split.
  { intros k Hk. simpl in Hk.
    repeat (destruct Hk as [E | Hk]; [subst k; reflexivity|]). destruct Hk. }
  repeat split; eexists; reflexivity.
Qed.

(** C6 as stated fails: after a parse failure owner_status is "unknown",
    not the empty string; an object with missing fields comes back with the
    fields still missing (no interest field, so no "unknown"); and an
    object whose interest is a number is handed on as it is, on which the
    decision step raises. *)
Lemma extractor_defaults_differ :
  get (extract_analysis (Raise JSONDecodeError)) "owner_status" = PStr "unknown"
  /\ extract_analysis (Ok (PDict [("price_range", PStr "400k")]))
     = [("price_range", PStr "400k")]
  /\ lookup "interest"
       (extract_analysis (Ok (PDict [("price_range", PStr "400k")]))) = None
  /\ fst (_decide_and_apply
            (extract_analysis (Ok (PDict [("interest", PInt 1)]))) 1
            (sample_world 8))
     = Raise AttributeError.
Proof. repeat split. Qed.

(* ===================================================================== *)
(** * Properties of the turn-based orchestrator *)
(* ===================================================================== *)

Ltac run_py :=
  cbv beta iota zeta
      delta [ingest_user_text bind ret get_state set_state log_event
             lift_result _append_user _update_lead _lead_snapshot];
  cbn [state store fst snd ConversationState.closed ConversationState.phone
       ConversationState.call_sid ConversationState.history
       ConversationState.elapsed_sec ConversationState.outcome
       ConversationState.last_response_id].

Section IngestFacts.

Variable json_loads : string -> result pyval.

Lemma outcome_events_app (a b : list CallEvent.t) :
  outcome_events (a ++ b) = outcome_events a ++ outcome_events b.
Proof. apply filter_app. Qed.

Lemma ingest_closed (be : backend) (text : string) (secs : Z) (w : world) :
  ConversationState.closed (state w) = true ->
  ingest_user_text json_loads be text secs w
  = (Ok (ReplyClosed (ConversationState.outcome (state w))), w).
Proof. intro H. run_py. rewrite H. reflexivity. Qed.

Lemma ingest_all_closed (ts : list turn) (w : world) :
  ConversationState.closed (state w) = true ->
  ingest_all json_loads ts w
  = (map (fun _ => Ok (ReplyClosed (ConversationState.outcome (state w)))) ts,
     w).
Proof.
  intro H. induction ts as [|t r IH]; simpl; [reflexivity|].
  rewrite (ingest_closed _ _ _ w H), IH. reflexivity.
Qed.

(** One invocation on an open call: it appends events; either the call
    stays open and no outcome event was written, or the reply carries a
    decided outcome, the call is closed with that outcome's tag, and
    exactly one outcome event was written. *)
Lemma ingest_open_step (be : backend) (text : string) (secs : Z) (w : world) :
  ConversationState.closed (state w) = false ->
  let (r, w') := ingest_user_text json_loads be text secs w in
  exists new,
    events (store w') = events (store w) ++ new
    /\ ((ConversationState.closed (state w') = false
         /\ outcome_events new = [] /\ no_decision r)
        \/ (exists l a o e ev,
              r = Ok (ReplyTurn l a (Decided o) e)
              /\ ConversationState.closed (state w') = true
              /\ ConversationState.outcome (state w') = Some (outcome_type o)
              /\ outcome_events new = [ev]
              /\ (o = Dnc timeout_message ->
                  exists lead_id, is_timeout_event lead_id ev))).
Proof.
  intro Hopen.
  run_py. rewrite Hopen. run_py.
  destruct (be _ _) as [[txt rid]|e]; run_py.
  2:{ eexists. split; [rewrite events_save_event; reflexivity|].
      left. rewrite Hopen. repeat split. intros l a o e' E; discriminate E. }
  set (analysis := extract_analysis (json_loads (PyStr.strip txt))).
  match goal with
  | |- context [snd (upsert_lead ?p ?fs ?d)] =>
      set (d2 := snd (upsert_lead p fs d));
      assert (Hd2 : exists e1 e2, events d2 = events (store w) ++ [e1; e2]
                                  /\ outcome_events [e1; e2] = [])
  end.
  { subst d2. rewrite events_upsert_lead, !events_save_event.
    do 2 eexists. rewrite <- app_assoc. split; reflexivity. }
  clearbody d2. destruct Hd2 as (e1 & e2 & Hd2 & Hnone).
  match goal with
  | |- context [mk_world ?st d2] => set (st2 := st)
  end.
  destruct (find_lead_by_phone (ConversationState.phone (state w)) d2)
    as [lead|].
  2:{ cbn. exists [e1; e2]. split; [exact Hd2|].
      left. repeat split; try assumption.
      intros l a o e' E; discriminate E. }
  cbn.
  destruct (Lead.id lead =? 0); cbn [negb].
  { cbn. exists [e1; e2]. split; [exact Hd2|].
    left. repeat split; try assumption.
    intros l a o e' E; discriminate E. }
  generalize (decide_effects analysis (Lead.id lead) (mk_world st2 d2)).
  destruct (_decide_and_apply analysis (Lead.id lead) (mk_world st2 d2))
    as [r w3].
  intros [Hst Heff].
  destruct r as [[o|]|e].
  - run_py.
    assert (Hev : exists ev,
               events (store w3) = events d2 ++ [ev]
               /\ is_outcome_event ev = true
               /\ (o = Dnc timeout_message ->
                   is_timeout_event (Lead.id lead) ev)).
    { destruct o as [m | cid win m | m]; cbn [store] in Heff.
      - destruct Heff as (_ & _ & ev & H1 & H2 & H3).
        exists ev. split; [exact H1|]. split.
        + unfold is_outcome_event. rewrite H2. reflexivity.
        + intro E. inversion E. apply H3. assumption.
      - destruct Heff as (_ & cb & ev & _ & _ & _ & _ & H1 & H2).
        exists ev. split; [exact H1|]. split.
        + unfold is_outcome_event. rewrite H2. reflexivity.
        + intro E; discriminate E.
      - destruct Heff as (_ & _ & ev & H1 & H2).
        exists ev. split; [exact H1|]. split.
        + unfold is_outcome_event. rewrite H2. reflexivity.
        + intro E; discriminate E. }
    destruct Hev as (ev & H1 & H2 & H3).
    exists [e1; e2; ev]. split.
    { rewrite H1, Hd2, <- app_assoc. reflexivity. }
    right. do 5 eexists. split; [reflexivity|].
    split; [reflexivity|]. split; [reflexivity|]. split.
    + change [e1; e2; ev] with ([e1; e2] ++ [ev]).
      rewrite outcome_events_app, Hnone. unfold outcome_events. simpl.
      rewrite H2. reflexivity.
    + intro E. exists (Lead.id lead). apply H3, E.
  - subst w3. run_py. exists [e1; e2]. split; [exact Hd2|].
    left. repeat split; try assumption. intros l a o e' E; discriminate E.
  - subst w3. exists [e1; e2]. split; [exact Hd2|].
    left. repeat split; try assumption. intros l a o e' E; discriminate E.
Qed.


Lemma new_brain_open (phone sid : string) (d : db) :
  ConversationState.closed (state (VanessaBrain phone sid d)) = false.
Proof. reflexivity. Qed.

End IngestFacts.

(** C2 (idempotence after close).  On a brain whose state is closed, every
    invocation of [ingest_user_text], with any text, duration and backend,
    returns the closed reply carrying the stored outcome tag and leaves the
    conversation state and the whole store as they were: no upsert, no
    mark_qualified, no callback, no event, no decision; and so does every
    sequence of further invocations.  The state is closed by the invocation
    that decides an outcome: from then on every invocation returns that
    outcome's tag and changes nothing. *)
Theorem ingest_after_close :
  forall (json_loads : string -> result pyval),
    (forall (w : world),
        ConversationState.closed (state w) = true ->
        (forall be text secs,
            ingest_user_text json_loads be text secs w
            = (Ok (ReplyClosed (ConversationState.outcome (state w))), w))
        /\ (forall ts,
              ingest_all json_loads ts w
              = (map (fun _ =>
                        Ok (ReplyClosed (ConversationState.outcome (state w))))
                   ts, w)))
    /\ (forall (w w' : world) be text secs l a o e,
           ingest_user_text json_loads be text secs w
           = (Ok (ReplyTurn l a (Decided o) e), w') ->
           ConversationState.closed (state w') = true
           /\ ConversationState.outcome (state w') = Some (outcome_type o)
           /\ forall be' text' secs',
                ingest_user_text json_loads be' text' secs' w'
                = (Ok (ReplyClosed (Some (outcome_type o))), w')).
Proof.
  intro json_loads. split.
  - intros w H. split.
    + intros be text secs. apply ingest_closed, H.
    + intro ts. apply ingest_all_closed, H.
  - intros w w' be text secs l a o e Hrun.
    destruct (ConversationState.closed (state w)) eqn:Hc.
    { rewrite (ingest_closed json_loads be text secs w Hc) in Hrun.
      discriminate Hrun. }
    generalize (ingest_open_step json_loads be text secs w Hc).
    rewrite Hrun.
    intros (new & _ & [(_ & _ & Hnd)
                      | (l' & a' & o' & e' & ev & Hx & Hcl & Hout & _)]).
    { exfalso. exact (Hnd l a o e eq_refl). }
    inversion Hx; subst l' a' o' e'.
    split; [exact Hcl|]. split; [exact Hout|].
    intros be' text' secs'.
    rewrite (ingest_closed json_loads be' text' secs' w' Hcl), Hout.
    reflexivity.
Qed.

Lemma ingest_after_close_witness :
  ConversationState.closed (state closed_world) = true
  /\ ingest_user_text loads_nothing mumbling_backend "are you there?" 8
       closed_world
     = (Ok (ReplyClosed (Some "transfer")), closed_world).
Proof.
  split; [reflexivity|].
  exact (proj1 (proj1 (ingest_after_close loads_nothing) closed_world eq_refl)
           mumbling_backend "are you there?" 8).
Defined.



(** A call that runs into the timebox: the backend mumbles, nothing is
    understood, and the second turn, 96 seconds in, takes the timeout exit;
    a third invocation finds the call closed. *)
Example timeout_exit_sample :
  let turns := [mk_turn mumbling_backend "who is this?" 48;
                mk_turn mumbling_backend "what company?" 48;
                mk_turn mumbling_backend "hello?" 48] in
  let run := ingest_all loads_nothing turns
               (VanessaBrain "+15550100" "SIM-0100" sample_db) in
  no_branch unknown_analysis 96
  /\ map (fun r => match r with
                   | Ok (ReplyTurn _ _ o _) => Some o
                   | _ => None
                   end) (fst run)
     = [Some Continue; Some (Decided (Dnc timeout_message)); None]
  /\ map CallEvent.event_type (events (store (snd run)))
     = ["TURN"; "RAW_LLM"; "TURN"; "RAW_LLM"; "OUTCOME_DNC"]
  /\ map Lead.interest (leads (store (snd run))) = [PStr "unknown"].
Proof.
  cbv zeta. split.
  - exists "unknown", false, false. repeat split.
  - repeat split.
Qed.

(* ===================================================================== *)
(** * Properties of the streaming bridge *)
(* ===================================================================== *)

#[local] Arguments save_event : simpl never.
#[local] Arguments upsert_lead : simpl never.
#[local] Arguments mark_qualified : simpl never.
#[local] Arguments create_callback : simpl never.
#[local] Arguments eq_str : simpl never.
#[local] Arguments get : simpl never.
#[local] Arguments get_or : simpl never.
#[local] Arguments truthy : simpl never.
#[local] Arguments lookup : simpl never.

Section AppendsFacts.

Variable P : CallEvent.t -> Prop.

Lemma appends_refl (d : db) : appends P d d.
Proof. exists []. split; [rewrite app_nil_r; reflexivity | constructor]. Qed.

Lemma appends_trans (a b c : db) :
  appends P a b -> appends P b c -> appends P a c.
Proof.
  intros (n1 & E1 & F1) (n2 & E2 & F2). exists (n1 ++ n2). split.
  - rewrite E2, E1, app_assoc. reflexivity.
  - apply Forall_app; split; assumption.
Qed.

Lemma appends_same_events (d d' : db) :
  events d' = events d -> appends P d d'.
Proof.
  intro E. exists []. rewrite E, app_nil_r. split; [reflexivity | constructor].
Qed.

Lemma appends_save_event t p c (d d0 : db) :
  appends P d0 d ->
  (forall e, CallEvent.event_type e = t -> P e) ->
  appends P d0 (save_event t p c d).
Proof.
  intros H HP. eapply appends_trans; [exact H|].
  eexists. split; [apply events_save_event|].
  constructor; [apply HP; reflexivity | constructor].
Qed.

Lemma appends_upsert d0 p fs d :
  appends P d0 d -> appends P d0 (snd (upsert_lead p fs d)).
Proof.
  intro H. eapply appends_trans; [exact H|].
  apply appends_same_events, events_upsert_lead.
Qed.

Lemma appends_mark d0 i q d :
  appends P d0 d -> appends P d0 (mark_qualified i q d).
Proof.
  intro H. eapply appends_trans; [exact H|].
  apply appends_same_events, events_mark_qualified.
Qed.

Lemma appends_callback d0 i w n d :
  appends P d0 d -> appends P d0 (snd (create_callback i w n d)).
Proof.
  intro H. eapply appends_trans; [exact H|].
  apply appends_same_events. reflexivity.
Qed.

End AppendsFacts.

Ltac appends_tac :=
  repeat first
    [ apply appends_refl
    | apply appends_upsert
    | apply appends_mark
    | apply appends_callback
    | apply appends_save_event;
      [| let e := fresh "e" in
         let He := fresh "He" in
         intros e He; unfold not_closed_event; rewrite He; discriminate ] ].

Ltac run_bridge :=
  cbv beta iota zeta
      delta [on_ai_event on_function_call bind ret raise lift_result get_self
             set_qualified on_db bridge_event do_transfer as_dict item];
  cbn [self outside fst snd database dial redirected redirect_faults
       final_drains Bridge.ai_ws Bridge.call_sid Bridge.phone Bridge.qualified].

Ltac split_tests :=
  repeat match goal with
    | |- context [if ?b then _ else _] =>
        let E := fresh "E" in destruct b eqn:E; run_bridge
    | |- context [match lookup ?k ?d with _ => _ end] =>
        let E := fresh "E" in destruct (lookup k d) eqn:E; run_bridge
    | |- context [match get_or ?d ?k ?v with _ => _ end] =>
        let E := fresh "E" in destruct (get_or d k v) eqn:E; run_bridge
    | |- context [match redirect_faults ?e with _ => _ end] =>
        let E := fresh "E" in
        destruct (redirect_faults e) as [|[|] ?] eqn:E; run_bridge
    end.

Section BridgeFacts.

Lemma callbacks_upsert_mark p fs i q d :
  callbacks (mark_qualified i q (snd (upsert_lead p fs d))) = callbacks d.
Proof. rewrite callbacks_mark_qualified. apply callbacks_upsert_lead. Qed.

(** One event handled: the socket, the connections to come and the count
    of final drains are as before; the log grows by events other than
    STREAM_CLOSED; the qualified flag changes only on a qualifying call,
    a call is redirected only when the flag was set or is set by this
    event, and a Callback row is written only on a callback call. *)
Lemma on_ai_event_effects (ev : pyval) (s : bridge_world) :
  frame_rel ev s (snd (on_ai_event ev s)).
Proof.
  unfold frame_rel.
  destruct ev as [| | | |l|d];
    [run_bridge; repeat split; apply appends_refl .. |].
  unfold qualifying_call, callback_call, lead_detect_args.
  run_bridge.
  split_tests.
  all: repeat split; try reflexivity; try (intros; discriminate);
    try appends_tac.
  - intros _. rewrite callbacks_upsert_mark.
    rewrite callbacks_upsert_lead. reflexivity.
  - intros _. rewrite callbacks_upsert_lead. reflexivity.
  - intros _ Hq.
    match goal with
    | E : _ && Bridge.qualified (self s) = true |- _ =>
        rewrite Hq, andb_false_r in E; discriminate E
    end.
  - intros _ Hq.
    match goal with
    | E : _ && Bridge.qualified (self s) = true |- _ =>
        rewrite Hq, andb_false_r in E; discriminate E
    end.
Qed.

End BridgeFacts.

Section StepFacts.

Lemma Forall_incl {A} (Q : A -> Prop) (l l' : list A) :
  incl l' l -> Forall Q l -> Forall Q l'.
Proof.
  intros Hi Hf. rewrite Forall_forall in *. intros x Hx. apply Hf, Hi, Hx.
Qed.

Lemma step_ok_refl b e : step_ok b e b e.
Proof.
  repeat split; try assumption; try reflexivity.
  - apply incl_refl.
  - apply appends_refl.
Qed.

Lemma step_ok_trans b e b1 e1 b2 e2 :
  step_ok b e b1 e1 -> step_ok b1 e1 b2 e2 -> step_ok b e b2 e2.
Proof.
  intros (I1 & A1 & Q1 & C1) (I2 & A2 & Q2 & C2).
  split; [eapply incl_tran; eassumption|].
  split; [eapply appends_trans; eassumption|].
  split.
  - intros Hf Hu. destruct (Q1 Hf Hu) as [Hu1 Hr1].
    destruct (Q2 (Forall_incl _ _ _ I1 Hf) Hu1) as [Hu2 Hr2].
    split; [exact Hu2 | congruence].
  - intros Hf. rewrite (C2 (Forall_incl _ _ _ I1 Hf)). apply C1, Hf.
Qed.

(** A step that leaves the database, the redirects and the qualified
    flag alone and does not add deliverable events. *)
Lemma step_ok_quiet (b b' : Bridge.t) (e e' : env) :
  incl (call_frames (Some b') e') (call_frames (Some b) e) ->
  database e' = database e ->
  redirected e' = redirected e ->
  Bridge.qualified b' = Bridge.qualified b ->
  step_ok (Some b) e (Some b') e'.
Proof.
  intros Hi Hd Hr Hq. split; [exact Hi|].
  split; [rewrite Hd; apply appends_refl|].
  split.
  - intros _ Hu. simpl in *. split; congruence.
  - intros _. rewrite Hd. reflexivity.
Qed.

(** One arrived event handled after it was taken from the socket. *)
Lemma step_ok_frame (ev : pyval) (s s1 s2 : bridge_world) (k : socket)
    (delay : Z) (r : list arrival) :
  Bridge.ai_ws (self s) = Some k ->
  inbox k = Arrives delay (Ok ev) :: r ->
  s1 = snd (set_inbox r s) ->
  frame_rel ev s1 s2 ->
  step_ok (Some (self s)) (outside s) (Some (self s2)) (outside s2).
Proof.
  intros Hk Hq Hs1 (Fw & Fd & _ & Fa & Fq & Fr & Fc).
  assert (Hw1 : Bridge.ai_ws (self s1)
                = Some (mk_socket r (send_faults k) (sent k) (is_closed k))).
  { subst s1. unfold set_inbox, with_socket. simpl. rewrite Hk. reflexivity. }
  assert (Ho1 : outside s1 = outside s) by (subst s1; reflexivity).
  assert (Hq1 : Bridge.qualified (self s1) = Bridge.qualified (self s))
    by (subst s1; reflexivity).
  assert (Hfr : call_frames (Some (self s)) (outside s)
                = ev :: call_frames (Some (self s2)) (outside s2)).
  { unfold call_frames. rewrite Fw, Hw1, Fd, Ho1, Hk. simpl. rewrite Hq.
    reflexivity. }
  rewrite Ho1 in *.
  split; [rewrite Hfr; apply incl_tl, incl_refl|].
  split; [exact Fa|].
  split.
  - intros Hf Hu. rewrite Hfr in Hf. inversion Hf as [|x l Hev Hrest]; subst.
    simpl in Hu. rewrite <- Hq1 in Hu.
    split; [simpl; rewrite (Fq Hev); exact Hu | apply Fr; assumption].
  - intros Hf. rewrite Hfr in Hf. inversion Hf as [|x l Hev Hrest]; subst.
    apply Fc, Hev.
Qed.

(** One turn of the loop on an event that arrives in time. *)
Lemma drain_loop_arrives (t delay : Z) (ev : pyval) (r : list arrival)
    (s : bridge_world) :
  (delay <? t) = true ->
  drain_loop t (Arrives delay (Ok ev) :: r) s
  = match on_ai_event ev (snd (set_inbox r s)) with
    | (Ok true, s2) => drain_loop t r s2
    | (Ok false, s2) => (Ok tt, s2)
    | (Raise e, s2) => (Raise e, s2)
    end.
Proof.
  intro H. simpl. rewrite H. unfold bind, set_inbox, lift_result. simpl.
  destruct (on_ai_event ev _) as [[[|]|e] s2]; reflexivity.
Qed.

(** The loop of a drain, from a bridge whose socket holds [q]. *)
Lemma drain_loop_effects (t : Z) (q : list arrival) :
  forall (s : bridge_world) (k : socket),
    Bridge.ai_ws (self s) = Some k -> inbox k = q ->
    let s' := snd (drain_loop t q s) in
    step_ok (Some (self s)) (outside s) (Some (self s')) (outside s')
    /\ final_drains (outside s') = final_drains (outside s).
Proof.
  induction q as [|a r IH]; intros s k Hk Hq; cbn zeta.
  - simpl. split; [apply step_ok_refl | reflexivity].
  - assert (Hquiet : forall q',
               frames_of q' = frames_of (a :: r) ->
               step_ok (Some (self s)) (outside s)
                 (Some (self (snd (set_inbox q' s))))
                 (outside (snd (set_inbox q' s)))).
    { intros q' Hf. apply step_ok_quiet; try reflexivity.
      unfold call_frames, set_inbox, with_socket. simpl. rewrite Hk. simpl.
      rewrite Hq, Hf. apply incl_refl. }
    destruct a as [delay [ev|e] | delay].
    + destruct (delay <? t) eqn:Hd.
      * rewrite (drain_loop_arrives t delay ev r s Hd).
        set (s1 := snd (set_inbox r s)).
        assert (Hw1 : Bridge.ai_ws (self s1)
                      = Some (mk_socket r (send_faults k) (sent k) (is_closed k))).
        { subst s1. unfold set_inbox, with_socket. simpl. rewrite Hk.
          reflexivity. }
        assert (Ho1 : outside s1 = outside s) by reflexivity.
        generalize (on_ai_event_effects ev s1).
        destruct (on_ai_event ev s1) as [res s2]. cbn [snd]. intro Hrel.
        assert (Hstep := step_ok_frame ev s s1 s2 k delay r Hk Hq eq_refl Hrel).
        destruct Hrel as (Fw & _ & Ff & _).
        destruct res as [[|]|e]; cbn [snd].
        -- specialize (IH s2 _ (eq_trans Fw Hw1) eq_refl). cbn zeta in IH.
           destruct IH as [IH1 IH2]. split.
           ++ eapply step_ok_trans; eassumption.
           ++ rewrite IH2, Ff, Ho1. reflexivity.
        -- split; [exact Hstep | rewrite Ff, Ho1; reflexivity].
        -- split; [exact Hstep | rewrite Ff, Ho1; reflexivity].
      * simpl. rewrite Hd. split; [|reflexivity]. apply Hquiet. reflexivity.
    + simpl. destruct (delay <? t).
      * unfold bind, lift_result. simpl. split; [|reflexivity].
        apply (Hquiet r). reflexivity.
      * split; [|reflexivity]. apply Hquiet. reflexivity.
    + simpl. destruct (delay <? t).
      * unfold bind, raise. simpl. split; [|reflexivity].
        apply (Hquiet (Breaks 0 :: r)). reflexivity.
      * split; [|reflexivity]. apply Hquiet. reflexivity.
Qed.

End StepFacts.

Section MethodFacts.

Lemma bridge_ok_bind {A B} (m : M bridge_world A) (k : A -> M bridge_world B) :
  bridge_ok m -> (forall a, bridge_ok (k a)) -> bridge_ok (bind m k).
Proof.
  intros Hm Hk s. unfold bind. specialize (Hm s).
  destruct (m s) as [[a|e] s1]; cbn [snd] in *.
  - eapply step_ok_trans; [exact Hm | apply Hk].
  - exact Hm.
Qed.

Lemma bridge_ok_ret {A} (a : A) : bridge_ok (ret a).
Proof. intro s. apply step_ok_refl. Qed.

Lemma bridge_ok_raise {A} (e : exn) : bridge_ok (@raise bridge_world A e).
Proof. intro s. apply step_ok_refl. Qed.

Lemma bridge_ok_send (f : ai_frame) : bridge_ok (ai_send f).
Proof.
  intro s. unfold ai_send.
  destruct (Bridge.ai_ws (self s)) as [k|] eqn:Hk; [|apply step_ok_refl].
  destruct (send_faults k) as [|[|] rest]; cbn [snd self outside];
    apply step_ok_quiet; try reflexivity;
    unfold call_frames, with_socket; simpl; rewrite Hk; apply incl_refl.
Qed.

Lemma bridge_ok_event (t : string) (p : pyval) :
  t <> "STREAM_CLOSED" -> bridge_ok (bridge_event t p).
Proof.
  intros Ht s. unfold bridge_event, on_db. cbn [snd self outside fst].
  split; [apply incl_refl|]. split.
  - cbn [database]. apply appends_save_event; [apply appends_refl|].
    intros e He. unfold not_closed_event. rewrite He. exact Ht.
  - split; [intros _ Hu; split; [exact Hu | reflexivity] | intros _; reflexivity].
Qed.

Lemma bridge_ok_count (final : bool) : bridge_ok (count_final_drain final).
Proof.
  intro s. unfold count_final_drain. cbn [snd self outside].
  apply step_ok_quiet; try reflexivity. apply incl_refl.
Qed.

Lemma bridge_ok_drain (final : bool) : bridge_ok (_drain_ai_events final).
Proof.
  unfold _drain_ai_events.
  apply bridge_ok_bind; [apply bridge_ok_count | intros _].
  intro s. unfold bind, get_self. cbn [snd].
  destruct (Bridge.ai_ws (self s)) as [k|] eqn:Hk; [|apply step_ok_refl].
  exact (proj1 (drain_loop_effects _ (inbox k) s k Hk eq_refl)).
Qed.

Lemma bridge_ok_handle (msg : twilio_msg) : bridge_ok (handle_twilio_event msg).
Proof.
  destruct msg as [start_info | [audio|] | stop | | e]; unfold handle_twilio_event.
  - apply bridge_ok_bind; [|intros _; apply bridge_ok_send].
    apply bridge_ok_event. discriminate.
  - apply bridge_ok_bind; [apply bridge_ok_send | intros _].
    apply bridge_ok_bind; [apply bridge_ok_send | intros _].
    apply bridge_ok_drain.
  - apply bridge_ok_raise.
  - apply bridge_ok_bind; [apply bridge_ok_send | intros _].
    apply bridge_ok_bind; [apply bridge_ok_drain | intros _].
    apply bridge_ok_event. discriminate.
  - apply bridge_ok_ret.
  - apply bridge_ok_raise.
Qed.

Lemma bridge_ok_start : bridge_ok start.
Proof.
  unfold start. apply bridge_ok_bind; [|intros _; apply bridge_ok_send].
  intro s. destruct (dial (outside s)) as [|[k|] rest] eqn:Hd;
    cbn [snd self outside].
  - apply step_ok_refl.
  - split.
    { unfold call_frames. simpl. rewrite Hd. simpl.
      apply incl_appr, incl_refl. }
    split; [apply appends_refl|].
    split; [intros _ Hu; split; [exact Hu | reflexivity]
           | intros _; reflexivity].
  - split.
    { unfold call_frames. simpl. rewrite Hd. simpl. apply incl_refl. }
    split; [apply appends_refl|].
    split; [intros _ Hu; split; [exact Hu | reflexivity]
           | intros _; reflexivity].
Qed.

Lemma handler_ok_bind {A B} (m : M handler A) (k : A -> M handler B) :
  handler_ok m -> (forall a, handler_ok (k a)) -> handler_ok (bind m k).
Proof.
  intros Hm Hk h. unfold bind. specialize (Hm h).
  destruct (m h) as [[a|e] h1]; cbn [snd] in *.
  - eapply step_ok_trans; [exact Hm | apply Hk].
  - exact Hm.
Qed.

Lemma handler_ok_ret {A} (a : A) : handler_ok (ret a).
Proof. intro h. apply step_ok_refl. Qed.

Lemma handler_ok_raise {A} (e : exn) : handler_ok (@raise handler A e).
Proof. intro h. apply step_ok_refl. Qed.

Lemma handler_ok_event (t : string) (p : pyval) :
  t <> "STREAM_CLOSED" -> handler_ok (handler_event t p).
Proof.
  intros Ht h. unfold handler_event. cbn [snd bridge world_of].
  split; [apply incl_refl|]. split.
  - cbn [database]. apply appends_save_event; [apply appends_refl|].
    intros e He. unfold not_closed_event. rewrite He. exact Ht.
  - split; [intros _ Hu; split; [exact Hu | reflexivity] | intros _; reflexivity].
Qed.

Lemma on_bridge_state {A} (b : Bridge.t) (m : M bridge_world A) (h : handler) :
  bridge (snd (on_bridge b m h)) = Some (self (snd (m (mk_bw b (world_of h)))))
  /\ world_of (snd (on_bridge b m h)) = outside (snd (m (mk_bw b (world_of h))))
  /\ call_sid (snd (on_bridge b m h)) = call_sid h.
Proof.
  unfold on_bridge. destruct (m (mk_bw b (world_of h))) as [r s].
  repeat split.
Qed.

(** A method run on the bridge the handler holds. *)
Lemma handler_ok_own_bridge (m : M bridge_world unit) :
  bridge_ok m ->
  handler_ok (fun h => match bridge h with
                       | Some b => on_bridge b m h
                       | None => (Ok tt, h)
                       end).
Proof.
  intros Hm h. destruct (bridge h) as [b|] eqn:Hb.
  - destruct (on_bridge_state b m h) as (E1 & E2 & _). rewrite E1, E2.
    exact (Hm (mk_bw b (world_of h))).
  - cbn [snd]. rewrite Hb. apply step_ok_refl.
Qed.

(** A method run on a bridge just made, which replaces the one held. *)
Lemma handler_ok_new_bridge {A} (sid phone : string) (m : M bridge_world A) :
  bridge_ok m -> handler_ok (on_bridge (Bridge.init sid phone) m).
Proof.
  intros Hm h.
  destruct (on_bridge_state (Bridge.init sid phone) m h) as (E1 & E2 & _).
  rewrite E1, E2.
  eapply step_ok_trans; [|exact (Hm (mk_bw (Bridge.init sid phone) (world_of h)))].
  cbn [self outside]. split.
  { unfold call_frames. simpl. apply incl_appr, incl_refl. }
  split; [apply appends_refl|].
  split; [intros _ _; split; reflexivity | intros _; reflexivity].
Qed.

Lemma handler_ok_loop (incoming : list ws_in) : handler_ok (media_loop incoming).
Proof.
  induction incoming as [|x rest IH]; simpl.
  - apply handler_ok_raise.
  - destruct x as [msg | | e].
    + apply handler_ok_bind.
      * destruct msg as [start_info | payload | stop | | e];
          try apply handler_ok_ret; try apply handler_ok_raise.
        apply handler_ok_bind; [intro h; apply step_ok_refl | intros _].
        apply handler_ok_bind; [apply handler_ok_event; discriminate | intros _].
        apply handler_ok_new_bridge, bridge_ok_start.
      * intros _. apply handler_ok_bind; [|intros _; exact IH].
        apply handler_ok_own_bridge, bridge_ok_handle.
    + apply handler_ok_ret.
    + apply handler_ok_raise.
Qed.

End MethodFacts.

Section HandlerFacts.

Lemma events_handler_event t p h :
  events (database (world_of (snd (handler_event t p h))))
  = events (database (world_of h))
    ++ [CallEvent.mk (next_id (map CallEvent.id (events (database (world_of h)))))
          (or_empty (call_sid h)) t p
          (wall (database (world_of h)) (reads (database (world_of h))))].
Proof. reflexivity. Qed.

(** The whole handler: the log grows by events other than STREAM_CLOSED
    and then by exactly one STREAM_CLOSED; the bridge's socket, if any, is
    closed; redirects and callbacks need their calls. *)
Lemma media_stream_effects (incoming : list ws_in) (h : handler) :
  let h' := snd (media_stream incoming h) in
  (exists new ev,
      events (database (world_of h'))
      = events (database (world_of h)) ++ new ++ [ev]
      /\ CallEvent.event_type ev = "STREAM_CLOSED"
      /\ Forall not_closed_event new)
  /\ (forall b k, bridge h' = Some b -> Bridge.ai_ws b = Some k ->
                  is_closed k = true)
  /\ (Forall (fun ev => qualifying_call ev = false)
        (call_frames (bridge h) (world_of h)) ->
      unqualified (bridge h) ->
      redirected (world_of h') = redirected (world_of h))
  /\ (Forall (fun ev => callback_call ev = false)
        (call_frames (bridge h) (world_of h)) ->
      callbacks (database (world_of h'))
      = callbacks (database (world_of h))).
Proof.
  cbn zeta. unfold media_stream.
  generalize (handler_ok_loop incoming h).
  destruct (media_loop incoming h) as [r h1]. cbn [snd].
  intros (_ & (new & Hev & Hnew) & HQ & HC).
  set (h2 := match r with
             | Ok _ => (Ok tt, h1)
             | Raise e =>
                 if is_Exception e
                 then handler_event "STREAM_ERROR"
                        (PDict [("error", PStr (str_of_exn e))]) h1
                 else (Raise e, h1)
             end).
  assert (H2 : bridge (snd h2) = bridge h1
               /\ redirected (world_of (snd h2)) = redirected (world_of h1)
               /\ callbacks (database (world_of (snd h2)))
                  = callbacks (database (world_of h1))
               /\ exists new2,
                    events (database (world_of (snd h2)))
                    = events (database (world_of h1)) ++ new2
                    /\ Forall not_closed_event new2).
  { subst h2. destruct r as [u|e]; [|destruct (is_Exception e)]; cbn [snd].
    - repeat split. exists []. rewrite app_nil_r. split; [reflexivity|constructor].
    - repeat split. eexists. split; [apply events_handler_event|].
      constructor; [discriminate | constructor].
    - repeat split. exists []. rewrite app_nil_r. split; [reflexivity|constructor]. }
  destruct h2 as [r2 h2']. cbn [snd] in *.
  destruct H2 as (Hb & Hr & Hc & new2 & Hev2 & Hnew2).
  split; [|split; [|split]].
  - exists (new ++ new2). eexists. split; [|split].
    + rewrite events_handler_event. cbn [world_of call_sid].
      rewrite Hev2, Hev, <- !app_assoc. reflexivity.
    + reflexivity.
    + apply Forall_app; split; assumption.
  - cbn [bridge]. intros b k Eb Ek.
    destruct (bridge h2') as [b2|]; [|discriminate Eb].
    inversion Eb; subst b. unfold close, with_socket in Ek. simpl in Ek.
    destruct (Bridge.ai_ws b2) as [k2|]; [|discriminate Ek].
    inversion Ek; subst k. reflexivity.
  - intros Hf Hu. unfold handler_event.
    cbn [snd world_of redirected bridge call_sid]. rewrite Hr.
    exact (proj2 (HQ Hf Hu)).
  - intros Hf. unfold handler_event.
    cbn [snd world_of database bridge call_sid].
    rewrite callbacks_save_event, Hc. apply HC, Hf.
Qed.

Lemma final_drains_event t p s :
  final_drains (outside (snd (bridge_event t p s))) = final_drains (outside s).
Proof. reflexivity. Qed.

Lemma final_drains_drain (final : bool) (s : bridge_world) (k : socket) :
  Bridge.ai_ws (self s) = Some k ->
  final_drains (outside (snd (_drain_ai_events final s)))
  = ((if final then 1 else 0) + final_drains (outside s))%nat.
Proof.
  intro Hk. unfold _drain_ai_events, bind, count_final_drain, get_self.
  cbn [self Bridge.ai_ws]. rewrite Hk.
  match goal with
  | |- context [drain_loop ?t ?q ?s0] =>
      rewrite (proj2 (drain_loop_effects t q s0 k Hk eq_refl))
  end.
  cbn [outside final_drains]. destruct final; reflexivity.
Qed.

(** The stop message on a bridge whose commit is sent. *)
Lemma stop_sent (s : bridge_world) (k : socket) (stop : pyval) :
  Bridge.ai_ws (self s) = Some k ->
  send_faults k = [] \/ (exists rest, send_faults k = false :: rest) ->
  final_drains (outside (snd (handle_twilio_event (TwStop stop) s)))
  = S (final_drains (outside s)).
Proof.
  intros Hk Hs. unfold handle_twilio_event. unfold bind at 1.
  assert (Hsend : exists k', ai_send InputAudioBufferCommit s
                             = (Ok tt, mk_bw (Bridge.mk (Bridge.call_sid (self s))
                                                (Bridge.phone (self s)) (Some k')
                                                (Bridge.qualified (self s)))
                                         (outside s))).
  { unfold ai_send, with_socket. rewrite Hk.
    destruct Hs as [E | [rest E]]; rewrite E; eexists; reflexivity. }
  destruct Hsend as [k' Hsend]. rewrite Hsend.
  set (s1 := mk_bw _ (outside s)).
  assert (Hk1 : Bridge.ai_ws (self s1) = Some k') by reflexivity.
  unfold bind.
  generalize (final_drains_drain true s1 k' Hk1).
  destruct (_drain_ai_events true s1) as [[u|e] s2]; cbn [snd]; intro Hd.
  - rewrite final_drains_event. exact Hd.
  - exact Hd.
Qed.

(** The stop message on a bridge whose commit fails to send. *)
Lemma stop_not_sent (s : bridge_world) (k : socket) (stop : pyval)
    (rest : list bool) :
  Bridge.ai_ws (self s) = Some k ->
  send_faults k = true :: rest ->
  handle_twilio_event (TwStop stop) s
  = (Raise ConnectionClosed,
     mk_bw (with_socket
              (fun k => mk_socket (inbox k) rest (sent k) (is_closed k))
              (self s)) (outside s)).
Proof.
  intros Hk Hs. unfold handle_twilio_event, bind, ai_send.
  rewrite Hk, Hs. reflexivity.
Qed.

End HandlerFacts.

(** C8, as the code has it.  Whatever the telephony side and the realtime
    session do, the handler's teardown writes exactly one STREAM_CLOSED
    event, as the last event of the log, and closes the bridge's socket.  A
    stop message handled by a connected bridge whose commit is sent enters
    the final drain exactly once.  When sending the commit fails, the
    exception leaves [handle_twilio_event] at once: there is no drain (the
    socket's pending events stay unread), no CALL_STOP event, and the store
    is untouched. *)
Theorem stop_drain_and_teardown :
  (forall (incoming : list ws_in) (h : handler),
      let h' := snd (media_stream incoming h) in
      (exists new ev,
          events (database (world_of h'))
          = events (database (world_of h)) ++ new ++ [ev]
          /\ CallEvent.event_type ev = "STREAM_CLOSED"
          /\ Forall not_closed_event new)
      /\ (forall b k, bridge h' = Some b -> Bridge.ai_ws b = Some k ->
                      is_closed k = true))
  /\ (forall (s : bridge_world) (k : socket) (stop : pyval),
         Bridge.ai_ws (self s) = Some k ->
         send_faults k = [] \/ (exists rest, send_faults k = false :: rest) ->
         final_drains (outside (snd (handle_twilio_event (TwStop stop) s)))
         = S (final_drains (outside s)))
  /\ (forall (s : bridge_world) (k : socket) (stop : pyval) (rest : list bool),
         Bridge.ai_ws (self s) = Some k ->
         send_faults k = true :: rest ->
         handle_twilio_event (TwStop stop) s
         = (Raise ConnectionClosed,
            mk_bw (with_socket
                     (fun k => mk_socket (inbox k) rest (sent k) (is_closed k))
                     (self s)) (outside s))).
Proof.
  split; [|split].
  - intros incoming h.
    destruct (media_stream_effects incoming h) as (H1 & H2 & _).
    split; assumption.
  - exact stop_sent.
  - exact stop_not_sent.
Qed.

Lemma stop_drain_and_teardown_witness :
  Bridge.ai_ws (self sample_bridge_world) = Some (mk_socket [] [] [] false)
  /\ final_drains
       (outside (snd (handle_twilio_event (TwStop (PDict [])) sample_bridge_world)))
     = 1%nat.
Proof.
  split; [reflexivity|].
  exact (proj1 (proj2 stop_drain_and_teardown) sample_bridge_world
           (mk_socket [] [] [] false) (PDict []) eq_refl (or_introl eq_refl)).
Defined.

(** C8 as stated fails: a call whose stop message meets a failing send.  The
    commit raises, so the final drain is never entered and the lead_detect
    call the session had pending stays unread in the socket; the handler
    logs STREAM_ERROR and, once, STREAM_CLOSED. *)
Lemma stop_with_failing_send_skips_drain :
  let h' := snd (media_stream [Receives start_msg; Receives (TwStop (PDict []))]
                   (new_handler failing_commit_env)) in
  final_drains (world_of h') = 0%nat
  /\ map CallEvent.event_type (events (database (world_of h')))
     = ["STREAM_START"; "CALL_START"; "STREAM_ERROR"; "STREAM_CLOSED"]
  /\ option_map (fun b => option_map inbox (Bridge.ai_ws b)) (bridge h')
     = Some (Some [Arrives 0 (Ok (lead_detect_frame [("interest", PStr "yes")]))]).
Proof. cbv zeta. repeat split. Qed.

(** C9, as the code has it.  In one streaming call, from a handler that
    has no bridge yet: no call is redirected unless the realtime session
    delivers a lead_detect call with interest yes or maybe, and no Callback
    row is written unless it delivers a lead_detect call with interest
    later and a callback window.  So the two side effects exclude each
    other in every call where one of the two kinds of lead_detect call is
    missing; nothing else keeps them apart. *)
Theorem transfer_and_callback_need_their_calls :
  forall (incoming : list ws_in) (e : env),
    let h' := snd (media_stream incoming (new_handler e)) in
    (Forall (fun ev => qualifying_call ev = false) (call_frames None e) ->
     redirected (world_of h') = redirected e)
    /\ (Forall (fun ev => callback_call ev = false) (call_frames None e) ->
        callbacks (database (world_of h')) = callbacks (database e))
    /\ (Forall (fun ev => qualifying_call ev = false) (call_frames None e)
        \/ Forall (fun ev => callback_call ev = false) (call_frames None e) ->
        ~ (redirected (world_of h') <> redirected e
           /\ callbacks (database (world_of h')) <> callbacks (database e))).
Proof.
  intros incoming e.
  destruct (media_stream_effects incoming (new_handler e)) as (_ & _ & HQ & HC).
  assert (HQ' : Forall (fun ev => qualifying_call ev = false) (call_frames None e) ->
                redirected (world_of (snd (media_stream incoming (new_handler e))))
                = redirected e).
  { intro Hf. apply HQ; [exact Hf | exact I]. }
  split; [exact HQ'|]. split; [exact HC|].
  intros [Hf | Hf] [Hr Hc].
  - apply Hr, HQ', Hf.
  - apply Hc, HC, Hf.
Qed.

Lemma transfer_and_callback_need_their_calls_witness :
  let h' := snd (media_stream
                   [Receives start_msg; Receives (TwMedia (Some (PStr "AAAA")))]
                   (new_handler callback_only_env)) in
  Forall (fun ev => qualifying_call ev = false) (call_frames None callback_only_env)
  /\ map Callback.window (callbacks (database (world_of h')))
     = [PStr "tomorrow 9am"]
  /\ redirected (world_of h') = [].
Proof.
  cbv zeta.
  assert (Hf : Forall (fun ev => qualifying_call ev = false)
                 (call_frames None callback_only_env)).
  { repeat constructor. }
  split; [exact Hf | split; [reflexivity|]].
  exact (proj1 (transfer_and_callback_need_their_calls
                  [Receives start_msg; Receives (TwMedia (Some (PStr "AAAA")))]
                  callback_only_env) Hf).
Defined.

(** C9 as stated fails: in one call the session reports interest yes, then
    later with a callback window, then requests the transfer with consent;
    the bridge writes the Callback row and redirects the call. *)
Lemma callback_and_transfer_in_one_call :
  let h' := snd (media_stream
                   [Receives start_msg; Receives (TwMedia (Some (PStr "AAAA")))]
                   (new_handler both_env)) in
  callbacks (database both_env) = [] /\ redirected both_env = []
  /\ map Callback.window (callbacks (database (world_of h')))
     = [PStr "tomorrow 9am"]
  /\ redirected (world_of h') = ["CA100"]
  /\ map CallEvent.event_type (events (database (world_of h')))
     = ["STREAM_START"; "CALL_START"; "AI_TOOL_CALL"; "AI_TOOL_CALL";
        "OUTCOME_CALLBACK"; "AI_TOOL_CALL"; "OUTCOME_TRANSFER"; "STREAM_CLOSED"].
Proof. cbv zeta. repeat split. Qed.

Section LaterFacts.

Lemma eq_str_true (v : pyval) (t : string) : eq_str v t = true -> v = PStr t.
Proof.
  destruct v; simpl; try discriminate.
  intro H. apply String.eqb_eq in H. subst. reflexivity.
Qed.

(** What [lead_detect_args] recognises. *)
Lemma lead_detect_args_inv (ev : pyval) (a : dict) :
  lead_detect_args ev = Some a ->
  exists d, ev = PDict d
            /\ get d "type" = PStr "response.function_call"
            /\ lookup "name" d = Some (PStr "lead_detect")
            /\ get_or d "arguments" (PDict []) = PDict a.
Proof.
  unfold lead_detect_args. destruct ev as [| | | |l|d]; try discriminate.
  destruct (eq_str (get d "type") "response.function_call") eqn:Et;
    [|discriminate].
  destruct (lookup "name" d) as [fn|] eqn:En; [|discriminate].
  destruct (eq_str fn "lead_detect") eqn:Ef; [|discriminate].
  destruct (get_or d "arguments" (PDict [])) as [| | | |l|a'] eqn:Ea;
    try discriminate.
  intro H. inversion H; subst a'. exists d.
  apply eq_str_true in Et. apply eq_str_true in Ef. subst fn.
  repeat split; assumption.
Qed.

Lemma text_or_none_falsy (v : pyval) :
  text_or_none v = true -> text_or_falsy v.
Proof.
  destruct v as [| | |t| |]; try discriminate; intros _.
  - exists "". reflexivity.
  - exists (if PyStr.nonempty t then t else ""). unfold py_or, truthy.
    destruct (PyStr.nonempty t); reflexivity.
Qed.

(** A record of text fields is one the decision step can read. *)
Lemma text_record_well_formed (a : dict) : text_record a -> well_formed a.
Proof.
  intros [Hl _]. unfold lead_fields_text in Hl.
  inversion Hl as [|k1 l1 H1 Hl1]; subst.
  inversion Hl1 as [|k2 l2 H2 Hl2]; subst.
  inversion Hl2 as [|k3 l3 H3 Hl3]; subst.
  repeat split; apply text_or_none_falsy; assumption.
Qed.

(** The window [create_callback] stores for a record without one. *)
Lemma default_window (a : dict) :
  truthy (get a "callback_window") = false ->
  py_or (get_or a "callback_window" (PStr "next business day"))
    (PStr "next business day")
  = PStr "next business day".
Proof.
  unfold get, get_or, py_or.
  destruct (lookup "callback_window" a) as [v|]; [|reflexivity].
  intro H. rewrite H. reflexivity.
Qed.

(** A lead_detect call with interest later and no callback window. *)
Lemma later_without_window (ev : pyval) (a : dict) (s : bridge_world) :
  lead_detect_args ev = Some a ->
  get a "interest" = PStr "later" ->
  truthy (get a "callback_window") = false ->
  on_ai_event ev s
  = (Ok true,
     mk_bw (self s)
       (mk_env
          (snd (upsert_lead (Bridge.phone (self s))
                  [(Lead.Interest, get_or a "interest" (PStr ""));
                   (Lead.Price_range, get_or a "price_range" (PStr ""));
                   (Lead.Timing, get_or a "timing" (PStr ""));
                   (Lead.Condition, get_or a "condition" (PStr ""));
                   (Lead.Owner_status, get_or a "owner_status" (PStr ""))]
                  (save_event "AI_TOOL_CALL"
                     (PDict [("name", PStr "lead_detect"); ("args", PDict a)])
                     (Bridge.call_sid (self s)) (database (outside s)))))
          (dial (outside s)) (redirected (outside s))
          (redirect_faults (outside s)) (final_drains (outside s)))).
Proof.
  intros Hargs Hi Hw.
  destruct (lead_detect_args_inv ev a Hargs) as (d & -> & Ht & Hn & Ha).
  run_bridge. rewrite Ht, Hn, Ha, Hi, Hw. reflexivity.
Qed.

End LaterFacts.

(** C10, as the code has it (a later interest without a callback window).
    In the streaming bridge a lead_detect tool call with interest "later"
    whose callback_window is missing or empty (any falsy value) is logged
    as AI_TOOL_CALL and that is all it writes besides the lead: no
    Callback row, no default window, no OUTCOME_CALLBACK event, no
    redirect, the bridge as it was; and when the five lead fields of the
    call are text or [None] the drain goes on.  In the turn-based path a
    record of text fields whose interest reads "later" gives the callback
    outcome with one Callback row and one OUTCOME_CALLBACK event, the
    window being "next business day" when the record has none. *)
Theorem later_without_window_differs :
  (forall (ev : pyval) (a : dict) (s : bridge_world),
      lead_detect_args ev = Some a ->
      get a "interest" = PStr "later" ->
      truthy (get a "callback_window") = false ->
      let (r, s') := on_ai_event ev s in
      (lead_fields_text a -> r = Ok true)
      /\ callbacks (database (outside s')) = callbacks (database (outside s))
      /\ (exists e,
             events (database (outside s'))
             = events (database (outside s)) ++ [e]
             /\ CallEvent.event_type e = "AI_TOOL_CALL")
      /\ redirected (outside s') = redirected (outside s)
      /\ self s' = self s)
  /\ (forall (w : world) (a : dict) (lead_id : Z),
         text_record a ->
         norm_interest a = Ok "later" ->
         let (r, w') := _decide_and_apply a lead_id w in
         exists cb ev,
           r = Ok (Some (CallbackOutcome (Callback.id cb) (Callback.window cb)
                           callback_message))
           /\ callbacks (store w') = callbacks (store w) ++ [cb]
           /\ Callback.lead_id cb = lead_id
           /\ Callback.window cb
              = py_or (get_or a "callback_window" (PStr "next business day"))
                  (PStr "next business day")
           /\ (truthy (get a "callback_window") = false ->
               Callback.window cb = PStr "next business day")
           /\ events (store w') = events (store w) ++ [ev]
           /\ CallEvent.event_type ev = "OUTCOME_CALLBACK").
Proof.
  split.
  - intros ev a s Hargs Hi Hw.
    rewrite (later_without_window ev a s Hargs Hi Hw).
    cbn [self outside database redirected].
    split; [reflexivity|].
    split; [rewrite callbacks_upsert_lead, callbacks_save_event; reflexivity|].
    split; [|split; reflexivity].
    eexists. split.
    + rewrite events_upsert_lead, events_save_event. reflexivity.
    + reflexivity.
  - intros w a lead_id Htx Hl.
    destruct (well_formed_reads a (text_record_well_formed a Htx))
      as (i & pr & tm & Hi & Hp & Ht).
    rewrite (decide_readable a lead_id w i pr tm Hi Hp Ht). cbv zeta.
    rewrite Hl in Hi. inversion Hi; subst i.
    change (str_in "later" ["dnc"; "no"]) with false.
    change (String.eqb "later" "later") with true.
    cbv beta iota.
    do 2 eexists.
    split; [reflexivity|]. split; [reflexivity|]. split; [reflexivity|].
    split; [reflexivity|]. split; [|split; reflexivity].
    intro Hw. cbn [fst create_callback Callback.window]. apply default_window, Hw.
Qed.

Lemma later_without_window_differs_witness :
  let a := [("interest", PStr "later"); ("callback_window", PStr "")] in
  let ev := lead_detect_frame a in
  lead_detect_args ev = Some a
  /\ lead_fields_text a
  /\ text_record a
  /\ norm_interest a = Ok "later"
  /\ fst (on_ai_event ev sample_bridge_world) = Ok true
  /\ callbacks (database (outside (snd (on_ai_event ev sample_bridge_world))))
     = callbacks (database (outside sample_bridge_world))
  /\ map Callback.window
       (callbacks (store (snd (_decide_and_apply a 1 (sample_world 8)))))
     = [PStr "next business day"].
Proof.
  cbv zeta.
  assert (Hl : lead_fields_text
                 [("interest", PStr "later"); ("callback_window", PStr "")]).
  { repeat constructor. }
  assert (Htx : text_record
                  [("interest", PStr "later"); ("callback_window", PStr "")]).
  { split; [exact Hl | split; reflexivity]. }
  split; [reflexivity|]. split; [exact Hl|]. split; [exact Htx|].
  split; [reflexivity|].
  destruct later_without_window_differs as [H1 H2].
  generalize (H1 (lead_detect_frame
                    [("interest", PStr "later"); ("callback_window", PStr "")])
                [("interest", PStr "later"); ("callback_window", PStr "")]
                sample_bridge_world eq_refl eq_refl eq_refl).
  generalize (H2 (sample_world 8)
                [("interest", PStr "later"); ("callback_window", PStr "")] 1
                Htx eq_refl).
  destruct (on_ai_event _ sample_bridge_world) as [r s'].
  destruct (_decide_and_apply _ 1 (sample_world 8)) as [r2 w2].
  intros (cb & ev & _ & Hcb & _ & _ & Hwin & _) (Hr & Hc & _).
  cbn [fst snd]. split; [exact (Hr Hl)|]. split; [exact Hc|].
  rewrite Hcb. cbn [sample_world store sample_db callbacks app map].
  rewrite (Hwin eq_refl). reflexivity.
Defined.

(** C10 as stated fails in its last part: in the turn-based path a record
    whose interest is "later" and whose timing is the number 30 makes the
    decision step raise AttributeError before the test on the interest,
    and no Callback row is written. *)
Lemma later_with_number_timing_raises :
  let a := [("interest", PStr "later"); ("timing", PInt 30)] in
  extract_analysis (Ok (PDict a)) = a
  /\ norm_interest a = Ok "later"
  /\ _decide_and_apply a 1 (sample_world 8)
     = (Raise AttributeError, sample_world 8)
  /\ callbacks (store (snd (_decide_and_apply a 1 (sample_world 8)))) = [].
Proof.
  cbv zeta. repeat split.
Qed.

(** The turn-based path on the same record: the default window. *)
Example later_without_window_turn_based :
  map Callback.window
    (callbacks
       (store (snd (_decide_and_apply
                      [("interest", PStr "later"); ("callback_window", PStr "")]
                      1 (sample_world 8)))))
  = [PStr "next business day"].
Proof. reflexivity. Qed.

(* ===================================================================== *)
(** * Further properties of the lead store *)
(* ===================================================================== *)

Section KeyFacts.

Lemma fold_max_ge (r : list Z) :
  forall i x, x = i \/ In x r -> x <= fold_left Z.max r i.
Proof.
  induction r as [|y r IH]; intros i x H; simpl.
  - destruct H as [H | []]. lia.
  - destruct H as [H | [H | H]].
    + transitivity (Z.max i y); [lia | apply IH; left; reflexivity].
    + transitivity (Z.max i y); [lia | apply IH; left; reflexivity].
    + apply IH. right. exact H.
Qed.

Lemma next_id_fresh (ids : list Z) (x : Z) : In x ids -> x < next_id ids.
Proof.
  destruct ids as [|i r]; intro H; [destruct H|].
  unfold next_id.
  assert (x <= fold_left Z.max r i).
  { apply fold_max_ge. destruct H; [left; symmetry | right]; assumption. }
  lia.
Qed.

Lemma next_id_pos (ids : list Z) :
  Forall (fun i => 0 < i) ids -> 0 < next_id ids.
Proof.
  destruct ids as [|i r]; intro H; [reflexivity|].
  inversion H; subst.
  assert (i < next_id (i :: r)) by (apply next_id_fresh; left; reflexivity).
  lia.
Qed.

Lemma NoDup_snoc {A} (l : list A) (x : A) :
  NoDup l -> ~ In x l -> NoDup (l ++ [x]).
Proof.
  intros Hnd Hx. induction Hnd as [|y l Hy Hnd IH]; simpl.
  - constructor; [intros [] | constructor].
  - constructor.
    + rewrite in_app_iff. intros [H | [H | []]].
      * exact (Hy H).
      * apply Hx. left. symmetry. exact H.
    + apply IH. intro H. apply Hx. right. exact H.
Qed.

Lemma keys_ok_next (ids : list Z) : keys_ok ids -> keys_ok (ids ++ [next_id ids]).
Proof.
  intros [Hnd Hpos]. split.
  - apply NoDup_snoc; [exact Hnd|].
    intro H. apply next_id_fresh in H. lia.
  - apply Forall_app. split; [exact Hpos|].
    constructor; [apply next_id_pos, Hpos | constructor].
Qed.

Lemma map_write_first {B} (f : Lead.t -> B) (sel : Lead.t -> bool)
    (new old : Lead.t) (ls : list Lead.t) :
  find sel ls = Some old -> f new = f old ->
  map f (write_first sel new ls) = map f ls.
Proof.
  intros Hfind Hf. induction ls as [|l r IH]; simpl in *; [reflexivity|].
  destruct (sel l).
  - inversion Hfind; subst. simpl. rewrite Hf. reflexivity.
  - simpl. rewrite (IH Hfind). reflexivity.
Qed.

Lemma write_first_none (sel : Lead.t -> bool) (new : Lead.t) (ls : list Lead.t) :
  find sel ls = None -> write_first sel new ls = ls.
Proof.
  induction ls as [|l r IH]; simpl; [reflexivity|].
  destruct (sel l); [discriminate|].
  intro H. rewrite (IH H). reflexivity.
Qed.

Lemma new_lead_identity (p : string) (fs : fields) (c u : Z) :
  Lead.phone (new_lead p fs c u) = p
  /\ Lead.qualified (new_lead p fs c u) = false.
Proof.
  unfold new_lead.
  set (l0 := Lead.mk 0 p _ _ _ _ _ _ _ false c u).
  assert (H0 : Lead.phone l0 = p /\ Lead.qualified l0 = false) by (split; reflexivity).
  clearbody l0. revert l0 H0.
  induction fs as [|[k v] r IH]; intros l0 H0; simpl; [exact H0|].
  apply IH.
  destruct (setattr_identity k (column_default v) l0) as (_ & H2 & H3 & _).
  destruct H0. split; congruence.
Qed.

Lemma find_phone_none (p : string) (ls : list Lead.t) :
  first_by_phone p ls = None -> ~ In p (map Lead.phone ls).
Proof.
  unfold first_by_phone. intros H Hin.
  apply in_map_iff in Hin. destruct Hin as (l & Hl & Hin).
  apply (find_none _ _ H) in Hin. rewrite Hl, String.eqb_refl in Hin.
  discriminate.
Qed.

(** The leads table after [upsert_lead], in both cases. *)
Lemma leads_upsert_lead (p : string) (fs : fields) (d : db) :
  leads (snd (upsert_lead p fs d))
  = match first_by_phone p (leads d) with
    | None => leads d ++ [fst (upsert_lead p fs d)]
    | Some _ =>
        write_first (fun l => String.eqb (Lead.phone l) p)
          (fst (upsert_lead p fs d)) (leads d)
    end.
Proof.
  unfold upsert_lead. destruct (first_by_phone p (leads d)); reflexivity.
Qed.

Lemma upsert_lead_new (p : string) (fs : fields) (d : db) :
  first_by_phone p (leads d) = None ->
  fst (upsert_lead p fs d)
  = Lead.set_id (next_id (map Lead.id (leads d)))
      (new_lead p fs (wall d (reads d)) (wall d (S (reads d)))).
Proof. unfold upsert_lead. intro H. rewrite H. reflexivity. Qed.

Lemma leads_ok_upsert (p : string) (fs : fields) (d : db) :
  keys_ok (map Lead.id (leads d)) -> NoDup (map Lead.phone (leads d)) ->
  keys_ok (map Lead.id (leads (snd (upsert_lead p fs d))))
  /\ NoDup (map Lead.phone (leads (snd (upsert_lead p fs d)))).
Proof.
  intros Hid Hph. rewrite leads_upsert_lead.
  destruct (first_by_phone p (leads d)) as [old|] eqn:Hfind.
  - rewrite (upsert_lead_existing p fs d old Hfind). cbn [fst].
    destruct (merge_fields_identity fs old) as (H1 & H2 & _).
    rewrite (map_write_first Lead.id _ _ old), (map_write_first Lead.phone _ _ old);
      try exact Hfind; try assumption.
    split; assumption.
  - rewrite (upsert_lead_new p fs d Hfind). rewrite !map_app. cbn [map].
    split.
    + apply keys_ok_next, Hid.
    + apply NoDup_snoc; [exact Hph|].
      change (Lead.phone (Lead.set_id _ ?l)) with (Lead.phone l).
      rewrite (proj1 (new_lead_identity _ _ _ _)).
      apply find_phone_none, Hfind.
Qed.

Lemma leads_ok_mark (i : Z) (q : bool) (d : db) :
  map Lead.id (leads (mark_qualified i q d)) = map Lead.id (leads d)
  /\ map Lead.phone (leads (mark_qualified i q d)) = map Lead.phone (leads d).
Proof.
  unfold mark_qualified.
  destruct (get_lead i d) as [lead|] eqn:H; [|split; reflexivity].
  cbn [utcnow leads with_leads].
  split; apply (map_write_first _ _ _ lead); try exact H; reflexivity.
Qed.

Lemma db_ok_save_event t p c d : db_ok d -> db_ok (save_event t p c d).
Proof.
  intros (Hl & Hp & Hc & He). repeat split;
    try (exact (proj1 Hl)); try (exact (proj2 Hl)); try exact Hp;
    try (exact (proj1 Hc)); try (exact (proj2 Hc));
    rewrite events_save_event, map_app; apply keys_ok_next, He.
Qed.

Lemma db_ok_upsert_lead p fs d : db_ok d -> db_ok (snd (upsert_lead p fs d)).
Proof.
  intros (Hl & Hp & Hc & He).
  split; [apply leads_ok_upsert; assumption|].
  split; [apply leads_ok_upsert; assumption|].
  rewrite callbacks_upsert_lead, events_upsert_lead. split; assumption.
Qed.

Lemma db_ok_mark_qualified i q d : db_ok d -> db_ok (mark_qualified i q d).
Proof.
  intros (Hl & Hp & Hc & He). unfold db_ok.
  rewrite (proj1 (leads_ok_mark _ _ _)), (proj2 (leads_ok_mark _ _ _)).
  rewrite callbacks_mark_qualified, events_mark_qualified.
  repeat split; try apply Hl; try apply Hc; try apply He; exact Hp.
Qed.

Lemma db_ok_create_callback i w n d :
  db_ok d -> db_ok (snd (create_callback i w n d)).
Proof.
  intros (Hl & Hp & Hc & He).
  split; [exact Hl|]. split; [exact Hp|]. split; [|exact He].
  unfold create_callback. cbn [utcnow callbacks with_callbacks snd].
  rewrite map_app. apply keys_ok_next, Hc.
Qed.

Lemma sample_db_ok : db_ok sample_db.
Proof.
  unfold db_ok, keys_ok. simpl.
  repeat split; repeat constructor; try (intros []); lia.
Defined.

End KeyFacts.

(** X1 (the store keeps its keys). On a database whose three tables have
    distinct positive primary keys and at most one lead per phone, each of
    the four writing operations of the store leaves such a database:
    [save_event], [upsert_lead] (creating or merging), [mark_qualified] and
    [create_callback] never duplicate a key and never give a second row to a
    phone. *)
Theorem store_keeps_keys :
  forall (d : db),
    db_ok d ->
    (forall t p c, db_ok (save_event t p c d))
    /\ (forall p fs, db_ok (snd (upsert_lead p fs d)))
    /\ (forall i q, db_ok (mark_qualified i q d))
    /\ (forall i w n, db_ok (snd (create_callback i w n d))).
Proof.
  intros d H. split; [|split; [|split]]; intros.
  - apply db_ok_save_event, H.
  - apply db_ok_upsert_lead, H.
  - apply db_ok_mark_qualified, H.
  - apply db_ok_create_callback, H.
Qed.

Lemma store_keeps_keys_witness :
  db_ok sample_db
  /\ db_ok (snd (upsert_lead "+15550199" [(Lead.Interest, PStr "later")]
                   sample_db))
  /\ db_ok (snd (create_callback 1 (PStr "") (PStr "") sample_db)).
Proof.
  assert (H := sample_db_ok).
  split; [exact H|].
  destruct (store_keeps_keys sample_db H) as (_ & H2 & _ & H4).
  split; [apply H2 | apply H4].
Defined.

Section RowFacts.

Lemma find_snoc {A} (sel : A -> bool) (l : list A) (x : A) :
  find sel (l ++ [x])
  = match find sel l with
    | Some y => Some y
    | None => if sel x then Some x else None
    end.
Proof.
  induction l as [|y l IH]; simpl; [reflexivity|].
  destruct (sel y); [reflexivity | exact IH].
Qed.

Lemma fold_setattr_untouched (c : Lead.column) (fs : fields) :
  forall l, ~ In c (map fst fs) ->
    Lead.getattr c
      (fold_left
         (fun l kv => Lead.setattr (fst kv) (column_default (snd kv)) l) fs l)
    = Lead.getattr c l.
Proof.
  induction fs as [|[c0 v0] r IH]; intros l Hnot; simpl; [reflexivity|].
  simpl in Hnot. rewrite IH.
  - apply getattr_setattr_other. intro E. apply Hnot. left. symmetry. exact E.
  - intro E. apply Hnot. right. exact E.
Qed.

Lemma fold_setattr_given (c : Lead.column) (v : pyval) (fs : fields) :
  forall l, NoDup (map fst fs) -> In (c, v) fs ->
    Lead.getattr c
      (fold_left
         (fun l kv => Lead.setattr (fst kv) (column_default (snd kv)) l) fs l)
    = column_default v.
Proof.
  induction fs as [|[c0 v0] r IH]; intros l Hnd Hin; [destruct Hin|].
  simpl in Hnd. inversion Hnd as [|x xs Hfresh Hnd']; subst.
  destruct Hin as [E | Hin]; simpl.
  - inversion E; subst c0 v0.
    rewrite (fold_setattr_untouched c r _ Hfresh).
    apply getattr_setattr_same.
  - apply IH; assumption.
Qed.

Lemma getattr_set_id (c : Lead.column) (i : Z) (l : Lead.t) :
  Lead.getattr c (Lead.set_id i l) = Lead.getattr c l.
Proof. destruct c; reflexivity. Qed.

(** With distinct keys, the first row of a phone is the first row of its
    key: a write through the key lands on the row the phone finds. *)
Lemma find_phone_write_id (p : string) (lead new : Lead.t) (ls : list Lead.t) :
  NoDup (map Lead.id ls) ->
  first_by_phone p ls = Some lead ->
  Lead.phone new = Lead.phone lead ->
  forall q,
    first_by_phone q
      (write_first (fun l => Lead.id l =? Lead.id lead) new ls)
    = if String.eqb q p then Some new else first_by_phone q ls.
Proof.
  unfold first_by_phone. intros Hnd Hfind Hph q.
  assert (Hp : Lead.phone lead = p).
  { apply find_some in Hfind. apply String.eqb_eq, (proj2 Hfind). }
  induction ls as [|l r IH]; simpl in *; [discriminate|].
  inversion Hnd as [|x xs Hfresh Hnd']; subst x xs.
  destruct (String.eqb (Lead.phone l) p) eqn:El.
  - inversion Hfind; subst l. rewrite Z.eqb_refl. simpl.
    rewrite Hph, Hp. rewrite (String.eqb_sym q p).
    destruct (String.eqb p q); reflexivity.
  - assert (Hid : (Lead.id l =? Lead.id lead) = false).
    { apply Z.eqb_neq. intro E. apply Hfresh. rewrite E.
      apply in_map. apply find_some in Hfind. exact (proj1 Hfind). }
    rewrite Hid. simpl.
    destruct (String.eqb (Lead.phone l) q) eqn:Elq.
    + destruct (String.eqb q p) eqn:Eq; [|reflexivity].
      apply String.eqb_eq in Eq. subst q. congruence.
    + apply IH; assumption.
Qed.

Lemma get_lead_of_phone (p : string) (lead : Lead.t) (d : db) :
  NoDup (map Lead.id (leads d)) ->
  find_lead_by_phone p d = Some lead ->
  get_lead (Lead.id lead) d = Some lead.
Proof.
  unfold get_lead, find_lead_by_phone, first_by_phone.
  intros Hnd Hfind.
  induction (leads d) as [|l r IH]; simpl in *; [discriminate|].
  inversion Hnd as [|x xs Hfresh Hnd']; subst x xs.
  destruct (String.eqb (Lead.phone l) p).
  - inversion Hfind; subst l. rewrite Z.eqb_refl. reflexivity.
  - destruct (Lead.id l =? Lead.id lead) eqn:E.
    + exfalso. apply Z.eqb_eq in E. apply Hfresh. rewrite E.
      apply in_map. apply find_some in Hfind. exact (proj1 Hfind).
    + apply IH; assumption.
Qed.

Lemma find_phone_mark (p : string) (lead : Lead.t) (q : bool) (d : db) :
  NoDup (map Lead.id (leads d)) ->
  find_lead_by_phone p d = Some lead ->
  forall p',
    find_lead_by_phone p' (mark_qualified (Lead.id lead) q d)
    = if String.eqb p' p
      then Some (Lead.set_updated_at (wall d (reads d))
                   (Lead.set_qualified q lead))
      else find_lead_by_phone p' d.
Proof.
  intros Hnd Hfind p'.
  unfold mark_qualified. rewrite (get_lead_of_phone p lead d Hnd Hfind).
  unfold find_lead_by_phone. cbn [utcnow leads with_leads].
  apply (find_phone_write_id p lead _ (leads d) Hnd Hfind). reflexivity.
Qed.

End RowFacts.

(** X2 (creating a lead). When [upsert_lead] is called for a phone that has
    no row, with keyword fields of distinct names whose values are text or
    [None], it appends exactly one row and returns it: the row is the one
    the phone finds afterwards, its key is larger than every key of the
    table, it is not qualified, every field passed as text holds that text
    (the empty string too), every field passed as [None] and every field
    not passed holds the empty string, the default of its column, and the
    rows of the other phones are found as before. *)
Theorem upsert_lead_creates :
  forall (p : string) (fs : fields) (d : db),
    find_lead_by_phone p d = None ->
    NoDup (map fst fs) ->
    Forall (fun kv => text_or_none (snd kv) = true) fs ->
    let lead := fst (upsert_lead p fs d) in
    let d' := snd (upsert_lead p fs d) in
    leads d' = leads d ++ [lead]
    /\ find_lead_by_phone p d' = Some lead
    /\ Lead.phone lead = p
    /\ Lead.qualified lead = false
    /\ (forall i, In i (map Lead.id (leads d)) -> i < Lead.id lead)
    /\ (forall c t, In (c, PStr t) fs -> Lead.getattr c lead = PStr t)
    /\ (forall c, In (c, PNone) fs -> Lead.getattr c lead = PStr "")
    /\ (forall c, ~ In c (map fst fs) -> Lead.getattr c lead = PStr "")
    /\ (forall q, q <> p -> find_lead_by_phone q d' = find_lead_by_phone q d).
Proof.
  intros p fs d Hnone Hnd _ lead d'.
  unfold find_lead_by_phone in *.
  assert (Hleads : leads d' = leads d ++ [lead]).
  { subst d' lead. rewrite leads_upsert_lead, Hnone. reflexivity. }
  assert (Hlead : lead = Lead.set_id (next_id (map Lead.id (leads d)))
                           (new_lead p fs (wall d (reads d))
                              (wall d (S (reads d))))).
  { subst lead. apply upsert_lead_new, Hnone. }
  assert (Hph : Lead.phone lead = p).
  { rewrite Hlead. exact (proj1 (new_lead_identity _ _ _ _)). }
  split; [exact Hleads|]. split.
  { rewrite Hleads. unfold first_by_phone in *. rewrite find_snoc, Hnone, Hph.
    rewrite String.eqb_refl. reflexivity. }
  split; [exact Hph|]. split.
  { rewrite Hlead. exact (proj2 (new_lead_identity _ _ _ _)). }
  split.
  { intros i Hi. rewrite Hlead. apply next_id_fresh, Hi. }
  split.
  { intros c t Hin. rewrite Hlead, getattr_set_id.
    apply (fold_setattr_given c (PStr t)); assumption. }
  split.
  { intros c Hin. rewrite Hlead, getattr_set_id.
    apply (fold_setattr_given c PNone); assumption. }
  split.
  { intros c Hc. rewrite Hlead, getattr_set_id. unfold new_lead.
    rewrite fold_setattr_untouched by exact Hc. destruct c; reflexivity. }
  intros q Hq. rewrite Hleads. unfold first_by_phone. rewrite find_snoc, Hph.
  destruct (find _ (leads d)); [reflexivity|].
  destruct (String.eqb p q) eqn:E; [|reflexivity].
  apply String.eqb_eq in E. congruence.
Qed.

Lemma upsert_lead_creates_witness :
  find_lead_by_phone "+15550199" sample_db = None
  /\ NoDup (map fst [(Lead.Interest, PStr "maybe"); (Lead.Timing, PNone)])
  /\ Forall (fun kv => text_or_none (snd kv) = true)
       [(Lead.Interest, PStr "maybe"); (Lead.Timing, PNone)]
  /\ map Lead.phone
       (leads (snd (upsert_lead "+15550199"
                      [(Lead.Interest, PStr "maybe"); (Lead.Timing, PNone)]
                      sample_db)))
     = ["+15550100"; "+15550199"]
  /\ Lead.timing
       (fst (upsert_lead "+15550199"
               [(Lead.Interest, PStr "maybe"); (Lead.Timing, PNone)] sample_db))
     = PStr "".
Proof.
  assert (Hnd : NoDup (map fst [(Lead.Interest, PStr "maybe"); (Lead.Timing, PNone)])).
  { repeat constructor; simpl; intuition discriminate. }
  assert (Htx : Forall (fun kv => text_or_none (snd kv) = true)
                  [(Lead.Interest, PStr "maybe"); (Lead.Timing, PNone)]).
  { repeat constructor. }
  split; [reflexivity|]. split; [exact Hnd|]. split; [exact Htx|].
  destruct (upsert_lead_creates "+15550199"
              [(Lead.Interest, PStr "maybe"); (Lead.Timing, PNone)] sample_db
              eq_refl Hnd Htx) as (H1 & _ & _ & _ & _ & _ & H7 & _).
  split.
  - rewrite H1. reflexivity.
  - apply (H7 Lead.Timing). right. left. reflexivity.
Defined.

(** X3 (qualifying through the key is seen through the phone). On a table
    with distinct keys, [mark_qualified] called with the key of the row a
    phone finds changes that row and no other: the phone then finds the same
    row with the flag set as asked, every field, the key and the phone as
    before, and every other phone finds what it found. Called with a key the
    table does not hold, it changes nothing at all. *)
Theorem mark_qualified_by_phone :
  forall (d : db) (p : string) (lead : Lead.t) (q : bool),
    NoDup (map Lead.id (leads d)) ->
    find_lead_by_phone p d = Some lead ->
    let d' := mark_qualified (Lead.id lead) q d in
    (exists lead',
        find_lead_by_phone p d' = Some lead'
        /\ Lead.qualified lead' = q
        /\ Lead.id lead' = Lead.id lead
        /\ Lead.phone lead' = Lead.phone lead
        /\ (forall c, Lead.getattr c lead' = Lead.getattr c lead))
    /\ (forall p', p' <> p ->
          find_lead_by_phone p' d' = find_lead_by_phone p' d)
    /\ length (leads d') = length (leads d)
    /\ (forall i, get_lead i d = None -> mark_qualified i q d = d).
Proof.
  intros d p lead q Hnd Hfind d'. subst d'.
  split; [|split; [|split]].
  - eexists. split.
    + rewrite (find_phone_mark p lead q d Hnd Hfind p), String.eqb_refl.
      reflexivity.
    + repeat split.
  - intros p' Hp'. rewrite (find_phone_mark p lead q d Hnd Hfind p').
    destruct (String.eqb p' p) eqn:E; [|reflexivity].
    apply String.eqb_eq in E. contradiction.
  - unfold mark_qualified.
    destruct (get_lead (Lead.id lead) d); [|reflexivity].
    cbn [utcnow leads with_leads]. apply length_write_first.
  - intros i Hi. unfold mark_qualified. rewrite Hi. reflexivity.
Qed.

Lemma mark_qualified_by_phone_witness :
  NoDup (map Lead.id (leads sample_db))
  /\ find_lead_by_phone "+15550100" sample_db = Some sample_lead
  /\ exists lead',
       find_lead_by_phone "+15550100" (mark_qualified 1 true sample_db)
       = Some lead'
       /\ Lead.qualified lead' = true.
Proof.
  assert (Hnd : NoDup (map Lead.id (leads sample_db))).
  { repeat constructor. intros []. }
  split; [exact Hnd|]. split; [reflexivity|].
  destruct (mark_qualified_by_phone sample_db "+15550100" sample_lead true
              Hnd eq_refl) as ((lead' & H1 & H2 & _) & _).
  exists lead'. split; assumption.
Defined.

(* ===================================================================== *)
(** * What every call keeps of the database *)
(* ===================================================================== *)

Section Keeping.

Variable I : db -> Prop.
Hypothesis HI : store_closed I.

Lemma keeps_bind {S A B} (view : S -> db) (m : M S A) (k : A -> M S B) :
  keeps view I m -> (forall a, keeps view I (k a)) -> keeps view I (bind m k).
Proof.
  intros Hm Hk s Hs. unfold bind.
  generalize (Hm s Hs). destruct (m s) as [[a|e] s1]; cbn [snd]; intro H1.
  - apply Hk, H1.
  - exact H1.
Qed.

Lemma keeps_ret {S A} (view : S -> db) (a : A) : keeps view I (ret a).
Proof. intros s Hs. exact Hs. Qed.

Lemma keeps_raise {S A} (view : S -> db) (e : exn) :
  keeps view I (@raise S A e).
Proof. intros s Hs. exact Hs. Qed.

Lemma keeps_lift {S A} (view : S -> db) (r : result A) :
  keeps view I (@lift_result S A r).
Proof. intros s Hs. exact Hs. Qed.

(** The turn-based orchestrator. *)
Lemma keeps_get_state : keeps store I get_state.
Proof. intros s Hs. exact Hs. Qed.

Lemma keeps_set_state f : keeps store I (set_state f).
Proof. intros s Hs. exact Hs. Qed.

Lemma keeps_log_event t p : keeps store I (log_event t p).
Proof. intros s Hs. apply HI, Hs. Qed.

Lemma keeps_snapshot : keeps store I _lead_snapshot.
Proof. intros s Hs. exact Hs. Qed.

Lemma keeps_update_lead a : keeps store I (_update_lead a).
Proof. intros s Hs. apply HI, Hs. Qed.

Lemma keeps_create_callback i w n :
  keeps store I (on_store (create_callback i w n)).
Proof.
  intros s Hs. unfold on_store.
  generalize (proj2 (proj2 (proj2 HI)) i w n (store s) Hs).
  destruct (create_callback i w n (store s)). intro H. exact H.
Qed.

Lemma keeps_mark_qualified i q :
  keeps store I (on_store (fun d => (tt, mark_qualified i q d))).
Proof. intros s Hs. apply HI, Hs. Qed.

Ltac keeps_step :=
  first
    [ apply keeps_bind; [|intro]
    | apply keeps_ret
    | apply keeps_raise
    | apply keeps_lift
    | apply keeps_get_state
    | apply keeps_set_state
    | apply keeps_log_event
    | apply keeps_snapshot
    | apply keeps_update_lead
    | apply keeps_create_callback
    | apply keeps_mark_qualified
    | match goal with
      | |- keeps _ _ (if ?b then _ else _) => destruct b
      | |- keeps _ _ (match ?x with _ => _ end) => destruct x
      end ].

Lemma keeps_decide a i : keeps store I (_decide_and_apply a i).
Proof. unfold _decide_and_apply. repeat keeps_step. Qed.

Lemma keeps_ingest json_loads be text secs :
  keeps store I (ingest_user_text json_loads be text secs).
Proof.
  unfold ingest_user_text, _append_user.
  repeat first [apply keeps_decide | keeps_step].
Qed.

Lemma keeps_simulate_loop json_loads us secs :
  forall rs, keeps store I (simulate_loop json_loads us secs rs).
Proof.
  induction us as [|[be text] r IH]; intro rs; cbn [simulate_loop].
  - apply keeps_ret.
  - apply keeps_bind; [apply keeps_ingest|].
    intros [o | l a [|o] e].
    + apply keeps_raise.
    + apply IH.
    + destruct (str_in _ _); [apply keeps_ret | apply IH].
Qed.

(** The streaming bridge. *)
Lemma keeps_bridge_event t p : keeps bridge_db I (bridge_event t p).
Proof. intros s Hs. apply HI, Hs. Qed.

Lemma keeps_on_db_upsert p fs : keeps bridge_db I (on_db (upsert_lead p fs)).
Proof. intros s Hs. apply HI, Hs. Qed.

Lemma keeps_on_db_mark i q :
  keeps bridge_db I (on_db (fun d => (tt, mark_qualified i q d))).
Proof. intros s Hs. apply HI, Hs. Qed.

Lemma keeps_on_db_callback i w n :
  keeps bridge_db I (on_db (create_callback i w n)).
Proof. intros s Hs. apply HI, Hs. Qed.

Lemma keeps_get_self : keeps bridge_db I get_self.
Proof. intros s Hs. exact Hs. Qed.

Lemma keeps_set_qualified q : keeps bridge_db I (set_qualified q).
Proof. intros s Hs. exact Hs. Qed.

Lemma keeps_set_inbox q : keeps bridge_db I (set_inbox q).
Proof. intros s Hs. exact Hs. Qed.

Lemma keeps_count f : keeps bridge_db I (count_final_drain f).
Proof. intros s Hs. exact Hs. Qed.

Lemma keeps_do_transfer c : keeps bridge_db I (do_transfer c).
Proof.
  intros s Hs. unfold do_transfer.
  destruct (redirect_faults (outside s)) as [|[|] r]; exact Hs.
Qed.

Lemma keeps_ai_send f : keeps bridge_db I (ai_send f).
Proof.
  intros s Hs. unfold ai_send.
  destruct (Bridge.ai_ws (self s)) as [k|]; [|exact Hs].
  destruct (send_faults k) as [|[|] r]; exact Hs.
Qed.

Ltac keeps_bridge :=
  first
    [ apply keeps_bind; [|intro]
    | apply keeps_ret
    | apply keeps_raise
    | apply keeps_lift
    | apply keeps_bridge_event
    | apply keeps_on_db_upsert
    | apply keeps_on_db_mark
    | apply keeps_on_db_callback
    | apply keeps_get_self
    | apply keeps_set_qualified
    | apply keeps_set_inbox
    | apply keeps_count
    | apply keeps_do_transfer
    | apply keeps_ai_send
    | match goal with
      | |- keeps _ _ (if ?b then _ else _) => destruct b
      | |- keeps _ _ (match ?x with _ => _ end) => destruct x
      end ].

Lemma keeps_on_ai_event ev : keeps bridge_db I (on_ai_event ev).
Proof. unfold on_ai_event, on_function_call. repeat keeps_bridge. Qed.

Lemma keeps_drain_loop t q : keeps bridge_db I (drain_loop t q).
Proof.
  induction q as [|[delay frame | delay] r IH]; cbn [drain_loop].
  - apply keeps_ret.
  - destruct (delay <? t); [|apply keeps_set_inbox].
    repeat first [apply keeps_on_ai_event | exact IH | keeps_bridge].
  - destruct (delay <? t); repeat keeps_bridge.
Qed.

Lemma keeps_drain final : keeps bridge_db I (_drain_ai_events final).
Proof.
  unfold _drain_ai_events.
  repeat first [apply keeps_drain_loop | keeps_bridge].
Qed.

Lemma keeps_handle msg : keeps bridge_db I (handle_twilio_event msg).
Proof.
  unfold handle_twilio_event.
  repeat first [apply keeps_drain | keeps_bridge].
Qed.

Lemma keeps_start : keeps bridge_db I start.
Proof.
  unfold start. apply keeps_bind; [|intro; apply keeps_ai_send].
  intros s Hs. destruct (dial (outside s)) as [|[k|] r]; exact Hs.
Qed.

(** The media-stream handler. *)
Lemma keeps_handler_event t p : keeps handler_db I (handler_event t p).
Proof. intros h Hh. apply HI, Hh. Qed.

Lemma keeps_on_bridge {A} b (m : M bridge_world A) :
  keeps bridge_db I m -> keeps handler_db I (on_bridge b m).
Proof.
  intros Hm h Hh. unfold on_bridge.
  generalize (Hm (mk_bw b (world_of h)) Hh).
  destruct (m (mk_bw b (world_of h))) as [r s]. intro H. exact H.
Qed.

Lemma keeps_media_loop incoming : keeps handler_db I (media_loop incoming).
Proof.
  induction incoming as [|[msg | | e] rest IH]; cbn [media_loop].
  - apply keeps_raise.
  - apply keeps_bind; [|intro; apply keeps_bind; [|intro; exact IH]].
    + destruct msg; try apply keeps_ret; try apply keeps_raise.
      apply keeps_bind; [intros h Hh; exact Hh | intro].
      apply keeps_bind; [apply keeps_handler_event | intro].
      apply keeps_on_bridge, keeps_start.
    + intros h Hh. destruct (bridge h) as [b|]; [|exact Hh].
      apply (keeps_on_bridge b _ (keeps_handle msg) h Hh).
  - apply keeps_ret.
  - apply keeps_raise.
Qed.

Lemma keeps_media_stream incoming : keeps handler_db I (media_stream incoming).
Proof.
  intros h Hh. unfold media_stream.
  generalize (keeps_media_loop incoming h Hh).
  destruct (media_loop incoming h) as [r h1]. cbn [snd]. intro H1.
  destruct r as [u|e].
  - apply HI. exact H1.
  - destruct (is_Exception e).
    + apply HI. apply HI. exact H1.
    + apply HI. exact H1.
Qed.

End Keeping.

Lemma db_ok_closed : store_closed db_ok.
Proof.
  split; [|split; [|split]]; intros.
  - apply db_ok_save_event; assumption.
  - apply db_ok_upsert_lead; assumption.
  - apply db_ok_mark_qualified; assumption.
  - apply db_ok_create_callback; assumption.
Qed.

(** X4 (every call keeps the keys of the database). Starting from a database
    with distinct positive primary keys and at most one lead per phone, the
    database is of that kind again after a brain is created, after every
    invocation of [ingest_user_text], after [simulate_conversation], after
    [twilio_qualify] and after a whole run of the media-stream handler
    [media_stream], whatever the backend, the realtime session and the
    telephony side deliver and whether the run returns or raises. *)
Theorem calls_keep_keys :
  forall (d : db),
    db_ok d ->
    (forall phone sid, db_ok (store (VanessaBrain phone sid d)))
    /\ (forall json_loads be text secs st,
          db_ok (store (snd (ingest_user_text json_loads be text secs
                               (mk_world st d)))))
    /\ (forall json_loads phone us secs,
          db_ok (store (snd (simulate_conversation json_loads phone us secs d))))
    /\ (forall sid from speech digits,
          db_ok (snd (twilio_qualify sid from speech digits d)))
    /\ (forall incoming sid b dl rd rf fd,
          db_ok (database (world_of
                   (snd (media_stream incoming
                           (mk_handler sid b (mk_env d dl rd rf fd))))))).
Proof.
  intros d H. split; [|split; [|split; [|split]]]; intros.
  - apply db_ok_upsert_lead, H.
  - apply (keeps_ingest db_ok db_ok_closed). exact H.
  - apply (keeps_simulate_loop db_ok db_ok_closed).
    apply db_ok_upsert_lead, H.
  - unfold twilio_qualify.
    repeat match goal with
           | |- context [if ?b then _ else _] => destruct b
           end; cbn [snd]; try exact H; apply db_ok_save_event, H.
  - apply (keeps_media_stream db_ok db_ok_closed). exact H.
Qed.

Lemma calls_keep_keys_witness :
  db_ok sample_db
  /\ db_ok (store (snd (ingest_user_text loads_nothing mumbling_backend
                          "hello?" 8 (sample_world 0))))
  /\ db_ok (database (world_of
              (snd (media_stream [Receives start_msg; ReceivesNone]
                      (new_handler both_env))))).
Proof.
  assert (H := sample_db_ok).
  split; [exact H|].
  destruct (calls_keep_keys sample_db H) as (_ & H2 & _ & _ & H5).
  split; [apply H2 | apply H5].
Defined.

(* ===================================================================== *)
(** * Further properties of the turn-based orchestrator *)
(* ===================================================================== *)

Section TurnFacts.

Variable json_loads : string -> result pyval.

(** An invocation on an open call whose backend raises. *)
Lemma ingest_backend_raises (be : backend) (text : string) (secs : Z)
    (w : world) (e : exn) :
  ConversationState.closed (state w) = false ->
  be (last6 (ConversationState.history (state w) ++ [mk_message "user" text]))
     (ConversationState.last_response_id (state w)) = Raise e ->
  ingest_user_text json_loads be text secs w
  = (Raise e,
     mk_world (heard text secs (state w))
       (save_event "TURN"
          (turn_payload text (ConversationState.elapsed_sec (state w)))
          (ConversationState.call_sid (state w)) (store w))).
Proof.
  intros Hopen Hbe. run_py. rewrite Hopen. run_py. rewrite Hbe. reflexivity.
Qed.

(** An invocation on an open call whose backend answers, written out up
    to the decision step. *)
Lemma ingest_open_run (be : backend) (text : string) (secs : Z) (w : world)
    (txt : string) (rid : option string) :
  ConversationState.closed (state w) = false ->
  be (last6 (ConversationState.history (state w) ++ [mk_message "user" text]))
     (ConversationState.last_response_id (state w)) = Ok (txt, rid) ->
  let a := extract_analysis (json_loads (PyStr.strip txt)) in
  let st := answered rid (heard text secs (state w)) in
  let d2 := turn_store text txt rid a w in
  ingest_user_text json_loads be text secs w
  = match find_lead_by_phone (ConversationState.phone (state w)) d2 with
    | None =>
        (Ok (ReplyTurn [] a Continue (ConversationState.elapsed_sec st)),
         mk_world st d2)
    | Some lead =>
        if Lead.id lead =? 0 then
          (Ok (ReplyTurn (lead_dict lead) a Continue
                 (ConversationState.elapsed_sec st)),
           mk_world st d2)
        else
          match _decide_and_apply a (Lead.id lead) (mk_world st d2) with
          | (Ok (Some o), w3) =>
              (Ok (ReplyTurn
                     (snapshot (ConversationState.phone (state w3)) (store w3))
                     a (Decided o) (ConversationState.elapsed_sec (state w3))),
               mk_world (closed_with o (state w3)) (store w3))
          | (Ok None, w3) =>
              (Ok (ReplyTurn (lead_dict lead) a Continue
                     (ConversationState.elapsed_sec (state w3))), w3)
          | (Raise e, w3) => (Raise e, w3)
          end
    end.
Proof.
  destruct w as [[ph sid hist el cl oc lr] d].
  cbn [state store ConversationState.closed ConversationState.history
       ConversationState.last_response_id ConversationState.phone].
  intros Hopen Hbe. subst cl. cbv zeta.
  unfold turn_store, answered, heard, analysis_fields, turn_payload,
    raw_payload, snapshot.
  run_py. rewrite Hbe. run_py.
  set (a := extract_analysis (json_loads (PyStr.strip txt))).
  match goal with
  | |- context [snd (upsert_lead ?p ?fs ?d)] =>
      set (d2 := snd (upsert_lead p fs d))
  end.
  clearbody d2.
  destruct (find_lead_by_phone ph d2) as [lead|]; [|reflexivity].
  unfold lead_dict.
  cbv beta iota delta [get get_or lookup truthy String.eqb Ascii.eqb Bool.eqb].
  destruct (Lead.id lead =? 0); cbn [negb]; [reflexivity|].
  destruct (_decide_and_apply a (Lead.id lead) _) as [[[o|]|e] w3];
    reflexivity.
Qed.

Lemma leads_save_event t p c d : leads (save_event t p c d) = leads d.
Proof. reflexivity. Qed.

Lemma find_after_upsert (p : string) (fs : fields) (d : db) (old : Lead.t) :
  find_lead_by_phone p d = Some old ->
  find_lead_by_phone p (snd (upsert_lead p fs d))
  = Some (Lead.set_updated_at (wall d (reads d)) (merge_fields fs old)).
Proof.
  intro H. rewrite (upsert_lead_existing p fs d old H).
  unfold find_lead_by_phone, first_by_phone in *. cbn [snd leads].
  apply find_write_first.
  - destruct (merge_fields_identity fs old) as (_ & H2 & _).
    change (Lead.phone (Lead.set_updated_at _ ?l)) with (Lead.phone l).
    rewrite H2. apply find_some in H. exact (proj2 H).
  - rewrite H. discriminate.
Qed.

(** The row of the brain's phone once the turn has updated it. *)
Lemma find_turn_store (text txt : string) (rid : option string) (a : dict)
    (w : world) (old : Lead.t) :
  find_lead_by_phone (ConversationState.phone (state w)) (store w) = Some old ->
  exists ts,
    find_lead_by_phone (ConversationState.phone (state w))
      (turn_store text txt rid a w)
    = Some (Lead.set_updated_at ts (merge_fields (analysis_fields a) old)).
Proof.
  intro H. unfold turn_store. eexists. apply find_after_upsert. exact H.
Qed.

Lemma id_merged ts fs old :
  Lead.id (Lead.set_updated_at ts (merge_fields fs old)) = Lead.id old.
Proof. exact (proj1 (merge_fields_identity fs old)). Qed.

(** With at least 90 seconds elapsed, a record that reads is decided. *)
Lemma decide_timebox (a : dict) (lead_id : Z) (w : world) :
  well_formed a ->
  90 <= ConversationState.elapsed_sec (state w) ->
  exists o w', _decide_and_apply a lead_id w = (Ok (Some o), w')
               /\ state w' = state w.
Proof.
  intros Hwf Hel.
  destruct (well_formed_reads a Hwf) as (i & pr & tm & Hi & Hp & Ht).
  rewrite (decide_readable a lead_id w i pr tm Hi Hp Ht). cbv zeta.
  apply Z.leb_le in Hel. rewrite Hel.
  destruct (str_in i ["dnc"; "no"]); [do 2 eexists; split; reflexivity|].
  destruct (String.eqb i "later"); [do 2 eexists; split; reflexivity|].
  destruct (str_in i ["yes"; "maybe"] && (pr || tm || true));
    do 2 eexists; split; reflexivity.
Qed.

End TurnFacts.

(** X7 (no fail-soft around the backend). When the reasoning backend raises
    during an invocation on an open call, [ingest_user_text] raises that
    same exception. By then the utterance is in the history and the elapsed
    seconds are advanced; the TURN event, with the seconds elapsed before
    the turn, is the only thing written to the database; the call stays
    open, with the response id, the leads and the callbacks as they were. *)
Theorem backend_failure_propagates :
  forall (json_loads : string -> result pyval) (be : backend) (text : string)
         (secs : Z) (w : world) (e : exn),
    ConversationState.closed (state w) = false ->
    be (last6 (ConversationState.history (state w) ++ [mk_message "user" text]))
       (ConversationState.last_response_id (state w)) = Raise e ->
    let (r, w') := ingest_user_text json_loads be text secs w in
    r = Raise e
    /\ ConversationState.closed (state w') = false
    /\ ConversationState.history (state w')
       = ConversationState.history (state w) ++ [mk_message "user" text]
    /\ ConversationState.elapsed_sec (state w')
       = ConversationState.elapsed_sec (state w) + secs
    /\ ConversationState.last_response_id (state w')
       = ConversationState.last_response_id (state w)
    /\ leads (store w') = leads (store w)
    /\ callbacks (store w') = callbacks (store w)
    /\ exists ev,
         events (store w') = events (store w) ++ [ev]
         /\ CallEvent.event_type ev = "TURN"
         /\ CallEvent.payload ev
            = turn_payload text (ConversationState.elapsed_sec (state w)).
Proof.
  intros json_loads be text secs w e Hopen Hbe.
  rewrite (ingest_backend_raises json_loads be text secs w e Hopen Hbe).
  cbn [state store heard ConversationState.closed ConversationState.history
       ConversationState.elapsed_sec ConversationState.last_response_id].
  repeat split; try assumption.
  eexists. split; [apply events_save_event|]. split; reflexivity.
Qed.

Lemma backend_failure_propagates_witness :
  ConversationState.closed (state (sample_world 0)) = false
  /\ fst (ingest_user_text loads_nothing (fun _ _ => Raise BackendError)
            "hello?" 8 (sample_world 0))
     = Raise BackendError.
Proof.
  split; [reflexivity|].
  generalize (backend_failure_propagates loads_nothing
                (fun _ _ => Raise BackendError) "hello?" 8 (sample_world 0)
                BackendError eq_refl eq_refl).
  destruct (ingest_user_text _ _ _ _ _) as [r w']. intros (H & _). exact H.
Defined.

(** X8 (a reply that is not a JSON object overwrites what the lead said).
    On an open call whose phone has a row, when the backend's reply is not
    JSON or is JSON that is not an object, the turn stores the substituted
    record: afterwards the interest and the owner status of the lead are
    "unknown", whatever they were, while price range, timing, condition, key
    and qualified flag are as before; the reply carries the substituted
    record. *)
Theorem unreadable_reply_overwrites_interest :
  forall (json_loads : string -> result pyval) (be : backend) (text : string)
         (secs : Z) (w : world) (txt : string) (rid : option string)
         (old : Lead.t),
    ConversationState.closed (state w) = false ->
    be (last6 (ConversationState.history (state w) ++ [mk_message "user" text]))
       (ConversationState.last_response_id (state w)) = Ok (txt, rid) ->
    (forall d, json_loads (PyStr.strip txt) <> Ok (PDict d)) ->
    find_lead_by_phone (ConversationState.phone (state w)) (store w) = Some old ->
    let (r, w') := ingest_user_text json_loads be text secs w in
    (exists l so e, r = Ok (ReplyTurn l unknown_analysis so e))
    /\ exists lead,
         find_lead_by_phone (ConversationState.phone (state w)) (store w')
         = Some lead
         /\ Lead.interest lead = PStr "unknown"
         /\ Lead.owner_status lead = PStr "unknown"
         /\ Lead.price_range lead = Lead.price_range old
         /\ Lead.timing lead = Lead.timing old
         /\ Lead.condition lead = Lead.condition old
         /\ Lead.id lead = Lead.id old
         /\ Lead.qualified lead = Lead.qualified old.
Proof.
  intros json_loads be text secs w txt rid old Hopen Hbe Hbad Hold.
  rewrite (ingest_open_run json_loads be text secs w txt rid Hopen Hbe).
  cbv zeta.
  assert (Ha : extract_analysis (json_loads (PyStr.strip txt)) = unknown_analysis).
  { destruct (json_loads (PyStr.strip txt)) as [[| | | | |d]|e]; try reflexivity.
    contradiction (Hbad d). reflexivity. }
  rewrite Ha.
  destruct (find_turn_store text txt rid unknown_analysis w old Hold)
    as [ts Hfind].
  rewrite Hfind.
  set (lead := Lead.set_updated_at ts
                 (merge_fields (analysis_fields unknown_analysis) old)) in *.
  assert (Hlead : Lead.interest lead = PStr "unknown"
                  /\ Lead.owner_status lead = PStr "unknown"
                  /\ Lead.price_range lead = Lead.price_range old
                  /\ Lead.timing lead = Lead.timing old
                  /\ Lead.condition lead = Lead.condition old
                  /\ Lead.id lead = Lead.id old
                  /\ Lead.qualified lead = Lead.qualified old).
  { repeat split. }
  clearbody lead.
  destruct (Lead.id lead =? 0).
  { split; [do 3 eexists; reflexivity|].
    exists lead. split; [exact Hfind | exact Hlead]. }
  rewrite (decide_readable unknown_analysis (Lead.id lead) _ "unknown" false false
             eq_refl eq_refl eq_refl).
  cbv zeta.
  change (str_in "unknown" ["dnc"; "no"]) with false.
  change (String.eqb "unknown" "later") with false.
  change (str_in "unknown" ["yes"; "maybe"]) with false.
  cbv beta iota delta [andb].
  destruct (90 <=? _).
  - split; [do 3 eexists; reflexivity|].
    exists lead. split; [|exact Hlead].
    unfold snapshot in *. cbn [state store].
    unfold find_lead_by_phone in *. rewrite leads_save_event. exact Hfind.
  - split; [do 3 eexists; reflexivity|].
    exists lead. split; [exact Hfind | exact Hlead].
Qed.

Lemma unreadable_reply_overwrites_interest_witness :
  ConversationState.closed (state (sample_world 0)) = false
  /\ Lead.interest sample_lead = PStr "maybe"
  /\ option_map Lead.interest
       (find_lead_by_phone "+15550100"
          (store (snd (ingest_user_text loads_nothing mumbling_backend "hello?"
                         8 (sample_world 0)))))
     = Some (PStr "unknown").
Proof.
  split; [reflexivity|]. split; [reflexivity|].
  generalize (unreadable_reply_overwrites_interest loads_nothing
                mumbling_backend "hello?" 8 (sample_world 0) "hmm" None
                sample_lead eq_refl eq_refl
                (fun d (E : loads_nothing (PyStr.strip "hmm") = Ok (PDict d)) =>
                   match E in _ = r
                         return match r with Raise _ => True | Ok _ => False end
                   with eq_refl => Logic.I end)
                eq_refl).
  destruct (ingest_user_text _ _ _ _ _) as [r w'].
  intros (_ & lead & Hfind & Hint & _).
  cbn [sample_world state ConversationState.phone] in Hfind.
  cbn [snd]. rewrite Hfind. cbn [option_map]. rewrite Hint. reflexivity.
Defined.

Lemma db_ok_turn_store text txt rid a w :
  db_ok (store w) -> db_ok (turn_store text txt rid a w).
Proof.
  intro H. unfold turn_store.
  apply db_ok_upsert_lead, db_ok_save_event, db_ok_save_event, H.
Qed.

Lemma find_same_leads (p : string) (d d' : db) :
  leads d' = leads d -> find_lead_by_phone p d' = find_lead_by_phone p d.
Proof. unfold find_lead_by_phone. intro H. rewrite H. reflexivity. Qed.

(** X9 (the lead shown in a reply is the lead as stored after the turn). On
    an open call over a database with distinct keys, the lead dictionary of
    every reply of a turn is the row the phone finds after the turn, and its
    qualified flag is [true] when the outcome is the transfer (the snapshot
    is taken again after the decision) and otherwise the flag stored before
    the turn: no other outcome changes it. *)
Theorem reply_shows_stored_lead :
  forall (json_loads : string -> result pyval) (be : backend) (text : string)
         (secs : Z) (w : world) (old : Lead.t),
    ConversationState.closed (state w) = false ->
    db_ok (store w) ->
    find_lead_by_phone (ConversationState.phone (state w)) (store w) = Some old ->
    let (r, w') := ingest_user_text json_loads be text secs w in
    match r with
    | Ok (ReplyTurn l a so e) =>
        let q := match so with
                 | Decided (Transfer _) => true
                 | _ => Lead.qualified old
                 end in
        get l "qualified" = PBool q
        /\ exists lead,
             find_lead_by_phone (ConversationState.phone (state w)) (store w')
             = Some lead
             /\ l = lead_dict lead
             /\ Lead.qualified lead = q
             /\ Lead.id lead = Lead.id old
    | _ => True
    end.
Proof.
  intros json_loads be text secs w old Hopen Hok Hold.
  destruct (be (last6 (ConversationState.history (state w)
                       ++ [mk_message "user" text]))
              (ConversationState.last_response_id (state w)))
    as [[txt rid]|e] eqn:Hbe.
  2:{ rewrite (ingest_backend_raises json_loads be text secs w e Hopen Hbe).
      exact Logic.I. }
  rewrite (ingest_open_run json_loads be text secs w txt rid Hopen Hbe).
  cbv zeta.
  set (a := extract_analysis (json_loads (PyStr.strip txt))).
  destruct (find_turn_store text txt rid a w old Hold) as [ts Hfind].
  assert (Hok2 := db_ok_turn_store text txt rid a w Hok).
  set (d2 := turn_store text txt rid a w) in *.
  rewrite Hfind.
  set (lead := Lead.set_updated_at ts (merge_fields (analysis_fields a) old)) in *.
  assert (Hq : Lead.qualified lead = Lead.qualified old
               /\ Lead.id lead = Lead.id old).
  { destruct (merge_fields_identity (analysis_fields a) old) as (H1 & _ & H3 & _).
    split; assumption. }
  clearbody lead d2.
  destruct (Lead.id lead =? 0).
  { split; [rewrite <- (proj1 Hq); reflexivity|].
    exists lead. repeat split; try apply Hq. exact Hfind. }
  set (st := answered rid (heard text secs (state w))).
  generalize (decide_effects a (Lead.id lead) (mk_world st d2)).
  destruct (_decide_and_apply a (Lead.id lead) (mk_world st d2))
    as [[[o|]|e] w3]; intros [Hst Heff]; [| |exact Logic.I].
  - assert (Hph : ConversationState.phone (state w3)
                  = ConversationState.phone (state w)).
    { rewrite Hst. reflexivity. }
    cbn [store state] in *. unfold snapshot. rewrite Hph.
    destruct o as [m | cid win m | m].
    + destruct Heff as (Hl & _).
      rewrite (find_same_leads _ _ _ Hl), Hfind.
      split; [rewrite <- (proj1 Hq); reflexivity|].
      exists lead. repeat split; apply Hq.
    + destruct Heff as (Hl & _).
      rewrite (find_same_leads _ _ _ Hl), Hfind.
      split; [rewrite <- (proj1 Hq); reflexivity|].
      exists lead. repeat split; apply Hq.
    + destruct Heff as (Hl & _).
      rewrite (find_same_leads _ _ _ Hl).
      rewrite (find_phone_mark _ lead true d2 (proj1 (proj1 Hok2)) Hfind).
      rewrite String.eqb_refl.
      split; [reflexivity|].
      eexists. repeat split. apply Hq.
  - subst w3. cbn [store].
    split; [rewrite <- (proj1 Hq); reflexivity|].
    exists lead. repeat split; try apply Hq. exact Hfind.
Qed.

Lemma reply_shows_stored_lead_witness :
  ConversationState.closed (state (sample_world 0)) = false
  /\ db_ok (store (sample_world 0))
  /\ Lead.qualified sample_lead = false
  /\ match fst (ingest_user_text loads_fallback (call_llm_text None)
                  "Yes, I might sell" 8 (sample_world 0)) with
     | Ok (ReplyTurn l _ (Decided (Transfer _)) _) =>
         get l "qualified" = PBool true
     | _ => False
     end.
Proof.
  split; [reflexivity|]. split; [exact sample_db_ok|]. split; [reflexivity|].
  generalize (reply_shows_stored_lead loads_fallback (call_llm_text None)
                "Yes, I might sell" 8 (sample_world 0) sample_lead eq_refl
                sample_db_ok eq_refl).
  vm_compute. intros [H _]. exact H.
Defined.

(* ===================================================================== *)
(** * The simulated call and the timebox *)
(* ===================================================================== *)

Section CallFacts.

Variable json_loads : string -> result pyval.

Lemma find_by_keys (p : string) (ls : list Lead.t) :
  forall ls',
    map Lead.phone ls' = map Lead.phone ls ->
    map Lead.id ls' = map Lead.id ls ->
    option_map Lead.id (first_by_phone p ls')
    = option_map Lead.id (first_by_phone p ls).
Proof.
  unfold first_by_phone.
  induction ls as [|l r IH]; intros [|l' r'] Hp Hi; try discriminate;
    [reflexivity|].
  simpl in *. inversion Hp as [[Hp1 Hp2]]. inversion Hi as [[Hi1 Hi2]].
  rewrite Hp1. destruct (String.eqb (Lead.phone l) p).
  - simpl. rewrite Hi1. reflexivity.
  - apply IH; assumption.
Qed.

Lemma lead_key_closed (p : string) (i : Z) :
  store_closed (fun d => lead_key p d = Some i).
Proof.
  unfold lead_key, find_lead_by_phone.
  split; [|split; [|split]].
  - intros t pl c d H. exact H.
  - intros p' fs d H. rewrite leads_upsert_lead.
    destruct (first_by_phone p' (leads d)) as [old|] eqn:Hfind.
    + rewrite <- H. apply find_by_keys.
      * apply (map_write_first Lead.phone _ _ old _ Hfind).
        rewrite (upsert_lead_existing p' fs d old Hfind). cbn [fst].
        exact (proj1 (proj2 (merge_fields_identity fs old))).
      * apply (map_write_first Lead.id _ _ old _ Hfind).
        rewrite (upsert_lead_existing p' fs d old Hfind). cbn [fst].
        exact (proj1 (merge_fields_identity fs old)).
    + unfold first_by_phone in *. rewrite find_snoc.
      destruct (find _ (leads d)); [exact H | discriminate H].
  - intros j q d H. rewrite <- H. apply find_by_keys; apply leads_ok_mark.
  - intros j w n d H. exact H.
Qed.

Lemma lead_known_key (w : world) :
  lead_known w
  <-> exists i, lead_key (ConversationState.phone (state w)) (store w) = Some i
                /\ i <> 0.
Proof.
  unfold lead_known, lead_key. split.
  - intros (lead & H & Hid). exists (Lead.id lead). rewrite H. split; trivial.
  - intros (i & H & Hi).
    destruct (find_lead_by_phone _ _) as [lead|]; [|discriminate].
    exists lead. split; [reflexivity|]. inversion H. subst. exact Hi.
Qed.

(** One turn on an open call whose backend answers readably. *)
Lemma ingest_readable_step (be : backend) (text : string) (secs : Z) (w : world) :
  ConversationState.closed (state w) = false ->
  lead_known w ->
  answers_readably json_loads be ->
  exists l a so w',
    ingest_user_text json_loads be text secs w
    = (Ok (ReplyTurn l a so (ConversationState.elapsed_sec (state w) + secs)), w')
    /\ ConversationState.elapsed_sec (state w')
       = ConversationState.elapsed_sec (state w) + secs
    /\ lead_known w'
    /\ match so with
       | Continue =>
           ConversationState.closed (state w') = false
           /\ ConversationState.elapsed_sec (state w) + secs < 90
       | Decided _ => ConversationState.closed (state w') = true
       end.
Proof.
  intros Hopen Hknown Hbe.
  destruct (Hbe (last6 (ConversationState.history (state w)
                        ++ [mk_message "user" text]))
              (ConversationState.last_response_id (state w)))
    as (txt & rid & Hans & Hwf).
  apply lead_known_key in Hknown. destruct Hknown as (i & Hkey & Hi).
  assert (K := keeps_ingest _ (lead_key_closed _ i) json_loads be text secs w Hkey).
  cbv beta in K. revert K.
  rewrite (ingest_open_run json_loads be text secs w txt rid Hopen Hans).
  cbv zeta.
  set (a := extract_analysis (json_loads (PyStr.strip txt))) in *.
  assert (Hfind : exists lead,
             find_lead_by_phone (ConversationState.phone (state w))
               (turn_store text txt rid a w) = Some lead
             /\ Lead.id lead = i).
  { unfold lead_key in Hkey.
    destruct (find_lead_by_phone _ (store w)) as [old|] eqn:Hold;
      [|discriminate].
    destruct (find_turn_store text txt rid a w old Hold) as [ts Hts].
    eexists. split; [exact Hts|]. rewrite id_merged. inversion Hkey. reflexivity. }
  destruct Hfind as (lead & Hfind & Hid).
  rewrite Hfind. subst i.
  apply Z.eqb_neq in Hi. rewrite Hi.
  destruct (well_formed_reads a (text_record_well_formed a Hwf))
    as (it & pr & tm & H1 & H2 & H3).
  rewrite (decide_readable a (Lead.id lead) _ it pr tm H1 H2 H3). cbv zeta.
  cbn [state store answered heard ConversationState.elapsed_sec
       ConversationState.call_sid ConversationState.phone].
  assert (Hk : forall (st : ConversationState.t) (d : db),
             ConversationState.phone st = ConversationState.phone (state w) ->
             lead_key (ConversationState.phone (state w)) d = Some (Lead.id lead) ->
             lead_known (mk_world st d)).
  { intros st d Hp Hd. apply lead_known_key. exists (Lead.id lead).
    cbn [state store]. rewrite Hp. split; [exact Hd|].
    apply Z.eqb_neq, Hi. }
  destruct (str_in it ["dnc"; "no"]).
  { intro K. do 4 eexists. split; [reflexivity|]. split; [reflexivity|].
    split; [apply Hk; [reflexivity | exact K] | reflexivity]. }
  destruct (String.eqb it "later").
  { intro K. do 4 eexists. split; [reflexivity|]. split; [reflexivity|].
    split; [apply Hk; [reflexivity | exact K] | reflexivity]. }
  destruct (str_in it ["yes"; "maybe"] && _).
  { intro K. do 4 eexists. split; [reflexivity|]. split; [reflexivity|].
    split; [apply Hk; [reflexivity | exact K] | reflexivity]. }
  destruct (90 <=? _) eqn:Hel.
  { intro K. do 4 eexists. split; [reflexivity|]. split; [reflexivity|].
    split; [apply Hk; [reflexivity | exact K] | reflexivity]. }
  intro K. do 4 eexists. split; [reflexivity|]. split; [reflexivity|].
  split; [apply Hk; [reflexivity | exact K]|].
  split; [exact Hopen|]. apply Z.leb_gt, Hel.
Qed.

Lemma simulate_loop_readable (us : list (backend * string)) (secs : Z) :
  Forall (fun u => answers_readably json_loads (fst u)) us ->
  forall (acc : list reply) (w : world),
    ConversationState.closed (state w) = false ->
    lead_known w ->
    exists rs w',
      simulate_loop json_loads us secs acc w = (Ok (acc ++ rs), w')
      /\ (length rs <= length us)%nat
      /\ (if ConversationState.closed (state w')
          then exists cs last,
                 rs = cs ++ [last]
                 /\ Forall (fun x => is_continue x = true) cs
                 /\ is_decided last = true
          else Forall (fun x => is_continue x = true) rs
               /\ length rs = length us)
      /\ (us <> [] ->
          90 <= ConversationState.elapsed_sec (state w)
                + secs * Z.of_nat (length us) ->
          ConversationState.closed (state w') = true).
Proof.
  induction us as [|[be text] rest IH]; intros Hall acc w Hopen Hknown.
  - exists [], w. cbn [simulate_loop]. unfold ret. rewrite app_nil_r.
    split; [reflexivity|]. split; [apply Nat.le_refl|]. rewrite Hopen.
    split; [split; [constructor | reflexivity]|].
    intro H. contradiction H. reflexivity.
  - inversion Hall as [|u us' Hbe Hrest]; subst u us'. cbn [fst] in Hbe.
    destruct (ingest_readable_step be text secs w Hopen Hknown Hbe)
      as (l & a & so & w1 & Hrun & Hel & Hk1 & Hso).
    cbn [simulate_loop]. unfold bind at 1. rewrite Hrun.
    destruct so as [|o].
    + destruct Hso as [Hopen1 Hlt].
      destruct (IH Hrest (acc ++ [ReplyTurn l a Continue
                                    (ConversationState.elapsed_sec (state w) + secs)])
                  w1 Hopen1 Hk1)
        as (rs & w' & Hloop & Hlen & Hshape & Hbox).
      exists (ReplyTurn l a Continue
                (ConversationState.elapsed_sec (state w) + secs) :: rs), w'.
      split; [rewrite Hloop, <- app_assoc; reflexivity|].
      split; [cbn [length]; apply le_n_S, Hlen|].
      split.
      * destruct (ConversationState.closed (state w')).
        -- destruct Hshape as (cs & last & E & Hcs & Hlast).
           exists (ReplyTurn l a Continue
                     (ConversationState.elapsed_sec (state w) + secs) :: cs), last.
           rewrite E. split; [reflexivity|].
           split; [constructor; [reflexivity | exact Hcs] | exact Hlast].
        -- destruct Hshape as [Hcs E]. split.
           ++ constructor; [reflexivity | exact Hcs].
           ++ cbn [length]. rewrite E. reflexivity.
      * intros _ H90. apply Hbox.
        -- intro E. subst rest. cbn [length] in H90. lia.
        -- rewrite Hel. cbn [length] in H90. lia.
    + assert (Hin : str_in (outcome_type o) ["dnc"; "callback"; "transfer"] = true)
        by (destruct o; reflexivity).
      rewrite Hin. unfold ret.
      exists [ReplyTurn l a (Decided o)
                (ConversationState.elapsed_sec (state w) + secs)], w1.
      split; [reflexivity|].
      split; [cbn [length]; apply le_n_S, Nat.le_0_l|].
      rewrite Hso. split; [|intros; reflexivity].
      exists [], (ReplyTurn l a (Decided o)
                    (ConversationState.elapsed_sec (state w) + secs)).
      split; [reflexivity|]. split; [constructor | reflexivity].
Qed.

Lemma new_brain_known (phone sid : string) (d : db) :
  Forall (fun i => 0 < i) (map Lead.id (leads d)) ->
  lead_known (VanessaBrain phone sid d).
Proof.
  intro Hpos. unfold lead_known, VanessaBrain.
  cbn [state store ConversationState.init ConversationState.phone].
  destruct (find_lead_by_phone phone d) as [old|] eqn:Hfind.
  - eexists. split; [apply find_after_upsert, Hfind|].
    rewrite id_merged.
    unfold find_lead_by_phone, first_by_phone in Hfind.
    apply find_some in Hfind. destruct Hfind as [Hin _].
    rewrite Forall_forall in Hpos.
    assert (0 < Lead.id old) by (apply Hpos, in_map, Hin). lia.
  - exists (fst (upsert_lead phone [] d)). split.
    + unfold find_lead_by_phone in *. rewrite leads_upsert_lead, Hfind.
      unfold first_by_phone in *. rewrite find_snoc, Hfind.
      rewrite (upsert_lead_new phone [] d Hfind).
      change (Lead.phone (Lead.set_id _ ?l)) with (Lead.phone l).
      rewrite (proj1 (new_lead_identity _ _ _ _)), String.eqb_refl.
      reflexivity.
    + unfold find_lead_by_phone in Hfind.
      rewrite (upsert_lead_new phone [] d Hfind).
      change (Lead.id (Lead.set_id ?i _)) with i.
      assert (0 < next_id (map Lead.id (leads d))) by (apply next_id_pos, Hpos).
      lia.
Qed.

End CallFacts.

(** X10 (the simulated call and its timebox). Over a database with positive
    keys, when every backend call answers with a record of text fields (the
    seven named fields text or [None], which the decision step can read and
    the store holds as they are), [simulate_conversation] returns its list
    of replies: at most one per utterance, every reply but the last a
    continue; either the call is still open and every utterance has its
    continue reply, or the call is closed and the last reply, and only the
    last, carries the decided outcome (the loop stops there and never meets
    the closed reply). And when the utterances at [seconds_per_turn] seconds
    each add up to 90 seconds or more, the call is closed: the timebox ends
    every such call. *)
Theorem simulated_call_ends_in_time :
  forall (json_loads : string -> result pyval) (phone : string)
         (us : list (backend * string)) (secs : Z) (d : db),
    Forall (fun i => 0 < i) (map Lead.id (leads d)) ->
    Forall (fun u => answers_readably json_loads (fst u)) us ->
    let (r, w') := simulate_conversation json_loads phone us secs d in
    exists rs,
      r = Ok rs
      /\ (length rs <= length us)%nat
      /\ (if ConversationState.closed (state w')
          then exists cs last,
                 rs = cs ++ [last]
                 /\ Forall (fun x => is_continue x = true) cs
                 /\ is_decided last = true
          else Forall (fun x => is_continue x = true) rs
               /\ length rs = length us)
      /\ (90 <= secs * Z.of_nat (length us) ->
          ConversationState.closed (state w') = true).
Proof.
  intros json_loads phone us secs d Hpos Hall.
  unfold simulate_conversation.
  destruct (simulate_loop_readable json_loads us secs Hall []
              (VanessaBrain phone ("SIM-" ++ last_chars 4 phone)%string d)
              (new_brain_open _ _ _) (new_brain_known _ _ _ Hpos))
    as (rs & w' & Hrun & Hlen & Hshape & Hbox).
  rewrite Hrun. exists rs. split; [reflexivity|]. split; [exact Hlen|].
  split; [exact Hshape|].
  intro H90. apply Hbox; [|exact H90].
  intro E. subst us. cbn [length] in H90. lia.
Qed.

Lemma simulated_call_ends_in_time_witness :
  Forall (fun i => 0 < i) (map Lead.id (leads sample_db))
  /\ Forall (fun u => answers_readably loads_nothing (fst u))
       [(mumbling_backend, "hello?"); (mumbling_backend, "who is this?")]
  /\ 90 <= 45 * Z.of_nat (length [(mumbling_backend, "hello?");
                                  (mumbling_backend, "who is this?")])
  /\ ConversationState.closed
       (state (snd (simulate_conversation loads_nothing "+15550100"
                      [(mumbling_backend, "hello?");
                       (mumbling_backend, "who is this?")] 45 sample_db)))
     = true.
Proof.
  assert (Hpos : Forall (fun i => 0 < i) (map Lead.id (leads sample_db))).
  { repeat constructor. }
  assert (Hbe : answers_readably loads_nothing mumbling_backend).
  { intros ms prev. exists "hmm", None. split; [reflexivity|].
    split; [repeat constructor | split; reflexivity]. }
  assert (Hall : Forall (fun u => answers_readably loads_nothing (fst u))
                   [(mumbling_backend, "hello?");
                    (mumbling_backend, "who is this?")]).
  { repeat constructor; exact Hbe. }
  split; [exact Hpos|]. split; [exact Hall|]. split; [simpl; lia|].
  generalize (simulated_call_ends_in_time loads_nothing "+15550100"
                [(mumbling_backend, "hello?");
                 (mumbling_backend, "who is this?")] 45 sample_db Hpos Hall).
  destruct (simulate_conversation _ _ _ _ _) as [r w'].
  intros (rs & _ & _ & _ & H). apply H. simpl. lia.
Defined.

(* ===================================================================== *)
(** * The offline backend *)
(* ===================================================================== *)

Section OfflineFacts.

Variable json_loads : string -> result pyval.
Hypothesis Hloads : reads_fallback json_loads.

Lemma last6_snoc (h : list message) (m : message) :
  exists pre, last6 (h ++ [m]) = pre ++ [m].
Proof.
  unfold last6. rewrite skipn_app.
  exists (skipn (length (h ++ [m]) - 6) h).
  rewrite length_app. cbn [length].
  replace (length h + 1 - 6 - length h)%nat with 0%nat by lia.
  reflexivity.
Qed.

Lemma latest_content_snoc (pre : list message) (m : message) :
  latest_content (pre ++ [m]) = content m.
Proof.
  unfold latest_content.
  destruct pre as [|x pre]; [reflexivity|].
  cbn [app].
  assert (H : forall d, last (pre ++ [m]) d = m) by (intro; apply last_last).
  rewrite H. reflexivity.
Qed.

Lemma latest_heard (h : list message) (text : string) :
  latest_content (last6 (h ++ [mk_message "user" text])) = text.
Proof.
  destruct (last6_snoc h (mk_message "user" text)) as [pre E].
  rewrite E. apply latest_content_snoc.
Qed.

(** What the orchestrator makes of each of the four literals. *)
Lemma fallback_record (fs : list (string * string)) :
  In fs [fallback_dnc; fallback_later; fallback_maybe; fallback_unknown] ->
  extract_analysis (json_loads (PyStr.strip (json_text fs)))
  = map (fun kv => (fst kv, PStr (snd kv))) fs.
Proof.
  intro Hin.
  assert (Hs : PyStr.strip (json_text fs) = json_text fs).
  { destruct Hin as [E | [E | [E | [E | []]]]]; subst fs; reflexivity. }
  rewrite Hs, (Hloads fs Hin). reflexivity.
Qed.

Lemma offline_answers_readably : answers_readably json_loads (call_llm_text None).
Proof.
  intros ms prev. exists (_fallback ms), None. split; [reflexivity|].
  unfold _fallback.
  repeat match goal with
         | |- context [if ?b then _ else _] => destruct b
         end;
    (rewrite fallback_record;
     [split; [repeat constructor | split; reflexivity]|]);
    simpl; tauto.
Qed.

(** An invocation on an open call whose phone has a row with an accepted
    key and whose backend answers: the decision step runs on that row. *)
Lemma ingest_known_run (be : backend) (text : string) (secs : Z) (w : world)
    (txt : string) (rid : option string) :
  ConversationState.closed (state w) = false ->
  lead_known w ->
  be (last6 (ConversationState.history (state w) ++ [mk_message "user" text]))
     (ConversationState.last_response_id (state w)) = Ok (txt, rid) ->
  let a := extract_analysis (json_loads (PyStr.strip txt)) in
  let st := answered rid (heard text secs (state w)) in
  let d2 := turn_store text txt rid a w in
  exists lead,
    ingest_user_text json_loads be text secs w
    = match _decide_and_apply a (Lead.id lead) (mk_world st d2) with
      | (Ok (Some o), w3) =>
          (Ok (ReplyTurn
                 (snapshot (ConversationState.phone (state w3)) (store w3))
                 a (Decided o) (ConversationState.elapsed_sec (state w3))),
           mk_world (closed_with o (state w3)) (store w3))
      | (Ok None, w3) =>
          (Ok (ReplyTurn (lead_dict lead) a Continue
                 (ConversationState.elapsed_sec (state w3))), w3)
      | (Raise e, w3) => (Raise e, w3)
      end.
Proof.
  intros Hopen (old & Hold & Hid) Hbe a st d2.
  rewrite (ingest_open_run json_loads be text secs w txt rid Hopen Hbe).
  cbv zeta. fold a. fold d2. fold st.
  destruct (find_turn_store text txt rid a w old Hold) as [ts Hfind].
  fold d2 in Hfind. rewrite Hfind. rewrite id_merged.
  apply Z.eqb_neq in Hid. rewrite Hid.
  eexists. rewrite id_merged. reflexivity.
Qed.

End OfflineFacts.

(** X11 (the call without an API key). With no client configured,
    [call_llm_text] answers by keyword, and a turn of an open call whose
    phone has a row is decided by the words of that utterance alone, in any
    letter case: "remove", "do not call", "not selling" or "stop calling"
    end the call as dnc, whatever else is said; failing those, "later",
    "busy", "another time" or "tomorrow" schedule a callback with the window
    "today 4-6pm"; failing those, "yes", "maybe", "might sell" or "consider"
    transfer the call at once, on the first such utterance (the canned
    record carries a price range); with none of these words the call
    continues until 90 seconds have elapsed and then takes the timeout exit. *)
Theorem offline_turn_outcomes :
  forall (json_loads : string -> result pyval) (text : string) (secs : Z)
         (w : world),
    reads_fallback json_loads ->
    ConversationState.closed (state w) = false ->
    lead_known w ->
    let latest := PyStr.lower text in
    let dnc := any_in latest ["remove"; "do not call"; "not selling";
                              "stop calling"] in
    let later := any_in latest ["later"; "busy"; "another time"; "tomorrow"] in
    let yes := any_in latest ["yes"; "maybe"; "might sell"; "consider"] in
    let elapsed := ConversationState.elapsed_sec (state w) + secs in
    let (r, w') := ingest_user_text json_loads (call_llm_text None) text secs w in
    exists l a so,
      r = Ok (ReplyTurn l a so elapsed)
      /\ (dnc = true -> so = Decided (Dnc dnc_message))
      /\ (dnc = false -> later = true ->
          exists cb,
            so = Decided (CallbackOutcome (Callback.id cb) (PStr "today 4-6pm")
                            callback_message)
            /\ callbacks (store w') = callbacks (store w) ++ [cb]
            /\ Callback.window cb = PStr "today 4-6pm")
      /\ (dnc = false -> later = false -> yes = true ->
          so = Decided (Transfer transfer_message))
      /\ (dnc = false -> later = false -> yes = false ->
          so = if 90 <=? elapsed then Decided (Dnc timeout_message)
               else Continue).
Proof.
  intros json_loads text secs w Hloads Hopen Hknown latest dnc later yes elapsed.
  set (txt := _fallback (last6 (ConversationState.history (state w)
                                ++ [mk_message "user" text]))).
  assert (Htxt : txt = if dnc then json_text fallback_dnc
                       else if later then json_text fallback_later
                       else if yes then json_text fallback_maybe
                       else json_text fallback_unknown).
  { subst txt. unfold _fallback. rewrite latest_heard. reflexivity. }
  destruct (ingest_known_run json_loads (call_llm_text None) text secs w txt None
              Hopen Hknown eq_refl) as [lead Hrun].
  rewrite Hrun. clear Hrun. cbv zeta.
  clearbody txt dnc later yes.
  destruct dnc; [|destruct later; [|destruct yes]]; subst txt.
  - rewrite (fallback_record json_loads Hloads fallback_dnc) by (simpl; tauto).
    rewrite (decide_readable
               (map (fun kv => (fst kv, PStr (snd kv))) fallback_dnc)
               (Lead.id lead) _ "dnc" false false
               eq_refl eq_refl eq_refl).
    do 3 eexists. split; [reflexivity|].
    repeat split; intros; try discriminate.
  - rewrite (fallback_record json_loads Hloads fallback_later) by (simpl; tauto).
    rewrite (decide_readable
               (map (fun kv => (fst kv, PStr (snd kv))) fallback_later)
               (Lead.id lead) _ "later" false false
               eq_refl eq_refl eq_refl).
    do 3 eexists. split; [reflexivity|].
    repeat split; intros; try discriminate.
    eexists. split; [reflexivity|]. split; [|reflexivity].
    cbn [store]. rewrite callbacks_save_event.
    unfold create_callback. cbn [utcnow callbacks with_callbacks snd fst].
    unfold turn_store. rewrite callbacks_upsert_lead, !callbacks_save_event.
    reflexivity.
  - rewrite (fallback_record json_loads Hloads fallback_maybe) by (simpl; tauto).
    rewrite (decide_readable
               (map (fun kv => (fst kv, PStr (snd kv))) fallback_maybe)
               (Lead.id lead) _ "maybe" true true
               eq_refl eq_refl eq_refl).
    do 3 eexists. split; [reflexivity|].
    repeat split; intros; try discriminate.
  - rewrite (fallback_record json_loads Hloads fallback_unknown) by (simpl; tauto).
    rewrite (decide_readable
               (map (fun kv => (fst kv, PStr (snd kv))) fallback_unknown)
               (Lead.id lead) _ "unknown" false false
               eq_refl eq_refl eq_refl).
    cbv zeta.
    change (str_in "unknown" ["dnc"; "no"]) with false.
    change (String.eqb "unknown" "later") with false.
    change (str_in "unknown" ["yes"; "maybe"]) with false.
    cbv beta iota delta [andb].
    cbn [state answered heard ConversationState.elapsed_sec].
    fold elapsed.
    destruct (90 <=? elapsed);
      do 3 eexists; (split; [reflexivity|]);
      repeat split; intros; try discriminate; reflexivity.
Qed.

Lemma loads_fallback_reads : reads_fallback loads_fallback.
Proof.
  intros fs [E | [E | [E | [E | []]]]]; subst fs; reflexivity.
Qed.

Lemma sample_lead_known (elapsed : Z) : lead_known (sample_world elapsed).
Proof.
  exists sample_lead. split; [reflexivity | discriminate].
Qed.

Lemma offline_turn_outcomes_witness :
  reads_fallback loads_fallback
  /\ ConversationState.closed (state (sample_world 0)) = false
  /\ lead_known (sample_world 0)
  /\ exists l a e,
       fst (ingest_user_text loads_fallback (call_llm_text None)
              "Call me later, or just REMOVE me" 8 (sample_world 0))
       = Ok (ReplyTurn l a (Decided (Dnc dnc_message)) e).
Proof.
  split; [exact loads_fallback_reads|]. split; [reflexivity|].
  split; [exact (sample_lead_known 0)|].
  generalize (offline_turn_outcomes loads_fallback
                "Call me later, or just REMOVE me" 8 (sample_world 0)
                loads_fallback_reads eq_refl (sample_lead_known 0)).
  cbv zeta.
  destruct (ingest_user_text _ _ _ _ _) as [r w'].
  intros (l & a & so & Hr & Hd & _).
  exists l, a, (ConversationState.elapsed_sec (state (sample_world 0)) + 8).
  cbn [fst]. rewrite Hr, (Hd eq_refl). reflexivity.
Defined.

(* ===================================================================== *)
(** * Further properties of the streaming bridge *)
(* ===================================================================== *)

Section ToolFacts.

Lemma request_transfer_args_inv (ev : pyval) (a : dict) :
  request_transfer_args ev = Some a ->
  exists d, ev = PDict d
            /\ get d "type" = PStr "response.function_call"
            /\ lookup "name" d = Some (PStr "request_transfer")
            /\ get_or d "arguments" (PDict []) = PDict a.
Proof.
  unfold request_transfer_args. destruct ev as [| | | |l|d]; try discriminate.
  destruct (eq_str (get d "type") "response.function_call") eqn:Et;
    [|discriminate].
  destruct (lookup "name" d) as [fn|] eqn:En; [|discriminate].
  destruct (eq_str fn "request_transfer") eqn:Ef; [|discriminate].
  destruct (get_or d "arguments" (PDict [])) as [| | | |l|a'] eqn:Ea;
    try discriminate.
  intro H. inversion H; subst a'. exists d.
  apply eq_str_true in Et. apply eq_str_true in Ef. subst fn.
  repeat split; assumption.
Qed.

End ToolFacts.

(** X12 (the transfer needs consent and the flag, and is logged before it is
    attempted). A request_transfer tool call is always logged as
    AI_TOOL_CALL. Unless its consent is truthy and the bridge has its
    qualified flag set, nothing else happens: no OUTCOME_TRANSFER, no
    redirect. With both, OUTCOME_TRANSFER is logged and then the telephony
    API is asked to redirect this call; when that request fails the
    exception leaves the drain, and the OUTCOME_TRANSFER event stays in the
    log although no call was redirected. The bridge, the leads and the
    callbacks are untouched in every case. *)
Theorem request_transfer_guard :
  forall (ev : pyval) (a : dict) (s : bridge_world),
    request_transfer_args ev = Some a ->
    let (r, s') := on_ai_event ev s in
    self s' = self s
    /\ leads (database (outside s')) = leads (database (outside s))
    /\ callbacks (database (outside s')) = callbacks (database (outside s))
    /\ exists e1,
         CallEvent.event_type e1 = "AI_TOOL_CALL"
         /\ if truthy (get a "consent") && Bridge.qualified (self s)
            then exists e2,
                   events (database (outside s'))
                   = events (database (outside s)) ++ [e1; e2]
                   /\ CallEvent.event_type e2 = "OUTCOME_TRANSFER"
                   /\ match redirect_faults (outside s) with
                      | true :: _ =>
                          r = Raise BackendError
                          /\ redirected (outside s') = redirected (outside s)
                      | _ =>
                          r = Ok true
                          /\ redirected (outside s')
                             = redirected (outside s)
                               ++ [Bridge.call_sid (self s)]
                      end
            else r = Ok true
                 /\ events (database (outside s'))
                    = events (database (outside s)) ++ [e1]
                 /\ redirected (outside s') = redirected (outside s).
Proof.
  intros ev a s Hargs.
  destruct (request_transfer_args_inv ev a Hargs) as (d & -> & Ht & Hn & Ha).
  run_bridge. rewrite Ht, Hn, Ha.
  change (eq_str (PStr "response.function_call") "response.output_text.delta")
    with false.
  change (eq_str (PStr "response.function_call") "response.function_call")
    with true.
  change (eq_str (PStr "request_transfer") "lead_detect") with false.
  change (eq_str (PStr "request_transfer") "request_transfer") with true.
  run_bridge.
  destruct (truthy (get a "consent") && Bridge.qualified (self s)).
  - destruct (redirect_faults (outside s)) as [|[|] rest]; run_bridge;
      (split; [reflexivity|]); (split; [reflexivity|]);
      (split; [reflexivity|]);
      eexists;
      (split;
       [|eexists; split;
         [rewrite !events_save_event, <- app_assoc; reflexivity
         |split; [|split; reflexivity]]]);
      reflexivity.
  - run_bridge. repeat split.
    eexists. split; [|split; [reflexivity|split; [|reflexivity]]].
    2: apply events_save_event.
    reflexivity.
Qed.

Lemma request_transfer_guard_witness :
  let s := mk_bw (Bridge.mk "CA100" "+15550100" None true)
             (mk_env sample_db [] [] [true] 0) in
  request_transfer_args (request_transfer_frame true)
  = Some [("consent", PBool true)]
  /\ fst (on_ai_event (request_transfer_frame true) s) = Raise BackendError
  /\ redirected (outside (snd (on_ai_event (request_transfer_frame true) s)))
     = []
  /\ map CallEvent.event_type
       (events (database
                  (outside (snd (on_ai_event (request_transfer_frame true) s)))))
     = ["AI_TOOL_CALL"; "OUTCOME_TRANSFER"].
Proof.
  intro s. split; [reflexivity|].
  generalize (request_transfer_guard (request_transfer_frame true)
                [("consent", PBool true)] s eq_refl).
  destruct (on_ai_event (request_transfer_frame true) s) as [r s'].
  intros (_ & _ & _ & e1 & H1 & H).
  change (truthy (get [("consent", PBool true)] "consent")
          && Bridge.qualified (self s)) with true in H.
  change (redirect_faults (outside s)) with [true] in H.
  cbv beta iota in H.
  destruct H as (e2 & Hev & H2 & Hr & Hred).
  cbn [fst snd]. split; [exact Hr|]. split; [exact Hred|].
  rewrite Hev. change (events (database (outside s))) with (@nil CallEvent.t).
  cbn [map app]. rewrite H1, H2. reflexivity.
Defined.

Section DrainFacts.

Lemma has_type_inv (ev : pyval) (t : string) :
  has_type ev t -> exists d, ev = PDict d /\ get d "type" = PStr t.
Proof. intro H. exact H. Qed.

(** A drain whose first event arrives in time and ends the loop. *)
Lemma drain_first (final : bool) (s : bridge_world) (k : socket) (delay : Z)
    (ev : pyval) (rest : list arrival) :
  Bridge.ai_ws (self s) = Some k ->
  inbox k = Arrives delay (Ok ev) :: rest ->
  delay < drain_timeout final ->
  _drain_ai_events final s
  = match on_ai_event ev (mk_bw (with_inbox rest (self s))
                            (counted final (outside s))) with
    | (Ok true, s2) => drain_loop (drain_timeout final) rest s2
    | (Ok false, s2) => (Ok tt, s2)
    | (Raise e, s2) => (Raise e, s2)
    end.
Proof.
  intros Hk Hq Hd.
  unfold _drain_ai_events, bind, count_final_drain, get_self.
  cbn [self outside Bridge.ai_ws]. rewrite Hk, Hq.
  fold (drain_timeout final).
  rewrite drain_loop_arrives by (apply Z.ltb_lt, Hd).
  reflexivity.
Qed.

End DrainFacts.

(** X13 (a drain stops at the end of a response). When the first event the
    socket delivers within the timeout is response.completed, the drain
    returns at once: it writes nothing and leaves every event behind it
    unread in the socket, a tool call among them. When it is response.error,
    the drain logs one AI_ERROR event with the event and returns in the same
    way. *)
Theorem drain_stops_at_response_end :
  forall (final : bool) (s : bridge_world) (k : socket) (delay : Z)
         (ev : pyval) (rest : list arrival),
    Bridge.ai_ws (self s) = Some k ->
    inbox k = Arrives delay (Ok ev) :: rest ->
    delay < drain_timeout final ->
    (has_type ev "response.completed" ->
     _drain_ai_events final s
     = (Ok tt, mk_bw (with_inbox rest (self s)) (counted final (outside s))))
    /\ (has_type ev "response.error" ->
        _drain_ai_events final s
        = (Ok tt,
           mk_bw (with_inbox rest (self s))
             (let e := counted final (outside s) in
              mk_env
                (save_event "AI_ERROR" (PDict [("error", ev)])
                   (Bridge.call_sid (self s)) (database e))
                (dial e) (redirected e) (redirect_faults e) (final_drains e)))).
Proof.
  intros final s k delay ev rest Hk Hq Hd.
  rewrite (drain_first final s k delay ev rest Hk Hq Hd).
  split; intros (d & -> & Ht); run_bridge; rewrite Ht; reflexivity.
Qed.

Lemma drain_stops_at_response_end_witness :
  let k := mk_socket
             [Arrives 0 (Ok (PDict [("type", PStr "response.completed")]));
              Arrives 0 (Ok (lead_detect_frame [("interest", PStr "yes")]))]
             [] [] false in
  let s := mk_bw (Bridge.mk "CA100" "+15550100" (Some k) false)
             (mk_env sample_db [] [] [] 0) in
  Bridge.ai_ws (self s) = Some k
  /\ 0 < drain_timeout true
  /\ has_type (PDict [("type", PStr "response.completed")]) "response.completed"
  /\ option_map inbox (Bridge.ai_ws (self (snd (_drain_ai_events true s))))
     = Some [Arrives 0 (Ok (lead_detect_frame [("interest", PStr "yes")]))]
  /\ database (outside (snd (_drain_ai_events true s))) = sample_db.
Proof.
  intros k s.
  assert (Ht : has_type (PDict [("type", PStr "response.completed")])
                 "response.completed").
  { eexists. split; reflexivity. }
  split; [reflexivity|]. split; [reflexivity|]. split; [exact Ht|].
  destruct (drain_stops_at_response_end true s k 0
              (PDict [("type", PStr "response.completed")])
              [Arrives 0 (Ok (lead_detect_frame [("interest", PStr "yes")]))]
              eq_refl eq_refl eq_refl) as [H _].
  rewrite (H Ht). split; reflexivity.
Defined.

Section DetectFacts.

Lemma find_upsert_some (p : string) (fs : fields) (d : db) :
  find_lead_by_phone p (snd (upsert_lead p fs d))
  = Some (fst (upsert_lead p fs d)).
Proof.
  destruct (find_lead_by_phone p d) as [old|] eqn:Hfind.
  - rewrite (find_after_upsert p fs d old Hfind).
    rewrite (upsert_lead_existing p fs d old Hfind). reflexivity.
  - unfold find_lead_by_phone in *. rewrite leads_upsert_lead, Hfind.
    unfold first_by_phone in *. rewrite find_snoc, Hfind.
    rewrite (upsert_lead_new p fs d Hfind).
    change (Lead.phone (Lead.set_id _ ?l)) with (Lead.phone l).
    rewrite (proj1 (new_lead_identity _ _ _ _)), String.eqb_refl.
    reflexivity.
Qed.

(** A field passed to [upsert_lead] with a value other than [None] and the
    empty string is the field of the row returned, created or merged. *)
Lemma upsert_lead_field (p : string) (fs : fields) (d : db)
    (c : Lead.column) (v : pyval) :
  NoDup (map fst fs) -> In (c, v) fs -> is_none_or_empty v = false ->
  Lead.getattr c (fst (upsert_lead p fs d)) = v.
Proof.
  intros Hnd Hin Hv.
  destruct (find_lead_by_phone p d) as [old|] eqn:Hfind.
  - rewrite (upsert_lead_existing p fs d old Hfind). cbn [fst].
    rewrite getattr_set_updated_at, (merge_fields_given c v fs old Hnd Hin), Hv.
    reflexivity.
  - unfold find_lead_by_phone in Hfind.
    rewrite (upsert_lead_new p fs d Hfind), getattr_set_id.
    assert (Hd : column_default v = v) by (destruct v; try reflexivity; discriminate Hv).
    rewrite <- Hd. apply fold_setattr_given; assumption.
Qed.

Lemma upsert_lead_nothing (p : string) (d : db) (old : Lead.t) (c : Lead.column) :
  find_lead_by_phone p d = Some old ->
  Lead.getattr c (fst (upsert_lead p [] d)) = Lead.getattr c old
  /\ Lead.id (fst (upsert_lead p [] d)) = Lead.id old.
Proof.
  intro H. rewrite (upsert_lead_existing p [] d old H). cbn [fst].
  split; [apply getattr_set_updated_at | reflexivity].
Qed.

End DetectFacts.

(** X14 (reported interest qualifies the lead). Over a database with
    distinct keys, a lead_detect tool call whose interest is "yes" or
    "maybe" and whose lead fields are text or [None] sets the qualified flag
    of the bridge and leaves the lead of the caller's phone stored as
    qualified, with the reported interest, whether the phone had a row
    before or the call creates it; the call itself is logged as
    AI_TOOL_CALL, redirects nothing and writes no callback, and the drain
    goes on. *)
Theorem lead_detect_qualifies_lead :
  forall (ev : pyval) (a : dict) (s : bridge_world),
    lead_detect_args ev = Some a ->
    get a "interest" = PStr "yes" \/ get a "interest" = PStr "maybe" ->
    lead_fields_text a ->
    db_ok (database (outside s)) ->
    let (r, s') := on_ai_event ev s in
    r = Ok true
    /\ Bridge.qualified (self s') = true
    /\ redirected (outside s') = redirected (outside s)
    /\ callbacks (database (outside s')) = callbacks (database (outside s))
    /\ (exists e1,
          events (database (outside s'))
          = events (database (outside s)) ++ [e1]
          /\ CallEvent.event_type e1 = "AI_TOOL_CALL")
    /\ exists lead,
         find_lead_by_phone (Bridge.phone (self s)) (database (outside s'))
         = Some lead
         /\ Lead.qualified lead = true
         /\ Lead.interest lead = get a "interest".
Proof.
  intros ev a s Hargs Hint _ Hok.
  destruct (lead_detect_args_inv ev a Hargs) as (d & -> & Ht & Hn & Ha).
  assert (Hgo : get_or a "interest" (PStr "") = get a "interest"
                /\ is_none_or_empty (get a "interest") = false
                /\ (eq_str (get a "interest") "yes"
                    || eq_str (get a "interest") "maybe") = true
                /\ eq_str (get a "interest") "later" = false).
  { split.
    - unfold get, get_or in *.
      destruct (lookup "interest" a); [reflexivity | destruct Hint; discriminate].
    - destruct Hint as [E | E]; rewrite E; repeat split. }
  destruct Hgo as (Hg & Hne & Hq & Hl).
  run_bridge. rewrite Ht, Hn, Ha.
  change (eq_str (PStr "response.function_call") "response.output_text.delta")
    with false.
  change (eq_str (PStr "response.function_call") "response.function_call")
    with true.
  change (eq_str (PStr "lead_detect") "lead_detect") with true.
  run_bridge. rewrite Hq, Hl. run_bridge. cbn [andb]. run_bridge.
  set (p := Bridge.phone (self s)).
  set (d1 := save_event _ _ _ _).
  set (fs := [(Lead.Interest, get_or a "interest" (PStr "")); _; _; _; _]).
  assert (Hnd : NoDup (map fst fs)).
  { subst fs. cbn [map fst]. repeat constructor; simpl; intuition discriminate. }
  assert (Hok1 : db_ok d1) by (apply db_ok_save_event, Hok).
  set (d2 := snd (upsert_lead p fs d1)).
  assert (Hok2 : db_ok d2) by (apply db_ok_upsert_lead, Hok1).
  assert (Hf2 := find_upsert_some p fs d1). fold d2 in Hf2.
  assert (Hi2 : Lead.interest (fst (upsert_lead p fs d1)) = get a "interest").
  { apply (upsert_lead_field p fs d1 Lead.Interest).
    - exact Hnd.
    - left. rewrite Hg. reflexivity.
    - exact Hne. }
  set (l2 := fst (upsert_lead p fs d1)) in *.
  destruct (upsert_lead_nothing p d2 l2 Lead.Interest Hf2) as [Hi3 _].
  assert (Hf3 := find_upsert_some p [] d2).
  set (l3 := fst (upsert_lead p [] d2)) in *.
  set (d3 := snd (upsert_lead p [] d2)) in *.
  assert (Hok3 : db_ok d3) by (apply db_ok_upsert_lead, Hok2).
  split; [reflexivity|]. split; [reflexivity|]. split; [reflexivity|].
  split.
  { rewrite callbacks_mark_qualified. subst d3 d2 d1.
    rewrite !callbacks_upsert_lead, callbacks_save_event. reflexivity. }
  split.
  { eexists. split.
    - rewrite events_mark_qualified. subst d3 d2 d1.
      rewrite !events_upsert_lead, events_save_event. reflexivity.
    - reflexivity. }
  eexists. split.
  { rewrite (find_phone_mark p l3 true d3 (proj1 (proj1 Hok3)) Hf3 p).
    rewrite String.eqb_refl. reflexivity. }
  split; [reflexivity|].
  change (Lead.interest (Lead.set_updated_at _ (Lead.set_qualified _ ?l)))
    with (Lead.interest l).
  cbn [Lead.getattr] in Hi3. rewrite Hi3. exact Hi2.
Qed.

Lemma lead_detect_qualifies_lead_witness :
  let s := mk_bw (Bridge.mk "CA100" "+15550199" None false)
             (mk_env sample_db [] [] [] 0) in
  lead_detect_args (lead_detect_frame [("interest", PStr "yes")])
  = Some [("interest", PStr "yes")]
  /\ lead_fields_text [("interest", PStr "yes")]
  /\ db_ok (database (outside s))
  /\ find_lead_by_phone "+15550199" sample_db = None
  /\ option_map Lead.qualified
       (find_lead_by_phone "+15550199"
          (database
             (outside
                (snd (on_ai_event
                        (lead_detect_frame [("interest", PStr "yes")]) s)))))
     = Some true.
Proof.
  intro s.
  assert (Hl : lead_fields_text [("interest", PStr "yes")]).
  { repeat constructor. }
  split; [reflexivity|]. split; [exact Hl|]. split; [exact sample_db_ok|].
  split; [reflexivity|].
  generalize (lead_detect_qualifies_lead
                (lead_detect_frame [("interest", PStr "yes")])
                [("interest", PStr "yes")] s eq_refl (or_introl eq_refl)
                Hl sample_db_ok).
  destruct (on_ai_event _ s) as [r s'].
  intros (_ & _ & _ & _ & _ & lead & Hfind & Hq & _).
  cbn [snd]. change (Bridge.phone (self s)) with "+15550199" in Hfind.
  rewrite Hfind. cbn [option_map]. rewrite Hq. reflexivity.
Defined.

Section WireFacts.

(** A drain reads from the socket and does nothing else to it. *)
Lemma drain_loop_wire (t : Z) (q : list arrival) :
  forall (s : bridge_world) (k : socket),
    Bridge.ai_ws (self s) = Some k ->
    exists k',
      Bridge.ai_ws (self (snd (drain_loop t q s))) = Some k'
      /\ sent k' = sent k
      /\ send_faults k' = send_faults k
      /\ is_closed k' = is_closed k.
Proof.
  assert (Hset : forall q' (s : bridge_world) (k : socket),
             Bridge.ai_ws (self s) = Some k ->
             Bridge.ai_ws (self (snd (set_inbox q' s)))
             = Some (mk_socket q' (send_faults k) (sent k) (is_closed k))).
  { intros q' s k Hk. unfold set_inbox, with_socket. cbn [snd self Bridge.ai_ws].
    rewrite Hk. reflexivity. }
  induction q as [|[delay [ev|e] | delay] r IH]; intros s k Hk.
  - exists k. repeat split. exact Hk.
  - destruct (delay <? t) eqn:Hd.
    + rewrite (drain_loop_arrives t delay ev r s Hd).
      generalize (on_ai_event_effects ev (snd (set_inbox r s))).
      destruct (on_ai_event ev (snd (set_inbox r s))) as [res s2].
      cbn [snd]. intros (Fw & _).
      rewrite (Hset r s k Hk) in Fw.
      destruct res as [[|]|e].
      * destruct (IH s2 _ Fw) as (k' & H1 & H2 & H3 & H4).
        exists k'. repeat split; assumption.
      * eexists. split; [exact Fw|]. repeat split.
      * eexists. split; [exact Fw|]. repeat split.
    + cbn [drain_loop]. rewrite Hd. eexists.
      split; [apply (Hset _ s k Hk)|]. repeat split.
  - cbn [drain_loop]. destruct (delay <? t).
    + unfold bind, lift_result.
      assert (E : set_inbox r s = (Ok tt, snd (set_inbox r s))) by reflexivity.
      rewrite E. cbn [snd]. eexists.
      split; [apply (Hset _ s k Hk)|]. repeat split.
    + eexists. split; [apply (Hset _ s k Hk)|]. repeat split.
  - cbn [drain_loop]. destruct (delay <? t).
    + unfold bind, raise.
      assert (E : forall q', set_inbox q' s = (Ok tt, snd (set_inbox q' s)))
        by reflexivity.
      rewrite E. cbn [snd]. eexists.
      split; [apply (Hset _ s k Hk)|]. repeat split.
    + eexists. split; [apply (Hset _ s k Hk)|]. repeat split.
Qed.

Lemma drain_wire (final : bool) (s : bridge_world) (k : socket) :
  Bridge.ai_ws (self s) = Some k ->
  exists k',
    Bridge.ai_ws (self (snd (_drain_ai_events final s))) = Some k'
    /\ sent k' = sent k
    /\ send_faults k' = send_faults k
    /\ is_closed k' = is_closed k.
Proof.
  intro Hk. unfold _drain_ai_events, bind, count_final_drain, get_self.
  cbn [self outside Bridge.ai_ws]. rewrite Hk.
  apply drain_loop_wire. exact Hk.
Qed.

End WireFacts.

(** X15 (audio is forwarded before anything is read). For a media message
    the bridge sends the audio as input_audio_buffer.append, then
    response.create, and only then drains: on a socket whose two sends
    succeed, exactly these two frames are added, in this order, to what was
    sent, and the drain sends nothing. When the first send fails,
    ConnectionClosed leaves the handling at once with nothing sent; when the
    second fails, only the audio was sent; in both cases nothing is read
    from the session and nothing is written. A media message without a
    payload raises KeyError before anything is sent. *)
Theorem media_forwarded_then_drained :
  forall (audio : pyval) (s : bridge_world) (k : socket),
    Bridge.ai_ws (self s) = Some k ->
    (let (r, s') := handle_twilio_event (TwMedia (Some audio)) s in
     exists k',
       Bridge.ai_ws (self s') = Some k'
       /\ is_closed k' = is_closed k
       /\ match send_faults k with
          | true :: _ =>
              r = Raise ConnectionClosed
              /\ sent k' = sent k
              /\ inbox k' = inbox k /\ outside s' = outside s
          | _ :: true :: _ =>
              r = Raise ConnectionClosed
              /\ sent k' = sent k ++ [InputAudioBufferAppend audio]
              /\ inbox k' = inbox k /\ outside s' = outside s
          | _ =>
              sent k'
              = sent k ++ [InputAudioBufferAppend audio; ResponseCreate]
          end)
    /\ handle_twilio_event (TwMedia None) s = (Raise KeyError, s).
Proof.
  intros audio s k Hk. split; [|reflexivity].
  unfold handle_twilio_event.
  assert (Hdrain : forall (faults : list bool) (out : list ai_frame),
             let s2 := mk_bw (with_socket
                                (fun k => mk_socket (inbox k) faults out
                                            (is_closed k)) (self s))
                         (outside s) in
             exists k',
               Bridge.ai_ws (self (snd (_drain_ai_events false s2))) = Some k'
               /\ is_closed k' = is_closed k /\ sent k' = out).
  { intros faults out s2.
    destruct (drain_wire false s2
                (mk_socket (inbox k) faults out (is_closed k)))
      as (k' & H1 & H2 & _ & H4).
    - subst s2. unfold with_socket. cbn [self Bridge.ai_ws]. rewrite Hk.
      reflexivity.
    - exists k'. repeat split; assumption. }
  unfold bind at 1. unfold ai_send at 1. rewrite Hk.
  destruct (send_faults k) as [|[|] rest] eqn:Hf.
  - unfold bind at 1. unfold ai_send at 1.
    unfold with_socket at 1. cbn [self Bridge.ai_ws]. rewrite Hk.
    cbn [option_map send_faults].
    destruct (Hdrain [] (sent k ++ [InputAudioBufferAppend audio; ResponseCreate]))
      as (k' & H1 & H2 & H3).
    match goal with
    | |- context [_drain_ai_events false ?x] =>
        replace x with (mk_bw (with_socket
                                 (fun k0 => mk_socket (inbox k0) []
                                    (sent k ++ [InputAudioBufferAppend audio;
                                                ResponseCreate])
                                    (is_closed k0)) (self s)) (outside s))
    end.
    2:{ unfold with_socket. cbn [self outside Bridge.ai_ws Bridge.call_sid
                                  Bridge.phone Bridge.qualified].
        rewrite Hk. cbn [option_map inbox sent send_faults is_closed].
        rewrite <- app_assoc. reflexivity. }
    destruct (_drain_ai_events false _) as [r s']. cbn [snd] in H1.
    exists k'. repeat split; assumption.
  - eexists. unfold with_socket. cbn [self Bridge.ai_ws outside].
    rewrite Hk. cbn [option_map]. split; [reflexivity|]. repeat split.
  - unfold bind at 1. unfold ai_send at 1.
    unfold with_socket at 1. cbn [self Bridge.ai_ws]. rewrite Hk.
    cbn [option_map send_faults].
    destruct rest as [|[|] rest'].
    + destruct (Hdrain [] (sent k ++ [InputAudioBufferAppend audio; ResponseCreate]))
        as (k' & H1 & H2 & H3).
      match goal with
      | |- context [_drain_ai_events false ?x] =>
          replace x with (mk_bw (with_socket
                                   (fun k0 => mk_socket (inbox k0) []
                                      (sent k ++ [InputAudioBufferAppend audio;
                                                  ResponseCreate])
                                      (is_closed k0)) (self s)) (outside s))
      end.
      2:{ unfold with_socket. cbn [self outside Bridge.ai_ws Bridge.call_sid
                                    Bridge.phone Bridge.qualified].
          rewrite Hk. cbn [option_map inbox sent send_faults is_closed].
          rewrite <- app_assoc. reflexivity. }
      destruct (_drain_ai_events false _) as [r s']. cbn [snd] in H1.
      exists k'. repeat split; assumption.
    + eexists. unfold with_socket. cbn [self Bridge.ai_ws outside].
      rewrite Hk. cbn [option_map]. split; [reflexivity|]. repeat split.
    + destruct (Hdrain rest' (sent k ++ [InputAudioBufferAppend audio; ResponseCreate]))
        as (k' & H1 & H2 & H3).
      match goal with
      | |- context [_drain_ai_events false ?x] =>
          replace x with (mk_bw (with_socket
                                   (fun k0 => mk_socket (inbox k0) rest'
                                      (sent k ++ [InputAudioBufferAppend audio;
                                                  ResponseCreate])
                                      (is_closed k0)) (self s)) (outside s))
      end.
      2:{ unfold with_socket. cbn [self outside Bridge.ai_ws Bridge.call_sid
                                    Bridge.phone Bridge.qualified].
          rewrite Hk. cbn [option_map inbox sent send_faults is_closed].
          rewrite <- app_assoc. reflexivity. }
      destruct (_drain_ai_events false _) as [r s']. cbn [snd] in H1.
      exists k'. repeat split; assumption.
Qed.

Lemma media_forwarded_then_drained_witness :
  Bridge.ai_ws (self sample_bridge_world) = Some (mk_socket [] [] [] false)
  /\ option_map sent
       (Bridge.ai_ws
          (self (snd (handle_twilio_event (TwMedia (Some (PStr "AAAA")))
                        sample_bridge_world))))
     = Some [InputAudioBufferAppend (PStr "AAAA"); ResponseCreate].
Proof.
  split; [reflexivity|].
  destruct (media_forwarded_then_drained (PStr "AAAA") sample_bridge_world
              (mk_socket [] [] [] false) eq_refl) as [H _].
  destruct (handle_twilio_event _ sample_bridge_world) as [r s'].
  destruct H as (k' & H1 & _ & H3). cbn [snd]. rewrite H1. cbn [option_map].
  cbn [send_faults sent app] in H3. rewrite H3. reflexivity.
Defined.

(* ===================================================================== *)
(** * Further properties of the media-stream handler *)
(* ===================================================================== *)

Section QuietFacts.

(** Without a bridge and without a start message the loop changes nothing. *)
Lemma media_loop_without_start (incoming : list ws_in) (h : handler) :
  Forall not_start incoming ->
  bridge h = None ->
  snd (media_loop incoming h) = h.
Proof.
  intros Hall Hb. induction Hall as [|x rest Hx Hrest IH]; [reflexivity|].
  destruct x as [msg | | e]; try reflexivity.
  cbn [media_loop]. unfold bind.
  destruct msg as [st | payload | stop | | e]; try contradiction Hx;
    unfold ret, raise; rewrite ?Hb; try reflexivity;
    destruct (media_loop rest h) as [[u|e] h1]; exact IH.
Qed.

End QuietFacts.

(** X16 (no start message, no session). When the telephony side never sends
    a start message, the handler never connects to the reasoning session and
    forwards nothing: media and stop messages are dropped, no lead and no
    callback is written, nothing is redirected. All it writes is its own
    teardown: STREAM_CLOSED, preceded by STREAM_ERROR when a message could
    not be read, both with an empty call sid. *)
Theorem stream_without_start :
  forall (incoming : list ws_in) (e : env),
    Forall not_start incoming ->
    let h' := snd (media_stream incoming (new_handler e)) in
    bridge h' = None
    /\ call_sid h' = None
    /\ dial (world_of h') = dial e
    /\ redirected (world_of h') = redirected e
    /\ leads (database (world_of h')) = leads (database e)
    /\ callbacks (database (world_of h')) = callbacks (database e)
    /\ exists new,
         events (database (world_of h')) = events (database e) ++ new
         /\ Forall is_teardown_event new
         /\ (1 <= length new <= 2)%nat.
Proof.
  intros incoming e Hall. cbv zeta. unfold media_stream.
  generalize (media_loop_without_start incoming (new_handler e) Hall eq_refl).
  destruct (media_loop incoming (new_handler e)) as [r h1]. cbn [snd].
  intro E. subst h1.
  destruct r as [u|x]; [|destruct (is_Exception x)];
    unfold handler_event;
    cbn [snd fst new_handler bridge call_sid world_of option_map database dial
         redirected redirect_faults final_drains or_empty];
    repeat split.
  - eexists. split; [apply events_save_event|].
    split; [|cbn [length]; lia].
    constructor; [|constructor]. split; [right; reflexivity | reflexivity].
  - eexists. split; [rewrite !events_save_event, <- app_assoc; reflexivity|].
    split; [|cbn [length app]; lia].
    constructor; [|constructor; [|constructor]].
    + split; [left; reflexivity | reflexivity].
    + split; [right; reflexivity | reflexivity].
  - eexists. split; [apply events_save_event|].
    split; [|cbn [length]; lia].
    constructor; [|constructor]. split; [right; reflexivity | reflexivity].
Qed.

Lemma stream_without_start_witness :
  Forall not_start [Receives (TwMedia (Some (PStr "AAAA"))); ReceivesNone]
  /\ dial (world_of
             (snd (media_stream
                     [Receives (TwMedia (Some (PStr "AAAA"))); ReceivesNone]
                     (new_handler both_env))))
     = dial both_env
  /\ leads (database (world_of
              (snd (media_stream
                      [Receives (TwMedia (Some (PStr "AAAA"))); ReceivesNone]
                      (new_handler both_env)))))
     = leads sample_db.
Proof.
  assert (H : Forall not_start
                [Receives (TwMedia (Some (PStr "AAAA"))); ReceivesNone]).
  { repeat constructor. }
  split; [exact H|].
  destruct (stream_without_start _ both_env H) as (_ & _ & H3 & _ & H5 & _).
  split; [exact H3 | exact H5].
Defined.

Section ConnectFacts.

Lemma start_unreachable (b : Bridge.t) (d : db) (dl : list (option socket))
    (rd : list string) (rf : list bool) (fd : nat) :
  dl = [] \/ (exists rest, dl = None :: rest) ->
  exists dl',
    start (mk_bw b (mk_env d dl rd rf fd))
    = (Raise ConnectionClosed, mk_bw b (mk_env d dl' rd rf fd)).
Proof.
  intros [H | [rest H]]; subst dl; eexists; reflexivity.
Qed.

End ConnectFacts.

(** X17 (a session that cannot be reached). When the connection to the
    reasoning session cannot be made on the start message, the handler stops
    there: it has logged STREAM_START, it logs STREAM_ERROR and
    STREAM_CLOSED under the call sid of the start message, and that is all.
    No later message is read, the bridge it made has no socket, and no lead,
    no callback and no redirect is written. *)
Theorem session_unreachable :
  forall (info : list (string * string)) (more : list ws_in) (e : env),
    (dial e = [] \/ exists rest, dial e = None :: rest) ->
    let h' := snd (media_stream (Receives (TwStart info) :: more)
                     (new_handler e)) in
    (exists e1 e2 e3,
        events (database (world_of h'))
        = events (database e) ++ [e1; e2; e3]
        /\ CallEvent.event_type e1 = "STREAM_START"
        /\ CallEvent.event_type e2 = "STREAM_ERROR"
        /\ CallEvent.event_type e3 = "STREAM_CLOSED"
        /\ CallEvent.call_sid e1 = or_empty (call_sid h')
        /\ CallEvent.call_sid e2 = or_empty (call_sid h')
        /\ CallEvent.call_sid e3 = or_empty (call_sid h'))
    /\ (exists b, bridge h' = Some b /\ Bridge.ai_ws b = None)
    /\ leads (database (world_of h')) = leads (database e)
    /\ callbacks (database (world_of h')) = callbacks (database e)
    /\ redirected (world_of h') = redirected e.
Proof.
  intros info more e Hdial. cbv zeta.
  unfold media_stream. cbn [media_loop].
  set (sid := text_or (text_get "callSid" info) _).
  set (phone := match text_get "from" info with Some p => p | None => "" end).
  cbv beta iota zeta delta [bind handler_event on_bridge new_handler].
  cbn [world_of bridge call_sid fst snd].
  destruct e as [d dl rd rf fd].
  cbn [database dial redirected redirect_faults final_drains] in *.
  destruct (start_unreachable (Bridge.init (or_empty sid) phone)
              (save_event "STREAM_START" (PDict [("from", PStr phone)])
                 (or_empty sid) d) dl rd rf fd Hdial) as [dl' Hstart].
  rewrite Hstart.
  cbn [is_Exception world_of bridge call_sid fst snd outside self database
       dial redirected redirect_faults final_drains option_map close
       with_socket Bridge.ai_ws Bridge.init].
  split; [|split; [eexists; split; reflexivity | repeat split]].
  do 3 eexists.
  split; [rewrite !events_save_event, <- !app_assoc; reflexivity|].
  repeat split.
Qed.

Lemma session_unreachable_witness :
  dial (mk_env sample_db [] [] [] 0) = []
  /\ map CallEvent.event_type
       (events (database (world_of
          (snd (media_stream
                  [Receives start_msg;
                   Receives (TwMedia (Some (PStr "AAAA")))]
                  (new_handler (mk_env sample_db [] [] [] 0)))))))
     = ["STREAM_START"; "STREAM_ERROR"; "STREAM_CLOSED"].
Proof.
  split; [reflexivity|].
  destruct (session_unreachable [("callSid", "CA100"); ("from", "+15550100")]
              [Receives (TwMedia (Some (PStr "AAAA")))]
              (mk_env sample_db [] [] [] 0) (or_introl eq_refl))
    as ((e1 & e2 & e3 & Hev & H1 & H2 & H3 & _) & _).
  unfold start_msg. rewrite Hev. cbn [map app database events sample_db].
  rewrite H1, H2, H3. reflexivity.
Defined.

(* ===================================================================== *)
(** * The keypad and speech handler of the IVR *)
(* ===================================================================== *)

Section TextFacts.

Lemma prefix_app (x : string) :
  forall s, String.prefix x s = true <-> exists b, s = (x ++ b)%string.
Proof.
  induction x as [|c x IH]; intro s.
  - split; [intros _; exists s; reflexivity|].
    intros _. destruct s; reflexivity.
  - destruct s as [|c' s]; cbn [String.prefix].
    + split; [discriminate | intros [b Hb]; discriminate Hb].
    + destruct (ascii_dec c c') as [E | N].
      * subst c'. rewrite IH. split.
        -- intros [b Hb]. exists b. cbn [String.append]. rewrite Hb. reflexivity.
        -- intros [b Hb]. exists b. cbn [String.append] in Hb.
           inversion Hb. reflexivity.
      * split; [discriminate|].
        intros [b Hb]. cbn [String.append] in Hb. injection Hb as E1 E2.
        congruence.
Qed.

Lemma contains_iff (x : string) :
  forall s, contains s x = true <-> exists a b, s = (a ++ x ++ b)%string.
Proof.
  induction s as [|c s IH]; cbn [contains].
  - rewrite orb_false_r, prefix_app. split.
    + intros [b Hb]. exists "", b. exact Hb.
    + intros (a & b & H). destruct a as [|c a]; [|discriminate H].
      exists b. exact H.
  - rewrite orb_true_iff, prefix_app, IH. split.
    + intros [[b Hb] | (a & b & H)].
      * exists "", b. exact Hb.
      * exists (String c a), b. cbn [String.append]. rewrite H. reflexivity.
    + intros (a & b & H). destruct a as [|c' a].
      * left. exists b. exact H.
      * right. cbn [String.append] in H. inversion H. exists a, b. reflexivity.
Qed.

Lemma append_assoc (a b c : string) :
  ((a ++ b) ++ c)%string = (a ++ (b ++ c))%string.
Proof.
  induction a as [|x a IH]; cbn [String.append]; [reflexivity|].
  rewrite IH. reflexivity.
Qed.

Lemma contains_trans (s x y : string) :
  contains s x = true -> contains x y = true -> contains s y = true.
Proof.
  rewrite !contains_iff. intros (a & b & Hs) (a' & b' & Hx).
  exists (a ++ a')%string, (b' ++ b)%string.
  rewrite Hs, Hx, !append_assoc. reflexivity.
Qed.

End TextFacts.

(** X18 (a key pressed decides). When the caller has pressed 1, 2 or 3
    (white space around the digit aside), [twilio_qualify] ignores what was
    said: 1 is read as "yes", logs INTENT_QUALIFIED and asks for the price
    range; 2 is read as "later", logs INTENT_LATER with the window "today 4
    to 6 PM" and promises the call back; 3 is read as "no", logs INTENT_DNC
    and says goodbye. *)
Theorem keypad_overrides_speech :
  forall (sid from speech digits : string) (d : db),
    (PyStr.strip digits = "1" ->
     twilio_qualify sid from speech digits d
     = (AskPrice,
        save_event "INTENT_QUALIFIED"
          (PDict [("from", PStr from); ("speech", PStr "yes")]) sid d))
    /\ (PyStr.strip digits = "2" ->
        twilio_qualify sid from speech digits d
        = (SayCallBack,
           save_event "INTENT_LATER"
             (PDict [("from", PStr from); ("speech", PStr "later");
                     ("window", PStr "today 4 to 6 PM")]) sid d))
    /\ (PyStr.strip digits = "3" ->
        twilio_qualify sid from speech digits d
        = (SayRemoved,
           save_event "INTENT_DNC"
             (PDict [("from", PStr from); ("speech", PStr "no")]) sid d)).
Proof.
  intros sid from speech digits d.
  repeat split; intro H; unfold twilio_qualify; rewrite H; reflexivity.
Qed.

Lemma keypad_overrides_speech_witness :
  PyStr.strip " 1 " = "1"
  /\ fst (twilio_qualify "CA100" "+15550100" "no, remove me" " 1 " sample_db)
     = AskPrice.
Proof.
  split; [reflexivity|].
  destruct (keypad_overrides_speech "CA100" "+15550100" "no, remove me" " 1 "
              sample_db) as [H _].
  rewrite (H eq_refl). reflexivity.
Defined.

(** X19 (every "no" inside a word counts). The keywords of [twilio_qualify]
    are tested as substrings, the removal list first, and that list holds
    "no". So when no key decides, speech that contains any text in which the
    letters "no" occur, in any letter case, is logged as INTENT_DNC and
    answered with the goodbye: "not now", "I don't know", "this afternoon",
    and also "another time", a keyword of the call-back list that therefore
    never schedules a call back. *)
Theorem speech_with_no_inside_is_removed :
  forall (sid from speech digits word : string) (d : db),
    PyStr.strip digits <> "1" ->
    PyStr.strip digits <> "2" ->
    PyStr.strip digits <> "3" ->
    contains word "no" = true ->
    contains (PyStr.strip (PyStr.lower speech)) word = true ->
    twilio_qualify sid from speech digits d
    = (SayRemoved,
       save_event "INTENT_DNC"
         (PDict [("from", PStr from);
                 ("speech", PStr (PyStr.strip (PyStr.lower speech)))]) sid d).
Proof.
  intros sid from speech digits word d H1 H2 H3 Hw Hs.
  unfold twilio_qualify.
  apply String.eqb_neq in H1, H2, H3. rewrite H1, H2, H3.
  assert (Hno : contains (PyStr.strip (PyStr.lower speech)) "no" = true)
    by (eapply contains_trans; eassumption).
  unfold any_in at 1. cbn [existsb]. rewrite Hno. reflexivity.
Qed.

Lemma speech_with_no_inside_is_removed_witness :
  PyStr.strip "" <> "1" /\ PyStr.strip "" <> "2" /\ PyStr.strip "" <> "3"
  /\ contains "another time" "no" = true
  /\ contains (PyStr.strip (PyStr.lower "Call me another time, maybe"))
       "another time" = true
  /\ fst (twilio_qualify "CA100" "+15550100" "Call me another time, maybe" ""
            sample_db)
     = SayRemoved.
Proof.
  assert (N : forall t : string, t <> "" -> PyStr.strip "" <> t).
  { intros t Ht E. apply Ht. symmetry. exact E. }
  split; [apply N; discriminate|]. split; [apply N; discriminate|].
  split; [apply N; discriminate|]. split; [reflexivity|].
  split; [reflexivity|].
  rewrite (speech_with_no_inside_is_removed "CA100" "+15550100"
             "Call me another time, maybe" "" "another time" sample_db
             (N "1" ltac:(discriminate)) (N "2" ltac:(discriminate))
             (N "3" ltac:(discriminate)) eq_refl eq_refl).
  reflexivity.
Defined.

(** X20 (the IVR only logs). Whatever is said or pressed, [twilio_qualify]
    writes no lead and no callback: a caller it takes as interested is not
    marked qualified and a caller who asks to be called later gets no
    Callback row. It appends exactly one audit event, whose type is
    INTENT_DNC with the goodbye, INTENT_LATER with the promise to call back
    and INTENT_QUALIFIED with the question for the price; when it asks its
    question again it writes nothing at all. *)
Theorem ivr_only_logs :
  forall (sid from speech digits : string) (d : db),
    let (r, d') := twilio_qualify sid from speech digits d in
    leads d' = leads d
    /\ callbacks d' = callbacks d
    /\ match r with
       | AskAgain => d' = d
       | _ =>
           exists ev,
             events d' = events d ++ [ev]
             /\ CallEvent.call_sid ev = sid
             /\ CallEvent.event_type ev
                = match r with
                  | SayRemoved => "INTENT_DNC"
                  | SayCallBack => "INTENT_LATER"
                  | _ => "INTENT_QUALIFIED"
                  end
       end.
Proof.
  intros sid from speech digits d. unfold twilio_qualify.
  repeat match goal with
         | |- context [if ?b then _ else _] => destruct b
         end;
    repeat split;
    eexists; (split; [apply events_save_event|]); split; reflexivity.
Qed.

(* ===================================================================== *)
(** * What no call ever does *)
(* ===================================================================== *)

Section GrowthFacts.

Lemma grows_from_refl (d : db) : grows_from d d.
Proof.
  split; [exists []; symmetry; apply app_nil_r|].
  split; [exists []; symmetry; apply app_nil_r|].
  split; [apply Nat.le_refl | intros p i H; exact H].
Qed.

Lemma length_leads_upsert (p : string) (fs : fields) (d : db) :
  (length (leads d) <= length (leads (snd (upsert_lead p fs d))))%nat.
Proof.
  rewrite leads_upsert_lead. destruct (first_by_phone p (leads d)).
  - rewrite length_write_first. apply Nat.le_refl.
  - rewrite length_app. cbn [length]. lia.
Qed.

Lemma length_leads_mark (i : Z) (q : bool) (d : db) :
  length (leads (mark_qualified i q d)) = length (leads d).
Proof.
  unfold mark_qualified. destruct (get_lead i d); [|reflexivity].
  cbn [utcnow leads with_leads]. apply length_write_first.
Qed.

Lemma grows_from_closed (d0 : db) : store_closed (grows_from d0).
Proof.
  split; [|split; [|split]].
  - intros t p c d ([ne He] & Hc & Hl & Hk).
    split; [|split; [exact Hc | split; [exact Hl | exact Hk]]].
    eexists. rewrite events_save_event, He, <- app_assoc. reflexivity.
  - intros p fs d (He & Hc & Hl & Hk).
    rewrite <- (events_upsert_lead p fs d) in He.
    rewrite <- (callbacks_upsert_lead p fs d) in Hc.
    split; [exact He|]. split; [exact Hc|]. split.
    + eapply Nat.le_trans; [exact Hl | apply length_leads_upsert].
    + intros q i H. apply (proj1 (proj2 (lead_key_closed q i))), Hk, H.
  - intros j q d (He & Hc & Hl & Hk).
    rewrite <- (events_mark_qualified j q d) in He.
    rewrite <- (callbacks_mark_qualified j q d) in Hc.
    split; [exact He|]. split; [exact Hc|]. split.
    + rewrite length_leads_mark. exact Hl.
    + intros p i H.
      apply (proj1 (proj2 (proj2 (lead_key_closed p i)))), Hk, H.
  - intros j w n d (He & [nc Hc] & Hl & Hk).
    split; [exact He|]. split; [|split; [exact Hl | exact Hk]].
    eexists. unfold create_callback. cbn [utcnow callbacks with_callbacks snd].
    rewrite Hc, <- app_assoc. reflexivity.
Qed.

End GrowthFacts.

(** X5 (no call deletes). Whatever the backend, the realtime session and the
    telephony side deliver, and whether the run returns or raises, the
    database after an invocation of [ingest_user_text], after
    [simulate_conversation] and after a whole run of [media_stream] holds
    everything it held before: every audit event and every callback row in
    its place, followed by the new ones; at least as many leads; and for
    every phone that had a lead, a lead with the same key. *)
Theorem calls_never_delete :
  (forall (json_loads : string -> result pyval) (be : backend) (text : string)
          (secs : Z) (w : world),
      grows_from (store w)
        (store (snd (ingest_user_text json_loads be text secs w))))
  /\ (forall (json_loads : string -> result pyval) (phone : string)
             (us : list (backend * string)) (secs : Z) (d : db),
         grows_from d
           (store (snd (simulate_conversation json_loads phone us secs d))))
  /\ (forall (incoming : list ws_in) (h : handler),
         grows_from (database (world_of h))
           (database (world_of (snd (media_stream incoming h))))).
Proof.
  split; [|split].
  - intros json_loads be text secs w.
    apply (keeps_ingest _ (grows_from_closed (store w))).
    apply grows_from_refl.
  - intros json_loads phone us secs d.
    apply (keeps_simulate_loop _ (grows_from_closed d)).
    apply (proj1 (proj2 (grows_from_closed d))). apply grows_from_refl.
  - intros incoming h.
    apply (keeps_media_stream _ (grows_from_closed (database (world_of h)))).
    apply grows_from_refl.
Qed.

(** X6 (a new brain registers the caller). [VanessaBrain(phone, call_sid)]
    starts an open conversation with no history and no seconds elapsed, and
    makes sure the phone has a lead: a phone that has one keeps it with its
    key, its flag and every field as stored; a phone that has none gets one
    new row, not qualified, with every field empty. Events and callbacks are
    untouched. *)
Theorem new_brain_registers_caller :
  forall (phone sid : string) (d : db),
    let w := VanessaBrain phone sid d in
    state w = ConversationState.init phone sid
    /\ events (store w) = events d
    /\ callbacks (store w) = callbacks d
    /\ exists lead,
         find_lead_by_phone phone (store w) = Some lead
         /\ match find_lead_by_phone phone d with
            | Some old =>
                same_identity lead old
                /\ (forall c, Lead.getattr c lead = Lead.getattr c old)
                /\ length (leads (store w)) = length (leads d)
            | None =>
                leads (store w) = leads d ++ [lead]
                /\ Lead.qualified lead = false
                /\ (forall c, Lead.getattr c lead = PStr "")
            end.
Proof.
  intros phone sid d w. subst w. unfold VanessaBrain. cbn [state store].
  split; [reflexivity|].
  split; [apply events_upsert_lead|].
  split; [apply callbacks_upsert_lead|].
  exists (fst (upsert_lead phone [] d)).
  split; [apply find_upsert_some|].
  destruct (find_lead_by_phone phone d) as [old|] eqn:Hfind.
  - rewrite (upsert_lead_existing phone [] d old Hfind). cbn [fst snd leads].
    split; [repeat split|]. split; [intro c; destruct c; reflexivity|].
    apply length_write_first.
  - unfold find_lead_by_phone in Hfind.
    rewrite leads_upsert_lead, Hfind.
    split; [reflexivity|].
    rewrite (upsert_lead_new phone [] d Hfind).
    split; [reflexivity|]. intro c. destruct c; reflexivity.
Qed.
